(** * WMS allocation engine: shallow embedding and verified properties

    The development follows the Python sources of the warehouse project:
    - [inventory/services/structures.py]  (ManualStack, ManualQueue)
    - [inventory/models.py]               (Batch.reserve, TransactionLog.save,
                                           UndoStack / RedoStack push and pop)
    - [inventory/services/allocation.py]  (allocate_order)
    - [inventory/services/undo_redo.py]   (undo / redo handlers and drivers)
    - [inventory/views.py]                (DeallocateOrderView.post)

    Quantities are [Decimal] values of [DecimalField(decimal_places=3)]; they
    are represented by the integer number of thousandths, so [50000] stands
    for 50 units.  Dates are day numbers.  Python exceptions are values of
    [Exn]; database state is threaded explicitly. *)

From Stdlib Require Import String DecimalString.
From Stdlib Require Import List ZArith Lia Bool Arith Sorted Permutation.
From Equations Require Import Equations.
Import ListNotations.
Local Open Scope string_scope.
Local Open Scope Z_scope.

Set Implicit Arguments.

(* ===================================================================== *)
(** * Python exceptions and results *)
(* ===================================================================== *)

Inductive ExnClass :=
| ValueError | TypeError | AttributeError | IndexError | KeyError
| DoesNotExist | IntegrityError | ProtectedError | DatabaseError
| Http404 | InvalidOperation
| AllocationError | OrderNotFoundError | InsufficientStockError
| UndoRedoError.

Record Exn := mkExn { exn_class : ExnClass; exn_msg : string }.


Inductive Result (A : Type) :=
| Ok (a : A)
| Raise (e : Exn).
Arguments Ok {A} a.
Arguments Raise {A} e.

(** Matching on a value while keeping the equation, for the loops below
    whose termination argument needs it. *)
Definition inspect {A : Type} (x : A) : { y : A | x = y } := exist _ x eq_refl.

(** [str(n)] for integers, used by the f-strings of the sources. *)
Definition str_Z (n : Z) : string := NilZero.string_of_int (Z.to_int n).
Definition str_nat (n : nat) : string := str_Z (Z.of_nat n).

(** A Python list cell assignment [l[i] = v]: [IndexError] out of range. *)
Fixpoint list_set {A} (l : list A) (i : nat) (v : A) : option (list A) :=
  match l, i with
  | [], _ => None
  | _ :: t, O => Some (v :: t)
  | h :: t, S j => option_map (cons h) (list_set t j v)
  end.

(* ===================================================================== *)
(** * inventory/services/structures.py *)
(* ===================================================================== *)

Module ManualStack.
Section Stack.
Variable T : Type.

(** [__slots__ = ("_data", "_top")]; a slot holds a value or [None]. *)
Record t := mk { _data : list (option T); _top : nat }.

Definition init (capacity : Z) : t :=
  let capacity := if capacity <=? 0 then 16 else capacity in
  mk (repeat None (Z.to_nat capacity)) 0.

Definition _grow (s : t) : t :=
  let old := _data s in
  let new_cap := Nat.max (2 * length old) 16 in
  mk (old ++ repeat None (new_cap - length old)) (_top s).

Definition push (s : t) (value : T) : Result t :=
  let s := if Nat.eqb (_top s) (length (_data s)) then _grow s else s in
  match list_set (_data s) (_top s) (Some value) with
  | Some d => Ok (mk d (S (_top s)))
  | None => Raise (mkExn IndexError "list assignment index out of range")
  end.

(** [pop] returns the stored cell, which may be [None], and the stack. *)
Definition pop (s : t) : Result (option T * t) :=
  match _top s with
  | O => Raise (mkExn IndexError "pop from empty stack")
  | S top' =>
      match nth_error (_data s) top' with
      | None => Raise (mkExn IndexError "list index out of range")
      | Some value =>
          match list_set (_data s) top' None with
          | Some d => Ok (value, mk d top')
          | None => Raise (mkExn IndexError "list assignment index out of range")
          end
      end
  end.

Definition peek (s : t) : Result (option T) :=
  match _top s with
  | O => Raise (mkExn IndexError "peek from empty stack")
  | S top' =>
      match nth_error (_data s) top' with
      | None => Raise (mkExn IndexError "list index out of range")
      | Some value => Ok value
      end
  end.

Definition is_empty (s : t) : bool := Nat.eqb (_top s) 0.
Definition size (s : t) : nat := _top s.

(** [for v in values: stack.push(v)] *)
Fixpoint push_all (s : t) (values : list T) : Result t :=
  match values with
  | [] => Ok s
  | v :: rest =>
      match push s v with
      | Ok s' => push_all s' rest
      | Raise e => Raise e
      end
  end.

(** [while not stack.is_empty(): out.append(stack.pop())] *)
Equations? pop_until_empty (s : t) : Result (list (option T))
  by wf (_top s) lt :=
pop_until_empty s with inspect (is_empty s) := {
  | exist _ true He => Ok []
  | exist _ false He with inspect (pop s) := {
      | exist _ (Raise e) Hp => Raise e
      | exist _ (Ok (value, s')) Hp with pop_until_empty s' := {
          | Ok rest => Ok (value :: rest)
          | Raise e => Raise e } } }.
Proof.
  clear pop_until_empty. revert Hp. unfold pop.
  destruct (_top s) as [|n]; [discriminate|].
  destruct (nth_error _ _); [|discriminate].
  destruct (list_set _ _ _); [|discriminate].
  intros H. inversion H. simpl. lia.
Qed.

End Stack.
End ManualStack.

Module ManualQueue.
Section Queue.
Variable T : Type.

(** [__slots__ = ("_data", "_head", "_tail", "_size")] *)
Record t := mk {
  _data : list (option T); _head : nat; _tail : nat; _size : nat }.

Definition init (capacity : Z) : t :=
  let capacity := if capacity <=? 0 then 16 else capacity in
  mk (repeat None (Z.to_nat capacity)) 0 0 0.

(** The copy loop of [_grow]: [for i in range(size): data[i] = old[idx];
    idx = (idx + 1) % len(old)], started at [i] with [n] rounds left. *)
Fixpoint _grow_copy (old data : list (option T)) (idx i n : nat)
  : Result (list (option T)) :=
  match n with
  | O => Ok data
  | S n' =>
      match nth_error old idx with
      | None => Raise (mkExn IndexError "list index out of range")
      | Some cell =>
          match list_set data i cell with
          | None =>
              Raise (mkExn IndexError "list assignment index out of range")
          | Some data' =>
              _grow_copy old data' (Nat.modulo (idx + 1) (length old))
                         (S i) n'
          end
      end
  end.

Definition _grow (q : t) : Result t :=
  let old := _data q in
  let new_cap := Nat.max (2 * length old) 16 in
  match _grow_copy old (repeat None new_cap) (_head q) 0 (_size q) with
  | Ok data => Ok (mk data 0 (_size q) (_size q))
  | Raise e => Raise e
  end.

Definition enqueue (q : t) (value : T) : Result t :=
  match (if Nat.eqb (_size q) (length (_data q)) then _grow q else Ok q) with
  | Raise e => Raise e
  | Ok q =>
      match list_set (_data q) (_tail q) (Some value) with
      | None => Raise (mkExn IndexError "list assignment index out of range")
      | Some d =>
          Ok (mk d (_head q)
                 (Nat.modulo (_tail q + 1) (length d))
                 (_size q + 1))
      end
  end.

Definition dequeue (q : t) : Result (option T * t) :=
  match _size q with
  | O => Raise (mkExn IndexError "dequeue from empty queue")
  | S size' =>
      match nth_error (_data q) (_head q) with
      | None => Raise (mkExn IndexError "list index out of range")
      | Some value =>
          match list_set (_data q) (_head q) None with
          | None =>
              Raise (mkExn IndexError "list assignment index out of range")
          | Some d =>
              Ok (value,
                  mk d (Nat.modulo (_head q + 1) (length d)) (_tail q) size')
          end
      end
  end.

Definition peek (q : t) : Result (option T) :=
  match _size q with
  | O => Raise (mkExn IndexError "peek from empty queue")
  | S _ =>
      match nth_error (_data q) (_head q) with
      | None => Raise (mkExn IndexError "list index out of range")
      | Some value => Ok value
      end
  end.

Definition is_empty (q : t) : bool := Nat.eqb (_size q) 0.
Definition size (q : t) : nat := _size q.

(** [for v in values: q.enqueue(v)] *)
Fixpoint enqueue_all (q : t) (values : list T) : Result t :=
  match values with
  | [] => Ok q
  | v :: rest =>
      match enqueue q v with
      | Ok q' => enqueue_all q' rest
      | Raise e => Raise e
      end
  end.

End Queue.
End ManualQueue.

(* ===================================================================== *)
(** * JSON payloads and Python values *)
(* ===================================================================== *)

(** The content of a [JSONField].  [JDec q] is a decimal number or numeric
    string, given in thousandths; [JInt n] is an integer. *)
#[local] Unset Elimination Schemes.
Inductive json :=
| JNull
| JInt (n : Z)
| JDec (q : Z)
| JStr (s : string)
| JList (l : list json)
| JDict (d : list (string * json)).
#[local] Set Elimination Schemes.

(** Values passed as keyword arguments or read from instance attributes.
    A related model instance is passed as [PInt] of its primary key. *)
Inductive pyval :=
| PNone
| PInt (n : Z)
| PDec (q : Z)
| PStr (s : string)
| PJson (j : json).

Fixpoint assoc {A} (k : string) (l : list (string * A)) : option A :=
  match l with
  | [] => None
  | (k', v) :: rest => if String.eqb k k' then Some v else assoc k rest
  end.

(** The first keyword of [kwargs] that the callee does not accept. *)
Fixpoint unexpected_kwarg {A} (allowed : list string)
         (kwargs : list (string * A)) : option string :=
  match kwargs with
  | [] => None
  | (k, _) :: rest =>
      if existsb (String.eqb k) allowed then unexpected_kwarg allowed rest
      else Some k
  end.

(** [d.get(key, default)] on a payload; a payload that is not a dict has
    no [get]. *)
Definition json_get (d : json) (key : string) (default : json) : Result json :=
  match d with
  | JDict kv => Ok (match assoc key kv with Some v => v | None => default end)
  | _ => Raise (mkExn AttributeError "object has no attribute 'get'")
  end.

(** [Decimal(str(x))] *)
Definition Decimal_of_json (x : json) : Result Z :=
  match x with
  | JInt n => Ok (n * 1000)
  | JDec q => Ok q
  | _ => Raise (mkExn InvalidOperation "[<class 'decimal.ConversionSyntax'>]")
  end.

(** A payload value used as [pk=...] in a query: [None] matches no row. *)
Definition pk_of_json (x : json) : Result (option Z) :=
  match x with
  | JNull => Ok None
  | JInt n => Ok (Some n)
  | _ => Raise (mkExn TypeError "Field 'id' expected a number")
  end.

(** Iterating a payload value with [for x in v]. *)
Definition json_iter (v : json) : Result (list json) :=
  match v with
  | JList l => Ok l
  | JDict kv => Ok (map (fun p => JStr (fst p)) kv)
  | JStr s => Ok (map (fun c => JStr (String c "")) (list_ascii_of_string s))
  | _ => Raise (mkExn TypeError "object is not iterable")
  end.

(* ===================================================================== *)
(** * inventory/models.py: rows, tables and the database state *)
(* ===================================================================== *)

Module Item.
Record t := mk { id : Z; sku : string }.
End Item.

Module Batch.
Definition STATUS_AVAILABLE := "available".
Definition STATUS_RESERVED := "reserved".
Definition STATUS_EXPIRED := "expired".

Record t := mk {
  id : Z;
  item : Z;
  lot_no : string;
  received_qty : Z;
  available_qty : Z;
  expiry_date : option Z;
  status : string }.

Definition with_available_qty (q : Z) (b : t) : t :=
  mk (id b) (item b) (lot_no b) (received_qty b) q (expiry_date b) (status b).
End Batch.

Module Order.
Definition STATUS_NEW := "new".
Definition STATUS_ALLOCATED := "allocated".
Definition STATUS_PICKED := "picked".
Definition STATUS_SHIPPED := "shipped".
Definition STATUS_DELIVERED := "delivered".
Definition STATUS_CANCELLED := "cancelled".

Record t := mk { id : Z; order_no : string; status : string }.

Definition with_status (s : string) (o : t) : t := mk (id o) (order_no o) s.
Definition with_order_no (n : string) (o : t) : t := mk (id o) n (status o).

(** Attributes defined on the class body of [Order] in models.py. *)
Definition class_attrs : list (string * string) :=
  [ ("STATUS_NEW", STATUS_NEW); ("STATUS_ALLOCATED", STATUS_ALLOCATED);
    ("STATUS_PICKED", STATUS_PICKED); ("STATUS_SHIPPED", STATUS_SHIPPED);
    ("STATUS_DELIVERED", STATUS_DELIVERED);
    ("STATUS_CANCELLED", STATUS_CANCELLED) ].

(** [Order.<name>] for a class attribute. *)
Definition class_getattr (name : string) : Result string :=
  match assoc name class_attrs with
  | Some v => Ok v
  | None =>
      Raise (mkExn AttributeError
               ("type object 'Order' has no attribute '" ++ name ++ "'"))
  end.
End Order.

Module OrderItem.
Record t := mk {
  id : Z; order : Z; item : Z; qty_requested : Z; qty_allocated : Z }.

Definition with_qty_allocated (q : Z) (oi : t) : t :=
  mk (id oi) (order oi) (item oi) (qty_requested oi) q.

(** An instance loaded through [order.items.select_related("item")]: the
    row with its joined [item] and the cached parent [order]. *)
Record inst := mkInst { row : t; item_obj : Item.t; order_obj : Order.t }.
End OrderItem.

Module Allocation.
Record t := mk { id : Z; order_item : Z; batch : Z; qty_allocated : Z }.
End Allocation.

Module Shipment.
Record t := mk { id : Z; order : Z }.
End Shipment.

Module Return.
Definition STATUS_PENDING := "pending".
Record t := mk { id : Z; status : string }.
End Return.

Module TransactionLog.
Definition TYPE_RESERVE := "reserve".
Definition TYPE_RELEASE := "release".
Definition TYPE_DEALLOCATE := "deallocate".
Definition TYPE_SHIP := "ship".
Definition TYPE_ADJUST := "adjust".

(** A stored row. *)
Record t := mk {
  id : Z;
  user : option Z;
  type : string;
  qty : Z;
  item : option Z;
  batch : option Z;
  order : option Z;
  shipment : option Z;
  meta : json }.

(** An in-memory instance: [pk] is [None] until the first save, and
    [qty] is [None] when the constructor was not given one. *)
Record inst := mkInst {
  pk : option Z;
  i_user : option Z;
  i_type : string;
  i_qty : option Z;
  i_item : option Z;
  i_batch : option Z;
  i_order : option Z;
  i_shipment : option Z;
  i_meta : json }.

Definition to_row (k : Z) (q : Z) (i : inst) : t :=
  mk k (i_user i) (i_type i) q (i_item i) (i_batch i) (i_order i)
     (i_shipment i) (i_meta i).

Definition of_row (r : t) : inst :=
  mkInst (Some (id r)) (user r) (type r) (Some (qty r)) (item r) (batch r)
         (order r) (shipment r) (meta r).

(** Keyword names accepted by the model constructor: the fields of the
    class, their [_id] column names and [pk]. *)
Definition init_kwargs : list string :=
  [ "id"; "pk"; "user"; "user_id"; "type"; "qty"; "item"; "item_id";
    "batch"; "batch_id"; "order"; "order_id"; "shipment"; "shipment_id";
    "timestamp"; "meta" ].
End TransactionLog.

Module Notification.
Definition LEVEL_INFO := "info".
Definition LEVEL_WARNING := "warning".
Definition LEVEL_ERROR := "error".

Record t := mk {
  id : Z; user : option Z; message : string; level : string;
  is_read : bool }.
End Notification.

(** Rows of [UndoStack] and of [RedoStack], which have the same fields. *)
Module StackRow.
Record t := mk {
  id : Z; op_name : string; metadata : json; created_at : Z }.

(** The unsaved copy returned by [pop]. *)
Record inst := mkInst {
  pk : option Z; i_op_name : string; i_metadata : json; i_created_at : Z }.

(** [inst.<name>]: the model defines [op_name], [metadata], [created_at]
    and the primary key, and no other data attribute. *)
Definition getattr (cls : string) (i : inst) (name : string) : Result pyval :=
  if String.eqb name "op_name" then Ok (PStr (i_op_name i))
  else if String.eqb name "metadata" then Ok (PJson (i_metadata i))
  else if String.eqb name "created_at" then Ok (PInt (i_created_at i))
  else if String.eqb name "id" || String.eqb name "pk" then
    Ok (match pk i with Some k => PInt k | None => PNone end)
  else Raise (mkExn AttributeError
                ("'" ++ cls ++ "' object has no attribute '" ++ name ++ "'")).
End StackRow.

(** A table: its rows in insertion order and the next automatic key. *)
Record Table (R : Type) := mkTable { rows : list R; next_id : Z }.

Definition insert_row {R} (mkrow : Z -> R) (tb : Table R) : Table R :=
  mkTable (rows tb ++ [mkrow (next_id tb)]) (next_id tb + 1).

Definition map_rows {R} (f : R -> R) (tb : Table R) : Table R :=
  mkTable (map f (rows tb)) (next_id tb).

Definition filter_rows {R} (keep : R -> bool) (tb : Table R) : Table R :=
  mkTable (filter keep (rows tb)) (next_id tb).

Record DB := mkDB {
  items : Table Item.t;
  batches : Table Batch.t;
  orders : Table Order.t;
  order_items : Table OrderItem.t;
  allocations : Table Allocation.t;
  shipments : Table Shipment.t;
  returns : Table Return.t;
  transaction_logs : Table TransactionLog.t;
  notifications : Table Notification.t;
  undo_stack : Table StackRow.t;
  redo_stack : Table StackRow.t }.

Definition set_batches (f : Table Batch.t -> Table Batch.t) (db : DB) : DB :=
  mkDB (items db) (f (batches db)) (orders db) (order_items db)
       (allocations db) (shipments db) (returns db) (transaction_logs db)
       (notifications db) (undo_stack db) (redo_stack db).
Definition set_orders (f : Table Order.t -> Table Order.t) (db : DB) : DB :=
  mkDB (items db) (batches db) (f (orders db)) (order_items db)
       (allocations db) (shipments db) (returns db) (transaction_logs db)
       (notifications db) (undo_stack db) (redo_stack db).
Definition set_order_items
  (f : Table OrderItem.t -> Table OrderItem.t) (db : DB) : DB :=
  mkDB (items db) (batches db) (orders db) (f (order_items db))
       (allocations db) (shipments db) (returns db) (transaction_logs db)
       (notifications db) (undo_stack db) (redo_stack db).
Definition set_allocations
  (f : Table Allocation.t -> Table Allocation.t) (db : DB) : DB :=
  mkDB (items db) (batches db) (orders db) (order_items db)
       (f (allocations db)) (shipments db) (returns db) (transaction_logs db)
       (notifications db) (undo_stack db) (redo_stack db).
Definition set_shipments
  (f : Table Shipment.t -> Table Shipment.t) (db : DB) : DB :=
  mkDB (items db) (batches db) (orders db) (order_items db)
       (allocations db) (f (shipments db)) (returns db) (transaction_logs db)
       (notifications db) (undo_stack db) (redo_stack db).
Definition set_returns (f : Table Return.t -> Table Return.t) (db : DB) : DB :=
  mkDB (items db) (batches db) (orders db) (order_items db)
       (allocations db) (shipments db) (f (returns db)) (transaction_logs db)
       (notifications db) (undo_stack db) (redo_stack db).
Definition set_transaction_logs
  (f : Table TransactionLog.t -> Table TransactionLog.t) (db : DB) : DB :=
  mkDB (items db) (batches db) (orders db) (order_items db)
       (allocations db) (shipments db) (returns db) (f (transaction_logs db))
       (notifications db) (undo_stack db) (redo_stack db).
Definition set_notifications
  (f : Table Notification.t -> Table Notification.t) (db : DB) : DB :=
  mkDB (items db) (batches db) (orders db) (order_items db)
       (allocations db) (shipments db) (returns db) (transaction_logs db)
       (f (notifications db)) (undo_stack db) (redo_stack db).
Definition set_undo_stack
  (f : Table StackRow.t -> Table StackRow.t) (db : DB) : DB :=
  mkDB (items db) (batches db) (orders db) (order_items db)
       (allocations db) (shipments db) (returns db) (transaction_logs db)
       (notifications db) (f (undo_stack db)) (redo_stack db).
Definition set_redo_stack
  (f : Table StackRow.t -> Table StackRow.t) (db : DB) : DB :=
  mkDB (items db) (batches db) (orders db) (order_items db)
       (allocations db) (shipments db) (returns db) (transaction_logs db)
       (notifications db) (undo_stack db) (f (redo_stack db)).

(** What the code reads from outside the database: the configured database
    engine (settings.py: sqlite3 unless DATABASE_URL selects another), the
    current date and time, the order-number generator of [Order.save]
    (ORD-YYYYMMDD-NNNN), which only runs for an empty [order_no], and
    Python's [str()] of a payload value, which only appears in messages. *)
Inductive Engine := sqlite3 | postgresql | mysql.

Record Env := mkEnv {
  engine : Engine;
  today : Z;
  now : Z;
  generate_order_no : list Order.t -> string;
  str_json : json -> string }.

(* ===================================================================== *)
(** * Database computations: state, exceptions, transactions *)
(* ===================================================================== *)

Definition M (A : Type) : Type := DB -> Result A * DB.

Definition ret {A} (a : A) : M A := fun db => (Ok a, db).
Definition raise {A} (e : Exn) : M A := fun db => (Raise e, db).
Definition bind {A B} (m : M A) (k : A -> M B) : M B :=
  fun db =>
    match m db with
    | (Ok a, db') => k a db'
    | (Raise e, db') => (Raise e, db')
    end.
Definition lift {A} (r : Result A) : M A := fun db => (r, db).
Definition read {A} (f : DB -> A) : M A := fun db => (Ok (f db), db).
Definition write (f : DB -> DB) : M unit := fun db => (Ok tt, f db).

Notation "x <- m ;; k" := (bind m (fun x => k))
  (at level 61, m at next level, right associativity).
Notation "m ;;; k" := (bind m (fun _ => k))
  (at level 61, right associativity).

(** [with transaction.atomic(): body]: an exception leaving the block
    undoes every write of the block and propagates.  The automatic keys
    handed out inside the block are given back too, as on SQLite, where the
    key counter is itself a table. *)
Definition atomic {A} (body : M A) : M A :=
  fun db =>
    match body db with
    | (Ok a, db') => (Ok a, db')
    | (Raise e, _) => (Raise e, db)
    end.

(** [try: body / except Exception as e: handler(e)] *)
Definition try_except {A} (body : M A) (handler : Exn -> M A) : M A :=
  fun db =>
    match body db with
    | (Ok a, db') => (Ok a, db')
    | (Raise e, db') => handler e db'
    end.

(** [for x in xs: body(x)] *)
Fixpoint for_each {A} (xs : list A) (body : A -> M unit) : M unit :=
  match xs with
  | [] => ret tt
  | x :: rest => body x ;;; for_each rest body
  end.

(* ===================================================================== *)
(** * Queries and model methods of inventory/models.py *)
(* ===================================================================== *)

Definition pk_is (id : Z) (pk : option Z) : bool :=
  match pk with Some k => Z.eqb id k | None => false end.

Definition find_pk {R} (id_of : R -> Z) (pk : option Z) (l : list R)
  : option R :=
  find (fun r => pk_is (id_of r) pk) l.

(** [Model.objects.get(pk=pk)] *)
Definition objects_get {R} (name : string) (tbl : DB -> Table R)
           (id_of : R -> Z) (pk : option Z) : M R :=
  fun db =>
    match find_pk id_of pk (rows (tbl db)) with
    | Some r => (Ok r, db)
    | None =>
        (Raise (mkExn DoesNotExist
                  (name ++ " matching query does not exist.")), db)
    end.

Definition Item_get := objects_get "Item" items Item.id.
Definition Batch_get := objects_get "Batch" batches Batch.id.
Definition Order_get := objects_get "Order" orders Order.id.
Definition OrderItem_get := objects_get "OrderItem" order_items OrderItem.id.
Definition Return_get := objects_get "Return" returns Return.id.

(** The check and unique constraints declared in [Batch.Meta]. *)
Definition batch_check_ok (b : Batch.t) : bool := 0 <=? Batch.available_qty b.

Definition batch_unique_ok (b : Batch.t) (l : list Batch.t) : bool :=
  forallb (fun b' =>
             Z.eqb (Batch.id b') (Batch.id b)
             || negb (Z.eqb (Batch.item b') (Batch.item b)
                      && String.eqb (Batch.lot_no b') (Batch.lot_no b))) l.

(** [Batch.objects.filter(pk=pk).update(available_qty=F("available_qty") - qty)]
    The difference is computed by the database.  It is exact here, as for
    a NUMERIC column on PostgreSQL; on the default sqlite3 engine the
    column is REAL and the difference is a floating-point one, so that the
    check constraint can also refuse an update whose exact result is 0. *)
Definition Batch_update_available_minus (pk : Z) (qty : Z) : M unit :=
  fun db =>
    let upd b :=
      if Z.eqb (Batch.id b) pk
      then Batch.with_available_qty (Batch.available_qty b - qty) b else b in
    let tb := map_rows upd (batches db) in
    if forallb (fun b => negb (Z.eqb (Batch.id b) pk) || batch_check_ok b)
               (rows tb)
    then (Ok tt, set_batches (fun _ => tb) db)
    else (Raise (mkExn IntegrityError
                   "CHECK constraint failed: batch_available_nonneg"), db).

(** [batch.save()]: write every field of the instance to its row, or
    insert the row when the key is not stored yet. *)
Definition Batch_save (b : Batch.t) : M unit :=
  fun db =>
    if negb (batch_check_ok b) then
      (Raise (mkExn IntegrityError
                "CHECK constraint failed: batch_available_nonneg"), db)
    else if negb (batch_unique_ok b (rows (batches db))) then
      (Raise (mkExn IntegrityError "UNIQUE constraint failed: uniq_item_lot"),
       db)
    else
      match find_pk Batch.id (Some (Batch.id b)) (rows (batches db)) with
      | Some _ =>
          (Ok tt,
           set_batches
             (map_rows (fun b' => if Z.eqb (Batch.id b') (Batch.id b)
                                  then b else b')) db)
      | None =>
          (Ok tt,
           set_batches
             (fun tb => mkTable (rows tb ++ [b])
                                (Z.max (next_id tb) (Batch.id b + 1))) db)
      end.

(** [Batch.objects.create(...)] with an automatic key. *)
Definition Batch_create (item : Z) (lot_no : string)
           (received_qty available_qty : Z) (expiry_date : option Z)
           (status : string) : M Batch.t :=
  fun db =>
    let b := Batch.mk (next_id (batches db)) item lot_no received_qty
                      available_qty expiry_date status in
    if negb (batch_check_ok b) then
      (Raise (mkExn IntegrityError
                "CHECK constraint failed: batch_available_nonneg"), db)
    else if negb (batch_unique_ok b (rows (batches db))) then
      (Raise (mkExn IntegrityError "UNIQUE constraint failed: uniq_item_lot"),
       db)
    else (Ok b, set_batches (insert_row (fun _ => b)) db).

(** [batch.allocations.exists()] *)
Definition Batch_allocations_exists (b : Batch.t) : M bool :=
  read (fun db =>
          existsb (fun a => Z.eqb (Allocation.batch a) (Batch.id b))
                  (rows (allocations db))).

(** [batch.delete()]: [Allocation.batch] is [on_delete=PROTECT],
    [TransactionLog.batch] is [on_delete=SET_NULL]. *)
Definition Batch_delete (b : Batch.t) : M unit :=
  fun db =>
    if existsb (fun a => Z.eqb (Allocation.batch a) (Batch.id b))
               (rows (allocations db))
    then (Raise (mkExn ProtectedError
                   "Cannot delete some instances of model 'Batch'"), db)
    else
      let unlink (r : TransactionLog.t) :=
        if pk_is (Batch.id b) (TransactionLog.batch r)
        then TransactionLog.mk (TransactionLog.id r) (TransactionLog.user r)
               (TransactionLog.type r) (TransactionLog.qty r)
               (TransactionLog.item r) None (TransactionLog.order r)
               (TransactionLog.shipment r) (TransactionLog.meta r)
        else r in
      (Ok tt,
       set_transaction_logs (map_rows unlink)
         (set_batches
            (filter_rows (fun b' => negb (Z.eqb (Batch.id b') (Batch.id b))))
            db)).

(** ** Batch.reserve (models.py lines 128-149) *)
Definition Batch_reserve (self : Batch.t) (qty : Z) : M Z :=
  if qty <=? 0 then
    raise (mkExn ValueError "Reserve quantity must be > 0")
  else
    atomic (
      locked <- Batch_get (Some (Batch.id self)) ;;
      if negb (String.eqb (Batch.status locked) Batch.STATUS_AVAILABLE) then
        raise (mkExn ValueError "Batch is not in AVAILABLE status")
      else if Batch.available_qty locked <? qty then
        raise (mkExn ValueError "Insufficient quantity in batch")
      else
        Batch_update_available_minus (Batch.id locked) qty ;;;
        refreshed <- Batch_get (Some (Batch.id locked)) ;;
        ret (Batch.available_qty refreshed)).

(** [Allocation.objects.create(order_item=.., batch=.., qty_allocated=..)] *)
Definition Allocation_create (order_item batch qty : Z) : M Allocation.t :=
  fun db =>
    let a := Allocation.mk (next_id (allocations db)) order_item batch qty in
    (Ok a, set_allocations (insert_row (fun _ => a)) db).

(** [Allocation.objects.filter(pk=pk).delete()] and [allocation.delete()] *)
Definition Allocation_delete (pk : option Z) : M unit :=
  write (set_allocations
           (filter_rows (fun a => negb (pk_is (Allocation.id a) pk)))).

(** The check constraints declared in [OrderItem.Meta]. *)
Definition order_item_check_ok (oi : OrderItem.t) : bool :=
  (0 <? OrderItem.qty_requested oi) && (0 <=? OrderItem.qty_allocated oi).

(** [OrderItem.objects.filter(pk=pk).update(qty_allocated=F("qty_allocated") + qty)] *)
Definition OrderItem_update_allocated_plus (pk : Z) (qty : Z) : M unit :=
  fun db =>
    let upd oi :=
      if Z.eqb (OrderItem.id oi) pk
      then OrderItem.with_qty_allocated (OrderItem.qty_allocated oi + qty) oi
      else oi in
    let tb := map_rows upd (order_items db) in
    if forallb
         (fun oi => negb (Z.eqb (OrderItem.id oi) pk) || order_item_check_ok oi)
         (rows tb)
    then (Ok tt, set_order_items (fun _ => tb) db)
    else (Raise (mkExn IntegrityError "CHECK constraint failed"), db).

(** [order_item.save()] on a stored row. *)
Definition OrderItem_save (oi : OrderItem.t) : M unit :=
  fun db =>
    if negb (order_item_check_ok oi) then
      (Raise (mkExn IntegrityError "CHECK constraint failed"), db)
    else
      match find_pk OrderItem.id (Some (OrderItem.id oi))
                    (rows (order_items db)) with
      | Some _ =>
          (Ok tt,
           set_order_items
             (map_rows (fun r => if Z.eqb (OrderItem.id r) (OrderItem.id oi)
                                 then oi else r)) db)
      | None =>
          (Ok tt,
           set_order_items
             (fun tb => mkTable (rows tb ++ [oi])
                                (Z.max (next_id tb) (OrderItem.id oi + 1))) db)
      end.

(** The first lines of [Order.save]: an empty [order_no] is generated. *)
Definition Order_auto_order_no (env : Env) (o : Order.t) : M Order.t :=
  if String.eqb (Order.order_no o) "" then
    no <- read (fun db => generate_order_no env (rows (orders db))) ;;
    ret (Order.with_order_no no o)
  else ret o.

(** [order.save(update_fields=["status"])]: only the status column is
    written; the instance is returned as the method leaves it. *)
Definition Order_save_status (env : Env) (o : Order.t) : M Order.t :=
  o <- Order_auto_order_no env o ;;
  found <- read (fun db => find_pk Order.id (Some (Order.id o))
                                   (rows (orders db))) ;;
  match found with
  | None =>
      raise (mkExn DatabaseError
               "Save with update_fields did not affect any rows.")
  | Some _ =>
      write (set_orders
               (map_rows (fun r => if Z.eqb (Order.id r) (Order.id o)
                                   then Order.with_status (Order.status o) r
                                   else r))) ;;;
      ret o
  end.

(** [order.save()]: every field is written; [order_no] is unique. *)
Definition Order_save (env : Env) (o : Order.t) : M Order.t :=
  o <- Order_auto_order_no env o ;;
  clash <- read (fun db =>
                   existsb (fun r => negb (Z.eqb (Order.id r) (Order.id o))
                                     && String.eqb (Order.order_no r)
                                                   (Order.order_no o))
                           (rows (orders db))) ;;
  if (clash : bool) then
    raise (mkExn IntegrityError "UNIQUE constraint failed: order_no")
  else
    found <- read (fun db => find_pk Order.id (Some (Order.id o))
                                     (rows (orders db))) ;;
    match found with
    | Some _ =>
        write (set_orders
                 (map_rows (fun r => if Z.eqb (Order.id r) (Order.id o)
                                     then o else r))) ;;;
        ret o
    | None =>
        write (set_orders
                 (fun tb => mkTable (rows tb ++ [o])
                                    (Z.max (next_id tb) (Order.id o + 1)))) ;;;
        ret o
    end.

(** [Notification.objects.create(user=.., message=.., level=..)] *)
Definition Notification_create (user : option Z) (message level : string)
  : M Notification.t :=
  fun db =>
    let n := Notification.mk (next_id (notifications db)) user message level
                             false in
    (Ok n, set_notifications (insert_row (fun _ => n)) db).

(** ** TransactionLog (models.py lines 390-442) *)

Definition as_fk (v : option pyval) : option Z :=
  match v with Some (PInt n) => Some n | _ => None end.
Definition as_decimal (v : option pyval) : option Z :=
  match v with
  | Some (PDec q) => Some q
  | Some (PInt n) => Some (n * 1000)
  | _ => None
  end.
Definition as_str (v : option pyval) : string :=
  match v with Some (PStr s) => s | _ => "" end.
Definition as_json (v : option pyval) : json :=
  match v with Some (PJson j) => j | _ => JDict [] end.

(** Python truthiness of a primary key: [None] and [0] are false. *)
Definition pk_truthy (pk : option Z) : bool :=
  match pk with Some k => negb (Z.eqb k 0) | None => false end.

(** [models.Model.save] for a TransactionLog instance: an instance without
    a key is inserted under the next key; one with a key is updated in
    place, or inserted under that key when no such row is stored.  Of the
    checks of the database only NOT NULL on [qty] is modelled; what else
    the database requires of a row is [log_row_accepted] below. *)
Definition TransactionLog_super_save (self : TransactionLog.inst)
  : M TransactionLog.inst :=
  fun db =>
    match TransactionLog.i_qty self with
    | None => (Raise (mkExn IntegrityError "NOT NULL constraint failed: qty"), db)
    | Some q =>
        match TransactionLog.pk self with
        | None =>
            let k := next_id (transaction_logs db) in
            (Ok (TransactionLog.of_row (TransactionLog.to_row k q self)),
             set_transaction_logs
               (insert_row (fun k => TransactionLog.to_row k q self)) db)
        | Some k =>
            let r := TransactionLog.to_row k q self in
            match find_pk TransactionLog.id (Some k)
                          (rows (transaction_logs db)) with
            | Some _ =>
                (Ok self,
                 set_transaction_logs
                   (map_rows (fun r' => if Z.eqb (TransactionLog.id r') k
                                        then r else r')) db)
            | None =>
                (Ok self,
                 set_transaction_logs
                   (fun tb => mkTable (rows tb ++ [r])
                                      (Z.max (next_id tb) (k + 1))) db)
            end
        end
    end.

(** [TransactionLog.save] (lines 439-442) *)
Definition TransactionLog_save (self : TransactionLog.inst)
  : M TransactionLog.inst :=
  if pk_truthy (TransactionLog.pk self) then
    raise (mkExn ValueError
             "TransactionLog records are immutable and cannot be updated")
  else TransactionLog_super_save self.

(** [TransactionLog.objects.create] with keyword arguments: the constructor
    rejects a
    keyword that is not a field of the model, then the instance is saved. *)
Definition TransactionLog_objects_create (kwargs : list (string * pyval))
  : M TransactionLog.inst :=
  match unexpected_kwarg TransactionLog.init_kwargs kwargs with
  | Some k =>
      raise (mkExn TypeError
               ("TransactionLog() got unexpected keyword arguments: '"
                ++ k ++ "'"))
  | None =>
      TransactionLog_save
        (TransactionLog.mkInst
           (as_fk (assoc "pk" kwargs))
           (as_fk (assoc "user" kwargs))
           (as_str (assoc "type" kwargs))
           (as_decimal (assoc "qty" kwargs))
           (as_fk (assoc "item" kwargs))
           (as_fk (assoc "batch" kwargs))
           (as_fk (assoc "order" kwargs))
           (as_fk (assoc "shipment" kwargs))
           (as_json (assoc "meta" kwargs)))
  end.

(** ** UndoStack and RedoStack (models.py lines 483-545) *)

Definition json_truthy (j : json) : bool :=
  match j with
  | JNull => false
  | JInt n => negb (Z.eqb n 0)
  | JDec q => negb (Z.eqb q 0)
  | JStr s => negb (String.eqb s "")
  | JList l => match l with [] => false | _ => true end
  | JDict d => match d with [] => false | _ => true end
  end.

Section StackModel.
(** The two models differ only in their table. *)
Variable cls : string.
Variable tbl : DB -> Table StackRow.t.
Variable set_tbl : (Table StackRow.t -> Table StackRow.t) -> DB -> DB.

(** [push(cls, op_name, metadata=None)], called with keyword arguments. *)
Definition Stack_push (env : Env) (kwargs : list (string * pyval))
  : M StackRow.t :=
  match unexpected_kwarg ["op_name"; "metadata"] kwargs with
  | Some k =>
      raise (mkExn TypeError
               (cls ++ ".push() got an unexpected keyword argument '"
                ++ k ++ "'"))
  | None =>
      match assoc "op_name" kwargs with
      | None =>
          raise (mkExn TypeError
                   (cls ++ ".push() missing 1 required positional "
                    ++ "argument: 'op_name'"))
      | Some op =>
          let metadata :=
            match assoc "metadata" kwargs with
            | Some (PJson j) => if json_truthy j then j else JDict []
            | _ => JDict []
            end in
          fun db =>
            let r := StackRow.mk (next_id (tbl db)) (as_str (Some op))
                                 metadata (now env) in
            (Ok r, set_tbl (insert_row (fun _ => r)) db)
      end
  end.

(** [cls.objects.select_for_update().order_by("-id").first()] *)
Definition Stack_top (l : list StackRow.t) : option StackRow.t :=
  fold_left
    (fun best r =>
       match best with
       | None => Some r
       | Some b => if StackRow.id b <? StackRow.id r then Some r else Some b
       end) l None.

(** [pop(cls)]: delete the newest row and return an unsaved copy. *)
Definition Stack_pop : M (option StackRow.inst) :=
  atomic (
    top <- read (fun db => Stack_top (rows (tbl db))) ;;
    match top with
    | None => ret None
    | Some top =>
        write (set_tbl
                 (filter_rows
                    (fun r => negb (Z.eqb (StackRow.id r)
                                          (StackRow.id top))))) ;;;
        ret (Some (StackRow.mkInst None (StackRow.op_name top)
                                   (StackRow.metadata top)
                                   (StackRow.created_at top)))
    end).
End StackModel.

Definition UndoStack_push := Stack_push "UndoStack" undo_stack set_undo_stack.
Definition UndoStack_pop := Stack_pop undo_stack set_undo_stack.
Definition RedoStack_push := Stack_push "RedoStack" redo_stack set_redo_stack.
Definition RedoStack_pop := Stack_pop redo_stack set_redo_stack.

(* ===================================================================== *)
(** * inventory/services/allocation.py *)
(* ===================================================================== *)

(** The per-line dictionary returned by [_allocate_item_with_stack]; the
    early return for a satisfied line has no ["qty_remaining"] key. *)
Record LineResult := mkLine {
  line_order_item_id : Z;
  line_item_sku : string;
  line_status : string;
  line_qty_requested : Z;
  line_qty_allocated : Z;
  line_qty_remaining : option Z;
  line_allocations : list (string * Z) }.

(** The dictionary returned by [allocate_order]. *)
Record Report := mkReport {
  rep_order_id : Z;
  rep_order_no : string;
  rep_status : string;
  rep_items_allocated : nat;
  rep_items_partial : nat;
  rep_items_failed : nat;
  rep_details : list LineResult }.

(** Where [ORDER BY expiry_date ASC] puts rows without an expiry date:
    SQLite and MySQL sort NULL before every value, PostgreSQL after. *)
Definition nulls_first (e : Engine) : bool :=
  match e with
  | sqlite3 | mysql => true
  | postgresql => false
  end.

Definition expiry_compare (e : Engine) (a b : option Z) : comparison :=
  match a, b with
  | None, None => Eq
  | None, Some _ => if nulls_first e then Lt else Gt
  | Some _, None => if nulls_first e then Gt else Lt
  | Some x, Some y => Z.compare x y
  end.

(** The order of [.order_by("expiry_date", "pk")]. *)
Definition expiry_pk_leb (e : Engine) (a b : Batch.t) : bool :=
  match expiry_compare e (Batch.expiry_date a) (Batch.expiry_date b) with
  | Lt => true
  | Gt => false
  | Eq => Batch.id a <=? Batch.id b
  end.

Fixpoint insert_by {A} (leb : A -> A -> bool) (x : A) (l : list A) : list A :=
  match l with
  | [] => [x]
  | y :: t => if leb x y then x :: y :: t else y :: insert_by leb x t
  end.

Definition sort_by {A} (leb : A -> A -> bool) (l : list A) : list A :=
  fold_right (insert_by leb) [] l.

(** The [filter(...)] clauses of the candidate query. *)
Definition is_eligible (env : Env) (item : Item.t) (b : Batch.t) : bool :=
  Z.eqb (Batch.item b) (Item.id item)
  && String.eqb (Batch.status b) Batch.STATUS_AVAILABLE
  && (0 <? Batch.available_qty b)
  && match Batch.expiry_date b with
     | None => true
     | Some d => today env <? d
     end.

(** [eligible]: the ids of the candidate batches, in query order. *)
Definition eligible_batches (env : Env) (item : Item.t) : M (list Z) :=
  read (fun db =>
          map Batch.id
              (sort_by (expiry_pk_leb (engine env))
                       (filter (is_eligible env item) (rows (batches db))))).

(** One round of the [while] loop after [batch_id = stack.pop()]:
    [None] is the [continue] branch, [Some (lot, qty)] the allocation made. *)
Definition allocate_from_candidate (order_item : OrderItem.inst)
           (user : option Z) (batch_id : option Z) (qty_remaining : Z)
  : M (option (string * Z)) :=
  batch <- Batch_get batch_id ;;
  if (Batch.available_qty batch <=? 0)
     || negb (String.eqb (Batch.status batch) Batch.STATUS_AVAILABLE)
  then ret None
  else
    let qty_to_allocate := Z.min (Batch.available_qty batch) qty_remaining in
    Batch_update_available_minus (Batch.id batch) qty_to_allocate ;;;
    allocation <- Allocation_create
                    (OrderItem.id (OrderItem.row order_item))
                    (Batch.id batch) qty_to_allocate ;;
    TransactionLog_objects_create
      [ ("user", match user with Some u => PInt u | None => PNone end);
        ("type", PStr TransactionLog.TYPE_RESERVE);
        ("qty", PDec qty_to_allocate);
        ("item", PInt (Item.id (OrderItem.item_obj order_item)));
        ("batch", PInt (Batch.id batch));
        ("order", PInt (Order.id (OrderItem.order_obj order_item)));
        ("meta",
         PJson (JDict
           [ ("order_no", JStr (Order.order_no (OrderItem.order_obj order_item)));
             ("order_item_id", JInt (OrderItem.id (OrderItem.row order_item)));
             ("allocation_id", JInt (Allocation.id allocation));
             ("algo", JStr "queue+stack") ])) ] ;;;
    ret (Some (Batch.lot_no batch, qty_to_allocate)).

(** [while (qty_remaining > 0) and (not stack.is_empty()): ...]
    (allocation.py lines 157-194); the result is
    [(allocations_made, qty_remaining)]. *)
Equations? allocate_while (order_item : OrderItem.inst) (user : option Z)
  (stack : ManualStack.t Z) (qty_remaining : Z)
  (allocations_made : list (string * Z)) (db : DB)
  : Result (list (string * Z) * Z) * DB
  by wf (ManualStack._top stack) lt :=
allocate_while order_item user stack qty_remaining allocations_made db
  with inspect ((0 <? qty_remaining) && negb (ManualStack.is_empty stack)) := {
  | exist _ false Hc => (Ok (allocations_made, qty_remaining), db)
  | exist _ true Hc with inspect (ManualStack.pop stack) := {
      | exist _ (Raise e) Hp => (Raise e, db)
      | exist _ (Ok (batch_id, stack')) Hp
          with allocate_from_candidate order_item user batch_id
                                       qty_remaining db := {
          | (Raise e, db') => (Raise e, db')
          | (Ok None, db') =>
              allocate_while order_item user stack' qty_remaining
                             allocations_made db'
          | (Ok (Some (lot, qty)), db') =>
              allocate_while order_item user stack' (qty_remaining - qty)
                             (allocations_made ++ [(lot, qty)]) db' } } }.
Proof.
  all: clear allocate_while; revert Hp; unfold ManualStack.pop;
    destruct (ManualStack._top stack) as [|n]; [discriminate|];
    destruct (nth_error _ _); [|discriminate];
    destruct (list_set _ _ _); [|discriminate];
    intros H; inversion H; simpl; lia.
Qed.

(** [_allocate_item_with_stack(order_item, user)] (lines 114-217) *)
Definition _allocate_item_with_stack (env : Env) (order_item : OrderItem.inst)
           (user : option Z) : M LineResult :=
  let item := OrderItem.item_obj order_item in
  let oi := OrderItem.row order_item in
  let qty_needed := OrderItem.qty_requested oi - OrderItem.qty_allocated oi in
  if qty_needed <=? 0 then
    ret (mkLine (OrderItem.id oi) (Item.sku item) "fully_allocated"
                (OrderItem.qty_requested oi) (OrderItem.qty_allocated oi)
                None [])
  else
    eligible <- eligible_batches env item ;;
    stack <- lift (ManualStack.push_all
                     (ManualStack.init Z (Z.max 16 (Z.of_nat (length eligible))))
                     (rev eligible)) ;;
    loop <- allocate_while order_item user stack qty_needed [] ;;
    let allocations_made := fst loop in
    let qty_remaining := snd loop in
    let total_allocated := qty_needed - qty_remaining in
    OrderItem_update_allocated_plus (OrderItem.id oi) total_allocated ;;;
    refreshed <- OrderItem_get (Some (OrderItem.id oi)) ;;
    let status :=
      if qty_remaining <=? 0 then "fully_allocated"
      else if 0 <? total_allocated then "partially_allocated"
      else "allocation_failed" in
    ret (mkLine (OrderItem.id oi) (Item.sku item) status
                (OrderItem.qty_requested oi) (OrderItem.qty_allocated refreshed)
                (Some qty_remaining) allocations_made).

(** [list(order.items.select_related("item").all())]: the lines of the
    order in table order, each joined with its item. *)
Definition order_items_of (order : Order.t) : M (list OrderItem.inst) :=
  read (fun db =>
          flat_map
            (fun oi =>
               if Z.eqb (OrderItem.order oi) (Order.id order) then
                 match find_pk Item.id (Some (OrderItem.item oi))
                               (rows (items db)) with
                 | Some it => [OrderItem.mkInst oi it order]
                 | None => []
                 end
               else [])
            (rows (order_items db))).

(** The counters of [allocate_order] and the list of line results. *)
Record Tally := mkTally {
  allocation_results : list LineResult;
  items_fully_allocated : nat;
  items_partially_allocated : nat;
  items_failed : nat }.

Definition tally_add (t : Tally) (result : LineResult) : Tally :=
  if String.eqb (line_status result) "fully_allocated" then
    mkTally (allocation_results t ++ [result]) (items_fully_allocated t + 1)
            (items_partially_allocated t) (items_failed t)
  else if String.eqb (line_status result) "partially_allocated" then
    mkTally (allocation_results t ++ [result]) (items_fully_allocated t)
            (items_partially_allocated t + 1) (items_failed t)
  else
    mkTally (allocation_results t ++ [result]) (items_fully_allocated t)
            (items_partially_allocated t) (items_failed t + 1).

(** [while not task_q.is_empty(): order_item = task_q.dequeue(); ...]
    (lines 73-83).  A dequeued [None] has no attribute [item]. *)
Equations? process_tasks (env : Env) (user : option Z)
  (task_q : ManualQueue.t OrderItem.inst) (tally : Tally) (db : DB)
  : Result Tally * DB
  by wf (ManualQueue._size task_q) lt :=
process_tasks env user task_q tally db
  with inspect (ManualQueue.is_empty task_q) := {
  | exist _ true Hc => (Ok tally, db)
  | exist _ false Hc with inspect (ManualQueue.dequeue task_q) := {
      | exist _ (Raise e) Hd => (Raise e, db)
      | exist _ (Ok (None, task_q')) Hd =>
          (Raise (mkExn AttributeError
                    "'NoneType' object has no attribute 'item'"), db)
      | exist _ (Ok (Some order_item, task_q')) Hd
          with _allocate_item_with_stack env order_item user db := {
          | (Raise e, db') => (Raise e, db')
          | (Ok result, db') =>
              process_tasks env user task_q' (tally_add tally result) db' } } }.
Proof.
  clear process_tasks. revert Hd. unfold ManualQueue.dequeue.
  destruct (ManualQueue._size task_q) as [|n]; [discriminate|].
  destruct (nth_error _ _); [|discriminate].
  destruct (list_set _ _ _); [|discriminate].
  intros H. inversion H. simpl. lia.
Qed.

(** [allocate_order(order_id, user)] (lines 38-111) *)
Definition allocate_order (env : Env) (order_id : Z) (user : option Z)
  : M Report :=
  order <- try_except (Order_get (Some order_id))
             (fun _ => raise (mkExn OrderNotFoundError
                                ("Order with ID " ++ str_Z order_id
                                 ++ " not found"))) ;;
  if String.eqb (Order.status order) Order.STATUS_CANCELLED then
    raise (mkExn AllocationError
             ("Cannot allocate cancelled order " ++ Order.order_no order))
  else
    order_items <- order_items_of order ;;
    match order_items with
    | [] =>
        raise (mkExn AllocationError
                 ("Order " ++ Order.order_no order ++ " has no items"))
    | _ :: _ =>
        task_q <- lift (ManualQueue.enqueue_all
                          (ManualQueue.init OrderItem.inst
                             (Z.max 16 (Z.of_nat (length order_items))))
                          order_items) ;;
        done <- atomic (
          tally <- process_tasks env user task_q (mkTally [] 0 0 0) ;;
          if Nat.eqb (items_fully_allocated tally) (length order_items) then
            order <- Order_save_status env
                       (Order.with_status Order.STATUS_ALLOCATED order) ;;
            ret (order, tally)
          else if Nat.eqb (items_failed tally) (length order_items) then
            Notification_create user
              ("Order " ++ Order.order_no order
               ++ " allocation failed: insufficient stock for all items")
              Notification.LEVEL_ERROR ;;;
            raise (mkExn AllocationError
                     ("Insufficient stock to allocate any items for order "
                      ++ Order.order_no order))
          else
            Notification_create user
              ("Order " ++ Order.order_no order ++ " partially allocated: "
               ++ str_nat (items_fully_allocated tally) ++ "/"
               ++ str_nat (length order_items) ++ " items fully allocated")
              Notification.LEVEL_WARNING ;;;
            ret (order, tally)) ;;
        let order := fst done in
        let tally := snd done in
        ret (mkReport (Order.id order) (Order.order_no order)
                      (Order.status order)
                      (items_fully_allocated tally)
                      (items_partially_allocated tally)
                      (items_failed tally)
                      (allocation_results tally))
    end.

(** [OrderItem.allocate_from_batch(self, batch, qty)] (models.py lines
    253-267); [self.allocations.latest("created_at")] is the row just
    created. *)
Definition OrderItem_allocate_from_batch (self : OrderItem.t)
           (batch : Batch.t) (qty : Z) : M Allocation.t :=
  if negb (Z.eqb (Batch.item batch) (OrderItem.item self)) then
    raise (mkExn ValueError "Batch item mismatch")
  else
    atomic (
      Batch_reserve batch qty ;;;
      created <- Allocation_create (OrderItem.id self) (Batch.id batch) qty ;;
      OrderItem_update_allocated_plus (OrderItem.id self) qty ;;;
      OrderItem_get (Some (OrderItem.id self)) ;;;
      ret created).

(* ===================================================================== *)
(** * inventory/services/undo_redo.py *)
(* ===================================================================== *)

Definition pyval_of_user (user : option Z) : pyval :=
  match user with Some u => PInt u | None => PNone end.

(** [data.get(key, default)] on a handler argument. *)
Definition data_get (data : pyval) (key : string) (default : json) : M json :=
  match data with
  | PJson j => lift (json_get j key default)
  | _ => raise (mkExn AttributeError "object has no attribute 'get'")
  end.

(** [d[key]] on a payload value. *)
Definition json_item (d : json) (key : string) : M json :=
  match d with
  | JDict kv =>
      match assoc key kv with
      | Some v => ret v
      | None => raise (mkExn KeyError key)
      end
  | _ => raise (mkExn TypeError "indices must be integers or slices, not str")
  end.

(** [len(v)] on a payload value. *)
Definition json_len (v : json) : M nat :=
  match v with
  | JList l => ret (length l)
  | JDict kv => ret (length kv)
  | JStr s => ret (String.length s)
  | _ => raise (mkExn TypeError "object has no len()")
  end.

Definition json_int (v : json) : M Z :=
  match v with
  | JInt n => ret n
  | _ => raise (mkExn TypeError "Field expected a number")
  end.

Definition json_date (v : json) : M (option Z) :=
  match v with
  | JNull => ret None
  | JInt d => ret (Some d)
  | _ => raise (mkExn ValueError "invalid date format")
  end.

(** [push_undo_operation] and [push_redo_operation] (lines 24-59) *)
Definition push_undo_operation (env : Env)
           (operation_type data user description : pyval) : M unit :=
  UndoStack_push env [ ("operation_type", operation_type); ("data", data);
                       ("user", user); ("description", description) ] ;;;
  ret tt.

Definition push_redo_operation (env : Env)
           (operation_type data user description : pyval) : M unit :=
  RedoStack_push env [ ("operation_type", operation_type); ("data", data);
                       ("user", user); ("description", description) ] ;;;
  ret tt.

(** [undo_allocation(data, user)] (lines 66-103) *)
Definition undo_allocation (env : Env) (data : pyval) (user : option Z)
  : M string :=
  order_id <- data_get data "order_id" JNull ;;
  allocations <- data_get data "allocations" (JList []) ;;
  atomic (
    alloc_list <- lift (json_iter allocations) ;;
    for_each alloc_list (fun alloc_data =>
      allocation_id <- lift (json_get alloc_data "allocation_id" JNull) ;;
      batch_id <- lift (json_get alloc_data "batch_id" JNull) ;;
      raw_qty <- lift (json_get alloc_data "qty_allocated" JNull) ;;
      qty_allocated <- lift (Decimal_of_json raw_qty) ;;
      allocation_pk <- lift (pk_of_json allocation_id) ;;
      Allocation_delete allocation_pk ;;;
      batch_pk <- lift (pk_of_json batch_id) ;;
      batch <- Batch_get batch_pk ;;
      let batch :=
        Batch.with_available_qty (Batch.available_qty batch + qty_allocated)
                                 batch in
      Batch_save batch ;;;
      TransactionLog_objects_create
        [ ("batch", PInt (Batch.id batch));
          ("qty_change", PDec qty_allocated);
          ("transaction_type", PStr "undo_allocation");
          ("user", pyval_of_user user);
          ("notes", PStr ("Undid allocation for order "
                          ++ str_json env order_id)) ] ;;;
      ret tt) ;;;
    order_pk <- lift (pk_of_json order_id) ;;
    order <- Order_get order_pk ;;
    pending <- lift (Order.class_getattr "STATUS_PENDING") ;;
    Order_save env (Order.with_status pending order) ;;;
    ret tt) ;;;
  n <- json_len allocations ;;
  ret ("Undid allocation for order " ++ str_json env order_id ++ ": "
       ++ str_nat n ++ " allocation(s) reversed").

(** [undo_receive(data, user)] (lines 106-136) *)
Definition undo_receive (env : Env) (data : pyval) (user : option Z)
  : M string :=
  batch_ids <- data_get data "batch_ids" (JList []) ;;
  atomic (
    ids <- lift (json_iter batch_ids) ;;
    for_each ids (fun batch_id =>
      batch_pk <- lift (pk_of_json batch_id) ;;
      batch <- Batch_get batch_pk ;;
      used <- Batch_allocations_exists batch ;;
      if (used : bool) then
        raise (mkExn UndoRedoError
                 ("Cannot undo receive: Batch " ++ Batch.lot_no batch
                  ++ " has active allocations"))
      else
        TransactionLog_objects_create
          [ ("batch", PInt (Batch.id batch));
            ("qty_change", PDec (- Batch.received_qty batch));
            ("transaction_type", PStr "undo_receive");
            ("user", pyval_of_user user);
            ("notes", PStr ("Undid receive of batch "
                            ++ Batch.lot_no batch)) ] ;;;
        Batch_delete batch)) ;;;
  n <- json_len batch_ids ;;
  ret ("Undid receive operation: " ++ str_nat n ++ " batch(es) deleted").

(** [undo_ship(data, user)] (lines 139-177) *)
Definition undo_ship (env : Env) (data : pyval) (user : option Z)
  : M string :=
  shipment_id <- data_get data "shipment_id" JNull ;;
  order_id <- data_get data "order_id" JNull ;;
  consumptions <- data_get data "consumptions" (JList []) ;;
  atomic (
    cons_list <- lift (json_iter consumptions) ;;
    for_each cons_list (fun consumption =>
      batch_id <- lift (json_get consumption "batch_id" JNull) ;;
      raw_qty <- lift (json_get consumption "qty_consumed" JNull) ;;
      qty_consumed <- lift (Decimal_of_json raw_qty) ;;
      batch_pk <- lift (pk_of_json batch_id) ;;
      batch <- Batch_get batch_pk ;;
      let batch :=
        Batch.with_available_qty (Batch.available_qty batch + qty_consumed)
                                 batch in
      Batch_save batch ;;;
      TransactionLog_objects_create
        [ ("batch", PInt (Batch.id batch));
          ("qty_change", PDec qty_consumed);
          ("transaction_type", PStr "undo_ship");
          ("user", pyval_of_user user);
          ("notes", PStr ("Undid shipment " ++ str_json env shipment_id)) ] ;;;
      ret tt) ;;;
    order_pk <- lift (pk_of_json order_id) ;;
    order <- Order_get order_pk ;;
    packed <- lift (Order.class_getattr "STATUS_PACKED") ;;
    Order_save env (Order.with_status packed order) ;;;
    shipment_pk <- lift (pk_of_json shipment_id) ;;
    write (set_shipments
             (filter_rows (fun s => negb (pk_is (Shipment.id s) shipment_pk))))) ;;;
  n <- json_len consumptions ;;
  ret ("Undid shipment " ++ str_json env shipment_id ++ ": " ++ str_nat n
       ++ " batch(es) restored").

(** [undo_restock(data, user)] (lines 180-209) *)
Definition undo_restock (env : Env) (data : pyval) (user : option Z)
  : M string :=
  return_id <- data_get data "return_id" JNull ;;
  batch_id <- data_get data "batch_id" JNull ;;
  raw_qty <- data_get data "qty_restocked" JNull ;;
  qty_restocked <- lift (Decimal_of_json raw_qty) ;;
  atomic (
    batch_pk <- lift (pk_of_json batch_id) ;;
    batch <- Batch_get batch_pk ;;
    let batch :=
      Batch.with_available_qty (Batch.available_qty batch - qty_restocked)
                               batch in
    Batch_save batch ;;;
    TransactionLog_objects_create
      [ ("batch", PInt (Batch.id batch));
        ("qty_change", PDec (- qty_restocked));
        ("transaction_type", PStr "undo_restock");
        ("user", pyval_of_user user);
        ("notes", PStr ("Undid restock from return "
                        ++ str_json env return_id)) ] ;;;
    return_pk <- lift (pk_of_json return_id) ;;
    return_obj <- Return_get return_pk ;;
    write (set_returns
             (map_rows (fun r => if Z.eqb (Return.id r) (Return.id return_obj)
                                 then Return.mk (Return.id r)
                                                Return.STATUS_PENDING
                                 else r)))) ;;;
  ret ("Undid restock from return " ++ str_json env return_id).

(** [redo_allocation(data, user)] (lines 216-225): [allocate_order] is
    called with the stored order id. *)
Definition redo_allocation (env : Env) (data : pyval) (user : option Z)
  : M string :=
  order_id <- data_get data "order_id" JNull ;;
  order_pk <- lift (pk_of_json order_id) ;;
  match order_pk with
  | None =>
      raise (mkExn OrderNotFoundError "Order with ID None not found")
  | Some k =>
      allocate_order env k user ;;;
      ret ("Redid allocation for order " ++ str_json env order_id)
  end.

(** [redo_receive(data, user)] (lines 228-252) *)
Definition redo_receive (env : Env) (data : pyval) (user : option Z)
  : M string :=
  batch_data_list <- data_get data "batches" (JList []) ;;
  atomic (
    entries <- lift (json_iter batch_data_list) ;;
    for_each entries (fun batch_data =>
      item_id <- json_item batch_data "item_id" ;;
      lot_no <- json_item batch_data "lot_no" ;;
      raw_received <- json_item batch_data "received_qty" ;;
      received_qty <- lift (Decimal_of_json raw_received) ;;
      raw_available <- json_item batch_data "available_qty" ;;
      available_qty <- lift (Decimal_of_json raw_available) ;;
      raw_expiry <- lift (json_get batch_data "expiry_date" JNull) ;;
      status <- lift (json_get batch_data "status"
                               (JStr Batch.STATUS_AVAILABLE)) ;;
      item_id <- json_int item_id ;;
      expiry_date <- json_date raw_expiry ;;
      batch <- Batch_create item_id (str_json env lot_no) received_qty
                            available_qty expiry_date (str_json env status) ;;
      TransactionLog_objects_create
        [ ("batch", PInt (Batch.id batch));
          ("qty_change", PDec (Batch.received_qty batch));
          ("transaction_type", PStr "redo_receive");
          ("user", pyval_of_user user);
          ("notes", PStr ("Redid receive of batch "
                          ++ Batch.lot_no batch)) ] ;;;
      ret tt)) ;;;
  n <- json_len batch_data_list ;;
  ret ("Redid receive operation: " ++ str_nat n ++ " batch(es) created").

Definition Handler := Env -> pyval -> option Z -> M string.

(** [UNDO_HANDLERS.get(op)] and [REDO_HANDLERS.get(op)] (lines 259-269) *)
Definition UNDO_HANDLERS_get (op : pyval) : option Handler :=
  match op with
  | PStr s =>
      if String.eqb s "allocation" then Some undo_allocation
      else if String.eqb s "receive" then Some undo_receive
      else if String.eqb s "ship" then Some undo_ship
      else if String.eqb s "restock" then Some undo_restock
      else None
  | _ => None
  end.

Definition REDO_HANDLERS_get (op : pyval) : option Handler :=
  match op with
  | PStr s =>
      if String.eqb s "allocation" then Some redo_allocation
      else if String.eqb s "receive" then Some redo_receive
      else None
  | _ => None
  end.

Definition str_pyval (env : Env) (v : pyval) : string :=
  match v with
  | PNone => "None"
  | PInt n => str_Z n
  | PDec q => str_json env (JDec q)
  | PStr s => s
  | PJson j => str_json env j
  end.

Section Driver.
(** [perform_undo] and [perform_redo] have the same shape; they differ in
    the stack they pop, the handler table, the stack they push to on
    success and the texts. *)
Variable env : Env.
Variable cls : string.
Variable pop : M (option StackRow.inst).
Variable handlers_get : pyval -> option Handler.
Variable push_other : Env -> pyval -> pyval -> pyval -> pyval -> M unit.
Variable repush : Env -> list (string * pyval) -> M StackRow.t.
Variable other_description : pyval -> pyval.
Variable empty_msg cannot_msg failed_msg : string.

(** The [except Exception as e:] block (lines 311-320, 364-373). *)
Definition driver_except (op : StackRow.inst) (results : list string)
           (e : Exn) : M (list string) :=
  let results := (results ++ [(failed_msg ++ exn_msg e)%string])%list in
  operation_type <- lift (StackRow.getattr cls op "operation_type") ;;
  data <- lift (StackRow.getattr cls op "data") ;;
  op_user <- lift (StackRow.getattr cls op "user") ;;
  description <- lift (StackRow.getattr cls op "description") ;;
  repush env [ ("operation_type", operation_type); ("data", data);
               ("user", op_user); ("description", description) ] ;;;
  ret results.

(** The [try:] block: the handler call, then the push to the other
    stack; [results] keeps what was appended before a failure. *)
Definition driver_try (op : StackRow.inst) (handler : Handler)
           (user : option Z) (results : list string) : M (list string) :=
  called <- try_except
              (data <- lift (StackRow.getattr cls op "data") ;;
               result_msg <- handler env data user ;;
               ret (Ok result_msg))
              (fun e => ret (Raise e)) ;;
  match called with
  | Raise e => driver_except op results e
  | Ok result_msg =>
      let results := (results ++ [result_msg])%list in
      try_except
        (operation_type <- lift (StackRow.getattr cls op "operation_type") ;;
         data <- lift (StackRow.getattr cls op "data") ;;
         description <- lift (StackRow.getattr cls op "description") ;;
         push_other env operation_type data (pyval_of_user user)
                    (other_description description) ;;;
         ret results)
        (driver_except op results)
  end.

(** [for _ in range(count): ...] *)
Fixpoint driver_loop (user : option Z) (count : nat) (results : list string)
  : M (list string) :=
  match count with
  | O => ret results
  | S count' =>
      popped <- pop ;;
      match popped with
      | None => ret (results ++ [empty_msg])%list
      | Some op =>
          operation_type <- lift (StackRow.getattr cls op "operation_type") ;;
          match handlers_get operation_type with
          | None =>
              driver_loop user count'
                (results
                 ++ [(cannot_msg ++ str_pyval env operation_type)%string])%list
          | Some handler =>
              results <- driver_try op handler user results ;;
              driver_loop user count' results
          end
      end
  end.
End Driver.

(** [perform_undo(user, count=1)] (lines 272-322) *)
Definition perform_undo (env : Env) (user : option Z) (count : Z)
  : M (list string) :=
  driver_loop env "UndoStack" UndoStack_pop UNDO_HANDLERS_get
    push_redo_operation UndoStack_push
    (fun d => PStr ("Redo: " ++ str_pyval env d))
    "No more operations to undo" "Cannot undo operation: " "Undo failed: "
    user (Z.to_nat count) [].

(** [perform_redo(user, count=1)] (lines 325-375) *)
Definition perform_redo (env : Env) (user : option Z) (count : Z)
  : M (list string) :=
  driver_loop env "RedoStack" RedoStack_pop REDO_HANDLERS_get
    push_undo_operation RedoStack_push
    (fun d => d)
    "No more operations to redo" "Cannot redo operation: " "Redo failed: "
    user (Z.to_nat count) [].

(* ===================================================================== *)
(** * inventory/services/notifications_helper.py and inventory/views.py *)
(* ===================================================================== *)

(** [notify(user, message, level="info", notification_type="system")],
    called with keyword arguments.  Sending the e-mail is outside the
    database and its failures are swallowed by the function. *)
Definition notify (kwargs : list (string * pyval)) : M Notification.t :=
  match unexpected_kwarg ["user"; "message"; "level"; "notification_type"]
                         kwargs with
  | Some k =>
      raise (mkExn TypeError
               ("notify() got an unexpected keyword argument '" ++ k ++ "'"))
  | None =>
      match assoc "user" kwargs, assoc "message" kwargs with
      | Some user, Some message =>
          let level := match assoc "level" kwargs with
                       | Some l => as_str (Some l)
                       | None => "info"
                       end in
          let db_level :=
            if String.eqb level "warning" then Notification.LEVEL_WARNING
            else if String.eqb level "error" then Notification.LEVEL_ERROR
            else Notification.LEVEL_INFO in
          Notification_create (as_fk (Some user)) (as_str (Some message))
                              db_level
      | _, _ =>
          raise (mkExn TypeError
                   "notify() missing required positional arguments")
      end
  end.

(** The outcome shown to the user: the level and text of the flashed
    message before the redirect to the order page. *)
Record Flash := mkFlash { flash_level : string; flash_text : string }.

(** [for allocation in order_item.allocations...all()]: [Allocation.Meta]
    orders by [-created_at], newest first. *)
Definition allocations_of (order_item : OrderItem.t) : M (list Allocation.t) :=
  read (fun db =>
          rev (filter (fun a => Z.eqb (Allocation.order_item a)
                                      (OrderItem.id order_item))
                      (rows (allocations db)))).

(** The body of the inner loop of [DeallocateOrderView.post]
    (lines 476-502); [acc] is [(total_deallocated, allocation_count)]. *)
Definition deallocate_allocation (order : Order.t) (order_item : OrderItem.t)
           (user : option Z) (acc : Z * nat) (allocation : Allocation.t)
  : M (Z * nat) :=
  batch <- Batch_get (Some (Allocation.batch allocation)) ;;
  let batch :=
    Batch.with_available_qty
      (Batch.available_qty batch + Allocation.qty_allocated allocation)
      batch in
  Batch_save batch ;;;
  item <- Item_get (Some (OrderItem.item order_item)) ;;
  TransactionLog_objects_create
    [ ("batch", PInt (Batch.id batch));
      ("item", PInt (Item.id item));
      ("order", PInt (Order.id order));
      ("type", PStr TransactionLog.TYPE_DEALLOCATE);
      ("qty", PDec (Allocation.qty_allocated allocation));
      ("user", pyval_of_user user);
      ("meta",
       PJson (JDict [ ("reason", JStr "manual_deallocation");
                      ("allocation_id", JInt (Allocation.id allocation));
                      ("order_no", JStr (Order.order_no order)) ])) ] ;;;
  Allocation_delete (Some (Allocation.id allocation)) ;;;
  ret (fst acc + Allocation.qty_allocated allocation, (snd acc + 1)%nat).

(** [for x in xs: acc = body(acc, x)] *)
Fixpoint fold_m {A B} (body : B -> A -> M B) (xs : list A) (acc : B) : M B :=
  match xs with
  | [] => ret acc
  | x :: rest => acc' <- body acc x ;; fold_m body rest acc'
  end.

(** The block under [with transaction.atomic():] up to the order update
    (lines 472-507). *)
Definition deallocate_body (env : Env) (order : Order.t) (user : option Z)
  : M (Z * nat) :=
  lines <- read (fun db =>
                   filter (fun oi => Z.eqb (OrderItem.order oi) (Order.id order))
                          (rows (order_items db))) ;;
  acc <- fold_m
           (fun acc order_item =>
              allocs <- allocations_of order_item ;;
              acc <- fold_m (deallocate_allocation order order_item user)
                            allocs acc ;;
              OrderItem_save (OrderItem.with_qty_allocated 0 order_item) ;;;
              ret acc)
           lines (0, O) ;;
  Order_save env (Order.with_status Order.STATUS_NEW order) ;;;
  ret acc.

(** [DeallocateOrderView.post] (views.py lines 462-533) for the order
    [order_id] and the signed-in [user]. *)
Definition DeallocateOrderView_post (env : Env) (user : option Z)
           (order_id : Z) : M Flash :=
  order <- try_except (Order_get (Some order_id))
             (fun _ => raise (mkExn Http404
                                "No Order matches the given query.")) ;;
  try_except
    (atomic (
       acc <- deallocate_body env order user ;;
       let released :=
         "Released " ++ str_json env (JDec (fst acc)) ++ " items from "
         ++ str_nat (snd acc) ++ " allocations back to inventory." in
       notify [ ("title", PStr ("Order " ++ Order.order_no order
                                ++ " deallocated"));
                ("message", PStr released);
                ("level", PStr Notification.LEVEL_INFO);
                ("user", pyval_of_user user) ] ;;;
       ret (mkFlash "success"
              ("Successfully deallocated order " ++ Order.order_no order
               ++ ". " ++ released))))
    (fun e => ret (mkFlash "error" ("Deallocation failed: " ++ exn_msg e))).

(* ===================================================================== *)
(** * Sequences of engine operations *)
(* ===================================================================== *)

Inductive EngineOp :=
| OpAllocateOrder (order_id : Z) (user : option Z)
| OpAllocateFromBatch (order_item : OrderItem.t) (batch : Batch.t) (qty : Z)
| OpDeallocate (order_id : Z) (user : option Z)
| OpUndoAllocation (data : pyval) (user : option Z)
| OpUndoReceive (data : pyval) (user : option Z)
| OpUndoShip (data : pyval) (user : option Z)
| OpUndoRestock (data : pyval) (user : option Z)
| OpRedoAllocation (data : pyval) (user : option Z)
| OpRedoReceive (data : pyval) (user : option Z)
| OpPerformUndo (user : option Z) (count : Z)
| OpPerformRedo (user : option Z) (count : Z)
| OpReserve (batch : Batch.t) (qty : Z).

(** The database left by one operation, whether it returned or raised. *)
Definition run_op (env : Env) (op : EngineOp) (db : DB) : DB :=
  match op with
  | OpAllocateOrder order_id user => snd (allocate_order env order_id user db)
  | OpAllocateFromBatch oi batch qty =>
      snd (OrderItem_allocate_from_batch oi batch qty db)
  | OpDeallocate order_id user =>
      snd (DeallocateOrderView_post env user order_id db)
  | OpUndoAllocation data user => snd (undo_allocation env data user db)
  | OpUndoReceive data user => snd (undo_receive env data user db)
  | OpUndoShip data user => snd (undo_ship env data user db)
  | OpUndoRestock data user => snd (undo_restock env data user db)
  | OpRedoAllocation data user => snd (redo_allocation env data user db)
  | OpRedoReceive data user => snd (redo_receive env data user db)
  | OpPerformUndo user count => snd (perform_undo env user count db)
  | OpPerformRedo user count => snd (perform_redo env user count db)
  | OpReserve batch qty => snd (Batch_reserve batch qty db)
  end.

Definition run_ops (env : Env) (ops : list EngineOp) (db : DB) : DB :=
  fold_left (fun db op => run_op env op db) ops db.

(** [OpReserve] is the one operation that moves stock without recording
    an Allocation. *)
Definition records_allocations (op : EngineOp) : bool :=
  match op with
  | OpReserve _ _ => false
  | _ => true
  end.

(** Sum of [qty_allocated] over the Allocation rows referencing a batch. *)
Definition allocated_against (db : DB) (batch_id : Z) : Z :=
  fold_right
    (fun a acc =>
       if Z.eqb (Allocation.batch a) batch_id
       then Allocation.qty_allocated a + acc else acc)
    0 (rows (allocations db)).

Definition available_nonneg (db : DB) : Prop :=
  forall b, In b (rows (batches db)) -> 0 <= Batch.available_qty b.

Definition ledger_balanced (db : DB) : Prop :=
  forall b, In b (rows (batches db)) ->
    Batch.received_qty b - Batch.available_qty b
    = allocated_against db (Batch.id b).

(* ===================================================================== *)
(** * Forward iteration over the candidate list *)
(* ===================================================================== *)

(** The candidate walk as the specification words it: iterate the
    ascending-sorted candidate list from its first element, stopping once
    nothing remains to allocate.  It is compared with [allocate_while]
    below. *)
Fixpoint allocate_forward (order_item : OrderItem.inst) (user : option Z)
         (candidates : list Z) (qty_remaining : Z)
         (allocations_made : list (string * Z))
  : M (list (string * Z) * Z) :=
  match candidates with
  | [] => ret (allocations_made, qty_remaining)
  | batch_id :: rest =>
      if 0 <? qty_remaining then
        made <- allocate_from_candidate order_item user (Some batch_id)
                                        qty_remaining ;;
        match made with
        | None =>
            allocate_forward order_item user rest qty_remaining
                             allocations_made
        | Some (lot, qty) =>
            allocate_forward order_item user rest (qty_remaining - qty)
                             (allocations_made ++ [(lot, qty)])
        end
      else ret (allocations_made, qty_remaining)
  end.

(** [_allocate_item_with_stack] with the stack replaced by the forward
    walk over [eligible]. *)
Definition allocate_item_forward (env : Env) (order_item : OrderItem.inst)
           (user : option Z) : M LineResult :=
  let item := OrderItem.item_obj order_item in
  let oi := OrderItem.row order_item in
  let qty_needed := OrderItem.qty_requested oi - OrderItem.qty_allocated oi in
  if qty_needed <=? 0 then
    ret (mkLine (OrderItem.id oi) (Item.sku item) "fully_allocated"
                (OrderItem.qty_requested oi) (OrderItem.qty_allocated oi)
                None [])
  else
    eligible <- eligible_batches env item ;;
    loop <- allocate_forward order_item user eligible qty_needed [] ;;
    let allocations_made := fst loop in
    let qty_remaining := snd loop in
    let total_allocated := qty_needed - qty_remaining in
    OrderItem_update_allocated_plus (OrderItem.id oi) total_allocated ;;;
    refreshed <- OrderItem_get (Some (OrderItem.id oi)) ;;
    let status :=
      if qty_remaining <=? 0 then "fully_allocated"
      else if 0 <? total_allocated then "partially_allocated"
      else "allocation_failed" in
    ret (mkLine (OrderItem.id oi) (Item.sku item) status
                (OrderItem.qty_requested oi) (OrderItem.qty_allocated refreshed)
                (Some qty_remaining) allocations_made).

(** The line items processed in list order, as the specification words
    the task queue: first in, first out.  It is compared with
    [process_tasks] below. *)
Fixpoint process_forward (env : Env) (user : option Z)
         (order_items : list OrderItem.inst) (tally : Tally) : M Tally :=
  match order_items with
  | [] => ret tally
  | order_item :: rest =>
      result <- _allocate_item_with_stack env order_item user ;;
      process_forward env user rest (tally_add tally result)
  end.

(** A queue that has not wrapped around: [done] cells already dequeued,
    then the [pending] values, oldest first, then [k] free cells. *)
Definition queue_holds {T} (q : ManualQueue.t T) (done : nat)
           (pending : list T) (k : nat) : Prop :=
  let cap := (done + length pending + k)%nat in
  ManualQueue._data q
  = (repeat None done ++ map Some pending ++ repeat None k)%list
  /\ ManualQueue._head q = Nat.modulo done cap
  /\ ManualQueue._tail q = Nat.modulo (done + length pending) cap
  /\ ManualQueue._size q = length pending.

(** The cells of a stack below [_top] hold [elems], bottom first; the [k]
    cells above are free. *)
Definition stack_holds {T} (s : ManualStack.t T) (elems : list T) (k : nat)
  : Prop :=
  ManualStack._data s = (map Some elems ++ repeat None k)%list
  /\ ManualStack._top s = length elems.

(* ===================================================================== *)
(** * Predicates used in the statements *)
(* ===================================================================== *)

(** Keys handed out by the database: every stored key lies between 1 and
    the next automatic key. *)
Definition keys_assigned {R} (id_of : R -> Z) (tb : Table R) : Prop :=
  1 <= next_id tb
  /\ forall r, In r (rows tb) -> 1 <= id_of r < next_id tb.

(** [preserves P m]: [P] survives [m] whether it returns or raises. *)
Definition preserves {A} (P : DB -> Prop) (m : M A) : Prop :=
  forall db, P db -> P (snd (m db)).

(** [keeps_stock m]: [m] writes neither batches nor allocations. *)
Definition keeps_stock {A} (m : M A) : Prop :=
  forall db, batches (snd (m db)) = batches db
             /\ allocations (snd (m db)) = allocations db.

(** [stock_prop P]: [P] only looks at batches and allocations. *)
Definition stock_prop (P : DB -> Prop) : Prop :=
  forall db db', batches db' = batches db ->
                 allocations db' = allocations db -> P db -> P db'.

(** [fails m]: [m] raises from every database. *)
Definition fails {A} (m : M A) : Prop :=
  forall db, exists e db', m db = (Raise e, db').

(** [unchanged m]: [m] leaves every database as it found it. *)
Definition unchanged {A} (m : M A) : Prop :=
  forall db, snd (m db) = db.

(* ===================================================================== *)
(** * Scenarios of inventory/tests/test_fefo_allocation.py *)
(* ===================================================================== *)

Definition table_of {R} (l : list R) : Table R :=
  mkTable l (Z.of_nat (length l) + 1).

(** The environment of a deployment on [e] on day 0. *)
Definition test_env (e : Engine) : Env :=
  mkEnv e 0 0 (fun _ => "") (fun _ => "").

(** [setUp]: item TEST-001 with LOT-A (50 units, expiring in 5 days),
    LOT-B (100 units, expiring in 30 days) and LOT-C (75 units, no expiry),
    order ORD-001 and one line requesting [requested] thousandths. *)
Definition fefo_db (requested : Z) : DB :=
  mkDB (table_of [Item.mk 1 "TEST-001"])
       (table_of
          [ Batch.mk 1 1 "LOT-A" 50000 50000 (Some 5) Batch.STATUS_AVAILABLE;
            Batch.mk 2 1 "LOT-B" 100000 100000 (Some 30) Batch.STATUS_AVAILABLE;
            Batch.mk 3 1 "LOT-C" 75000 75000 None Batch.STATUS_AVAILABLE ])
       (table_of [Order.mk 1 "ORD-001" Order.STATUS_NEW])
       (table_of [OrderItem.mk 1 1 1 requested 0])
       (table_of []) (table_of []) (table_of []) (table_of [])
       (table_of []) (table_of []) (table_of []).

(** The same order when the item has no batch at all. *)
Definition no_stock_db : DB :=
  set_batches (fun _ => table_of []) (fefo_db 10000).

(** The undo record of the allocation of 120 units as 50 + 70, stored
    with [UndoStack.push(op_name="allocation", metadata=...)]. *)
Definition allocation_undo_record : list (string * pyval) :=
  [ ("op_name", PStr "allocation");
    ("metadata",
     PJson (JDict
       [ ("order_id", JInt 1);
         ("allocations",
          JList [ JDict [ ("allocation_id", JInt 1); ("batch_id", JInt 1);
                          ("qty_allocated", JDec 50000) ];
                  JDict [ ("allocation_id", JInt 2); ("batch_id", JInt 2);
                          ("qty_allocated", JDec 70000) ] ]) ])) ].

(** The undo record of the receipt of batch 1. *)
Definition receive_undo_record : list (string * pyval) :=
  [ ("op_name", PStr "receive");
    ("metadata", PJson (JDict [ ("batch_ids", JList [JInt 1]) ])) ].

(** The database after the 120-unit order was allocated on [e]. *)
Definition allocated_db (e : Engine) : DB :=
  snd (allocate_order (test_env e) 1 (Some 7) (fefo_db 120000)).

(** The database after [first] ran and the record [kwargs] was pushed. *)
Definition after_push {A} (env : Env) (first : M A)
           (kwargs : list (string * pyval)) (db : DB) : DB :=
  snd (UndoStack_push env kwargs (snd (first db))).

(* ===================================================================== *)
(** * Sequences of stack and queue operations *)
(* ===================================================================== *)

(** A call on a [ManualStack] or a [ManualQueue]: [push]/[enqueue],
    [pop]/[dequeue], [peek], [size] and [is_empty]. *)
Inductive ContainerOp (T : Type) :=
| OpPut (value : T)
| OpTake
| OpPeek
| OpSize
| OpIsEmpty.
Arguments OpTake {T}.
Arguments OpPeek {T}.
Arguments OpSize {T}.
Arguments OpIsEmpty {T}.

(** What a call gives back: [None] for [push]/[enqueue], the cell for
    [pop]/[dequeue]/[peek], a number, a boolean, or the exception raised. *)
Inductive ContainerOut (T : Type) :=
| OutNone
| OutValue (cell : option T)
| OutSize (n : nat)
| OutBool (b : bool)
| OutRaise (e : Exn).
Arguments OutNone {T}.
Arguments OutSize {T} n.
Arguments OutBool {T} b.
Arguments OutRaise {T} e.

(** One call on a stack; a call that raises leaves the object as it was. *)
Definition stack_call {T} (s : ManualStack.t T) (op : ContainerOp T)
  : ContainerOut T * ManualStack.t T :=
  match op with
  | OpPut v =>
      match ManualStack.push s v with
      | Ok s' => (OutNone, s')
      | Raise e => (OutRaise e, s)
      end
  | OpTake =>
      match ManualStack.pop s with
      | Ok (cell, s') => (OutValue cell, s')
      | Raise e => (OutRaise e, s)
      end
  | OpPeek =>
      match ManualStack.peek s with
      | Ok cell => (OutValue cell, s)
      | Raise e => (OutRaise e, s)
      end
  | OpSize => (OutSize (ManualStack.size s), s)
  | OpIsEmpty => (OutBool (ManualStack.is_empty s), s)
  end.

(** One call on a queue. *)
Definition queue_call {T} (q : ManualQueue.t T) (op : ContainerOp T)
  : ContainerOut T * ManualQueue.t T :=
  match op with
  | OpPut v =>
      match ManualQueue.enqueue q v with
      | Ok q' => (OutNone, q')
      | Raise e => (OutRaise e, q)
      end
  | OpTake =>
      match ManualQueue.dequeue q with
      | Ok (cell, q') => (OutValue cell, q')
      | Raise e => (OutRaise e, q)
      end
  | OpPeek =>
      match ManualQueue.peek q with
      | Ok cell => (OutValue cell, q)
      | Raise e => (OutRaise e, q)
      end
  | OpSize => (OutSize (ManualQueue.size q), q)
  | OpIsEmpty => (OutBool (ManualQueue.is_empty q), q)
  end.

(** A sequence of calls: what each gave back, and the object at the end. *)
Fixpoint run_calls {T S} (call : S -> ContainerOp T -> ContainerOut T * S)
         (ops : list (ContainerOp T)) (s : S) : list (ContainerOut T) * S :=
  match ops with
  | [] => ([], s)
  | op :: rest =>
      let (out, s') := call s op in
      let (outs, s'') := run_calls call rest s' in
      (out :: outs, s'')
  end.

(** The same calls on a Python list used as a stack, top of the stack
    first. *)
Definition list_stack_call {T} (l : list T) (op : ContainerOp T)
  : ContainerOut T * list T :=
  match op with
  | OpPut v => (OutNone, v :: l)
  | OpTake =>
      match l with
      | [] => (OutRaise (mkExn IndexError "pop from empty stack"), l)
      | v :: rest => (OutValue (Some v), rest)
      end
  | OpPeek =>
      match l with
      | [] => (OutRaise (mkExn IndexError "peek from empty stack"), l)
      | v :: _ => (OutValue (Some v), l)
      end
  | OpSize => (OutSize (length l), l)
  | OpIsEmpty => (OutBool (match l with [] => true | _ => false end), l)
  end.

(** The same calls on a list used as a queue, oldest value first. *)
Definition list_queue_call {T} (l : list T) (op : ContainerOp T)
  : ContainerOut T * list T :=
  match op with
  | OpPut v => (OutNone, (l ++ [v])%list)
  | OpTake =>
      match l with
      | [] => (OutRaise (mkExn IndexError "dequeue from empty queue"), l)
      | v :: rest => (OutValue (Some v), rest)
      end
  | OpPeek =>
      match l with
      | [] => (OutRaise (mkExn IndexError "peek from empty queue"), l)
      | v :: _ => (OutValue (Some v), l)
      end
  | OpSize => (OutSize (length l), l)
  | OpIsEmpty => (OutBool (match l with [] => true | _ => false end), l)
  end.

(** The cells of a circular buffer read from [start], [n] of them. *)
Definition cyclic_read {T} (data : list (option T)) (start n : nat)
  : list (option T) :=
  map (fun j => nth (Nat.modulo (start + j) (length data)) data None)
      (seq 0 n).

(** A queue in any state it can reach: the [_size] cells from [_head] on,
    around the end of the array, hold the values of [l], oldest first. *)
Definition queue_rep {T} (q : ManualQueue.t T) (l : list T) : Prop :=
  (0 < length (ManualQueue._data q))%nat
  /\ (ManualQueue._head q < length (ManualQueue._data q))%nat
  /\ ManualQueue._tail q
     = Nat.modulo (ManualQueue._head q + ManualQueue._size q)
                  (length (ManualQueue._data q))
  /\ (ManualQueue._size q <= length (ManualQueue._data q))%nat
  /\ ManualQueue._size q = length l
  /\ cyclic_read (ManualQueue._data q) (ManualQueue._head q)
                 (ManualQueue._size q) = map Some l.

(* ===================================================================== *)
(** * inventory/services/batch_processor.py: the trace snapshots *)
(* ===================================================================== *)

Section Snapshots.
Variables (T : Type) (label : T -> string).

(** [stack.push(cell)] for a cell that a [pop] gave back, which may be
    [None]. *)
Definition stack_push_cell (s : ManualStack.t T) (cell : option T)
  : Result (ManualStack.t T) :=
  match cell with
  | Some value => ManualStack.push s value
  | None =>
      let s := if Nat.eqb (ManualStack._top s) (length (ManualStack._data s))
               then ManualStack._grow s else s in
      match list_set (ManualStack._data s) (ManualStack._top s) None with
      | Some d => Ok (ManualStack.mk d (S (ManualStack._top s)))
      | None => Raise (mkExn IndexError "list assignment index out of range")
      end
  end.

(** [while not stack.is_empty(): b = stack.pop();
    temp_list.append(f"{b['lot_no']}({b['available_qty']})");
    temp_stack.push(b)] (lines 280-283); a [None] cell cannot be
    subscripted. *)
Equations? stack_drain (stack temp_stack : ManualStack.t T)
  (temp_list : list string)
  : Result (list string * ManualStack.t T * ManualStack.t T)
  by wf (ManualStack._top stack) lt :=
stack_drain stack temp_stack temp_list
  with inspect (ManualStack.is_empty stack) := {
  | exist _ true Hc => Ok (temp_list, stack, temp_stack)
  | exist _ false Hc with inspect (ManualStack.pop stack) := {
      | exist _ (Raise e) Hp => Raise e
      | exist _ (Ok (None, stack')) Hp =>
          Raise (mkExn TypeError "'NoneType' object is not subscriptable")
      | exist _ (Ok (Some b, stack')) Hp
          with ManualStack.push temp_stack b := {
          | Raise e => Raise e
          | Ok temp_stack' =>
              stack_drain stack' temp_stack' (temp_list ++ [label b])%list
        } } }.
Proof.
  clear stack_drain. revert Hp. unfold ManualStack.pop.
  destruct (ManualStack._top stack) as [|n]; [discriminate|].
  destruct (nth_error _ _); [|discriminate].
  destruct (list_set _ _ _); [|discriminate].
  intros H. inversion H. simpl. lia.
Qed.

(** [while not temp_stack.is_empty(): stack.push(temp_stack.pop())]
    (lines 285-286) *)
Equations? stack_refill (temp_stack stack : ManualStack.t T)
  : Result (ManualStack.t T * ManualStack.t T)
  by wf (ManualStack._top temp_stack) lt :=
stack_refill temp_stack stack
  with inspect (ManualStack.is_empty temp_stack) := {
  | exist _ true Hc => Ok (temp_stack, stack)
  | exist _ false Hc with inspect (ManualStack.pop temp_stack) := {
      | exist _ (Raise e) Hp => Raise e
      | exist _ (Ok (cell, temp_stack')) Hp
          with stack_push_cell stack cell := {
          | Raise e => Raise e
          | Ok stack' => stack_refill temp_stack' stack' } } }.
Proof.
  clear stack_refill. revert Hp. unfold ManualStack.pop.
  destruct (ManualStack._top temp_stack) as [|n]; [discriminate|].
  destruct (nth_error _ _); [|discriminate].
  destruct (list_set _ _ _); [|discriminate].
  intros H. inversion H. simpl. lia.
Qed.

(** The snapshot of the batch stack taken after each pop when tracing
    (lines 277-286): the labels of the batches left, and the stack put
    back. *)
Definition stack_snapshot (stack : ManualStack.t T)
  : Result (list string * ManualStack.t T) :=
  let temp_stack :=
    ManualStack.init T (Z.of_nat (ManualStack.size stack)) in
  match stack_drain stack temp_stack [] with
  | Raise e => Raise e
  | Ok (temp_list, stack, temp_stack) =>
      match stack_refill temp_stack stack with
      | Raise e => Raise e
      | Ok (_, stack) => Ok (temp_list, stack)
      end
  end.

(** [q.enqueue(cell)] for a cell that a [dequeue] gave back. *)
Definition queue_enqueue_cell (q : ManualQueue.t T) (cell : option T)
  : Result (ManualQueue.t T) :=
  match cell with
  | Some value => ManualQueue.enqueue q value
  | None =>
      match (if Nat.eqb (ManualQueue._size q) (length (ManualQueue._data q))
             then ManualQueue._grow q else Ok q) with
      | Raise e => Raise e
      | Ok q =>
          match list_set (ManualQueue._data q) (ManualQueue._tail q) None with
          | None =>
              Raise (mkExn IndexError "list assignment index out of range")
          | Some d =>
              Ok (ManualQueue.mk d (ManualQueue._head q)
                    (Nat.modulo (ManualQueue._tail q + 1) (length d))
                    (ManualQueue._size q + 1))
          end
      end
  end.

(** [while not order_queue.is_empty(): o = order_queue.dequeue();
    remaining.append(o.order_no); temp_q.enqueue(o)] (lines 111-114); a
    [None] cell has no attribute [order_no]. *)
Equations? queue_drain (order_queue temp_q : ManualQueue.t T)
  (remaining : list string)
  : Result (list string * ManualQueue.t T * ManualQueue.t T)
  by wf (ManualQueue._size order_queue) lt :=
queue_drain order_queue temp_q remaining
  with inspect (ManualQueue.is_empty order_queue) := {
  | exist _ true Hc => Ok (remaining, order_queue, temp_q)
  | exist _ false Hc with inspect (ManualQueue.dequeue order_queue) := {
      | exist _ (Raise e) Hd => Raise e
      | exist _ (Ok (None, order_queue')) Hd =>
          Raise (mkExn AttributeError
                   "'NoneType' object has no attribute 'order_no'")
      | exist _ (Ok (Some o, order_queue')) Hd
          with ManualQueue.enqueue temp_q o := {
          | Raise e => Raise e
          | Ok temp_q' =>
              queue_drain order_queue' temp_q' (remaining ++ [label o])%list
        } } }.
Proof.
  clear queue_drain. revert Hd. unfold ManualQueue.dequeue.
  destruct (ManualQueue._size order_queue) as [|n]; [discriminate|].
  destruct (nth_error _ _); [|discriminate].
  destruct (list_set _ _ _); [|discriminate].
  intros H. inversion H. simpl. lia.
Qed.

(** [while not temp_q.is_empty(): order_queue.enqueue(temp_q.dequeue())]
    (lines 116-117) *)
Equations? queue_refill (temp_q order_queue : ManualQueue.t T)
  : Result (ManualQueue.t T * ManualQueue.t T)
  by wf (ManualQueue._size temp_q) lt :=
queue_refill temp_q order_queue
  with inspect (ManualQueue.is_empty temp_q) := {
  | exist _ true Hc => Ok (temp_q, order_queue)
  | exist _ false Hc with inspect (ManualQueue.dequeue temp_q) := {
      | exist _ (Raise e) Hd => Raise e
      | exist _ (Ok (cell, temp_q')) Hd
          with queue_enqueue_cell order_queue cell := {
          | Raise e => Raise e
          | Ok order_queue' => queue_refill temp_q' order_queue' } } }.
Proof.
  clear queue_refill. revert Hd. unfold ManualQueue.dequeue.
  destruct (ManualQueue._size temp_q) as [|n]; [discriminate|].
  destruct (nth_error _ _); [|discriminate].
  destruct (list_set _ _ _); [|discriminate].
  intros H. inversion H. simpl. lia.
Qed.

(** The snapshot of the order queue taken after each dequeue when tracing
    (lines 108-117): the order numbers left, and the queue put back. *)
Definition queue_snapshot (order_queue : ManualQueue.t T)
  : Result (list string * ManualQueue.t T) :=
  let temp_q :=
    ManualQueue.init T (Z.of_nat (ManualQueue.size order_queue)) in
  match queue_drain order_queue temp_q [] with
  | Raise e => Raise e
  | Ok (remaining, order_queue, temp_q) =>
      match queue_refill temp_q order_queue with
      | Raise e => Raise e
      | Ok (_, order_queue) => Ok (remaining, order_queue)
      end
  end.

End Snapshots.

(* ===================================================================== *)
(** * inventory/tasks.py: the daily expiry scan *)
(* ===================================================================== *)

Definition Batch_with_status (s : string) (b : Batch.t) : Batch.t :=
  Batch.mk (Batch.id b) (Batch.item b) (Batch.lot_no b) (Batch.received_qty b)
           (Batch.available_qty b) (Batch.expiry_date b) s.

(** [batch.save(update_fields=["status"])]: only the status column of the
    row is written. *)
Definition Batch_save_status (b : Batch.t) : M unit :=
  fun db =>
    match find_pk Batch.id (Some (Batch.id b)) (rows (batches db)) with
    | None =>
        (Raise (mkExn DatabaseError
                  "Save with update_fields did not affect any rows."), db)
    | Some _ =>
        (Ok tt,
         set_batches
           (map_rows (fun r => if Z.eqb (Batch.id r) (Batch.id b)
                               then Batch_with_status (Batch.status b) r
                               else r)) db)
    end.

(** [filter(expiry_date__lt=today, status=AVAILABLE, available_qty__gt=0)] *)
Definition is_expired (env : Env) (b : Batch.t) : bool :=
  match Batch.expiry_date b with
  | Some d => d <? today env
  | None => false
  end
  && String.eqb (Batch.status b) Batch.STATUS_AVAILABLE
  && (0 <? Batch.available_qty b).

(** [filter(expiry_date__gte=today, expiry_date__lte=today + 7 days,
    status=AVAILABLE, available_qty__gt=0)] *)
Definition is_near_expiry (env : Env) (b : Batch.t) : bool :=
  match Batch.expiry_date b with
  | Some d => (today env <=? d) && (d <=? today env + 7)
  | None => false
  end
  && String.eqb (Batch.status b) Batch.STATUS_AVAILABLE
  && (0 <? Batch.available_qty b).

(** The dictionary returned by the scan. *)
Record ScanResult := mkScan { expired_count : nat; near_expiry_count : nat }.

(** [scheduled_expiry_scan()] (tasks.py lines 187-256).  [query_order] is
    the order in which the database returns the rows of a Batch query
    ([Meta.ordering] is [item__sku, lot_no], under the collation of the
    engine); [managers] are the keys of the users with [is_staff], as
    [User.objects.filter(is_staff=True)] returns them.  The two querysets
    are lazy: [expired] is run when the loop starts, [near_expiry] each time
    [exists()] or [count()] is called. *)
Definition scheduled_expiry_scan (env : Env)
           (query_order : list Batch.t -> list Batch.t) (managers : list Z)
  : M ScanResult :=
  let near_expiry :=
    read (fun db => filter (is_near_expiry env) (rows (batches db))) in
  expired <- read (fun db =>
                     query_order (filter (is_expired env) (rows (batches db)))) ;;
  expired_count <-
    fold_m (fun (count : nat) batch =>
              Batch_save_status
                (Batch_with_status Batch.STATUS_EXPIRED batch) ;;;
              ret (count + 1)%nat)
           expired 0%nat ;;
  (if (0 <? expired_count)%nat then
     for_each managers (fun manager =>
       Notification_create (Some manager)
         ("Expiry Scan: " ++ str_nat expired_count
          ++ " batch(es) have expired and been marked EXPIRED.")
         Notification.LEVEL_ERROR ;;;
       ret tt)
   else ret tt) ;;;
  found <- near_expiry ;;
  (match found with
   | [] => ret tt
   | _ :: _ =>
       counted <- near_expiry ;;
       for_each managers (fun manager =>
         Notification_create (Some manager)
           ("Expiry Warning: " ++ str_nat (length counted)
            ++ " batch(es) will expire within 7 days.")
           Notification.LEVEL_WARNING ;;;
         ret tt)
   end) ;;;
  logged <- near_expiry ;;
  returned <- near_expiry ;;
  ret (mkScan expired_count (length returned)).

(* ===================================================================== *)
(** * inventory/models.py: the stock and allocation summaries *)
(* ===================================================================== *)

(** [Item.total_quantity()] (models.py lines 65-70): the sum of
    [available_qty] over the batches of the item without expiry date or
    expiring after today; [None] from an empty sum is replaced by 0. *)
Definition Item_total_quantity (env : Env) (self : Item.t) : M Z :=
  read (fun db =>
          fold_right Z.add 0
            (map Batch.available_qty
                 (filter (fun b =>
                            Z.eqb (Batch.item b) (Item.id self)
                            && match Batch.expiry_date b with
                               | None => true
                               | Some d => today env <? d
                               end)
                         (rows (batches db))))).

(** [Order.is_fully_allocated] (models.py lines 217-222) *)
Definition Order_is_fully_allocated (self : Order.t) : M bool :=
  read (fun db =>
          let items :=
            filter (fun oi => Z.eqb (OrderItem.order oi) (Order.id self))
                   (rows (order_items db)) in
          match items with
          | [] => false
          | _ :: _ =>
              forallb (fun i => OrderItem.qty_requested i
                                <=? OrderItem.qty_allocated i) items
          end).

(** What [allocate_order] has done to a stored order line [r], now [r'],
    when the lines of keys [ids] were all fully allocated: a line outside
    [ids] is as it was, a line of [ids] has kept its key and its order and
    has its request covered. *)
Definition settled_by (ids : list Z) (r r' : OrderItem.t) : Prop :=
  (~ In (OrderItem.id r) ids /\ r' = r)
  \/ (In (OrderItem.id r) ids
      /\ OrderItem.id r' = OrderItem.id r
      /\ OrderItem.order r' = OrderItem.order r
      /\ OrderItem.qty_requested r' <= OrderItem.qty_allocated r').



(** What a run of [allocate_order] started from [db0] keeps of the tables
    it reads: the keys of the batches and of the order lines, in table
    order, and the orders. *)
Definition engine_frame (db0 db : DB) : Prop :=
  map Batch.id (rows (batches db)) = map Batch.id (rows (batches db0))
  /\ map OrderItem.id (rows (order_items db))
     = map OrderItem.id (rows (order_items db0))
  /\ orders db = orders db0.

(** Every table holds the same rows in [db'] as in [db]; the counters of
    the automatic keys are left out. *)
Definition same_rows (db db' : DB) : Prop :=
  rows (items db') = rows (items db)
  /\ rows (batches db') = rows (batches db)
  /\ rows (orders db') = rows (orders db)
  /\ rows (order_items db') = rows (order_items db)
  /\ rows (allocations db') = rows (allocations db)
  /\ rows (shipments db') = rows (shipments db)
  /\ rows (returns db') = rows (returns db)
  /\ rows (transaction_logs db') = rows (transaction_logs db)
  /\ rows (notifications db') = rows (notifications db)
  /\ rows (undo_stack db') = rows (undo_stack db)
  /\ rows (redo_stack db') = rows (redo_stack db).

(* ===================================================================== *)
(** * Relations between the database before and after a call *)
(* ===================================================================== *)

(** [b'] is the batch [b] with nothing changed but [available_qty], which
    did not grow. *)
Definition only_decreased (b b' : Batch.t) : Prop :=
  b' = Batch.with_available_qty (Batch.available_qty b') b
  /\ Batch.available_qty b' <= Batch.available_qty b.

(** The log row [l] is the RESERVE entry written for the allocation [a]:
    same quantity, same batch, and [a]'s key in its [meta]. *)
Definition reserve_logged (a : Allocation.t) (l : TransactionLog.t) : Prop :=
  TransactionLog.type l = TransactionLog.TYPE_RESERVE
  /\ TransactionLog.qty l = Allocation.qty_allocated a
  /\ TransactionLog.batch l = Some (Allocation.batch a)
  /\ assoc "allocation_id"
           (match TransactionLog.meta l with JDict kv => kv | _ => [] end)
     = Some (JInt (Allocation.id a))
  /\ assoc "order_item_id"
           (match TransactionLog.meta l with JDict kv => kv | _ => [] end)
     = Some (JInt (Allocation.order_item a)).


(** The batch row [b] is stored, as it is, in a batch table with unique
    keys. *)
Definition batch_kept (b : Batch.t) (db : DB) : Prop :=
  NoDup (map Batch.id (rows (batches db))) /\ In b (rows (batches db)).

(** The fixture with a fourth batch LOT-D of the same item, of 40 units,
    whose expiry date is today. *)
Definition expiring_today_db (requested : Z) : DB :=
  set_batches
    (insert_row (fun k => Batch.mk k 1 "LOT-D" 40000 40000 (Some 0)
                                   Batch.STATUS_AVAILABLE))
    (fefo_db requested).


(** How many line results carry the status [s]. *)
Definition count_status (s : string) (details : list LineResult) : nat :=
  length (filter (fun r => String.eqb (line_status r) s) details).


(** The stock that the candidate query of a line offers: the available
    quantities of the eligible batches of the item, added up. *)
Definition eligible_stock (env : Env) (item : Item.t) (db : DB) : Z :=
  fold_right Z.add 0
    (map Batch.available_qty
         (filter (is_eligible env item) (rows (batches db)))).


(** The batch rows after the loop of the scan has gone through the batches
    of keys [keys]; and after a whole scan. *)
Definition mark_expired (keys : list Z) (b : Batch.t) : Batch.t :=
  if existsb (Z.eqb (Batch.id b)) keys
  then Batch_with_status Batch.STATUS_EXPIRED b else b.

Definition scan_mark (env : Env) (b : Batch.t) : Batch.t :=
  if is_expired env b then Batch_with_status Batch.STATUS_EXPIRED b else b.


(** Sum of [qty_allocated] over the Allocation rows of an order line. *)
Definition allocated_to_line (db : DB) (order_item_id : Z) : Z :=
  fold_right
    (fun a acc =>
       if Z.eqb (Allocation.order_item a) order_item_id
       then Allocation.qty_allocated a + acc else acc)
    0 (rows (allocations db)).

(** The line side of the ledger: the [qty_allocated] of every order line
    is the sum of its Allocation rows. *)
Definition lines_balanced (db : DB) : Prop :=
  forall oi, In oi (rows (order_items db)) ->
    OrderItem.qty_allocated oi = allocated_to_line db (OrderItem.id oi).

(* ===================================================================== *)
(** * Properties of the manual stack *)
(* ===================================================================== *)

Local Open Scope list_scope.

Lemma list_set_middle {A} (pre : list A) (x v : A) (post : list A) :
  list_set (pre ++ x :: post) (length pre) v = Some (pre ++ v :: post).
Proof.
  induction pre as [|h t IH]; simpl; [reflexivity|].
  rewrite IH. reflexivity.
Qed.

Lemma nth_error_middle {A} (pre : list A) (x : A) (post : list A) :
  nth_error (pre ++ x :: post) (length pre) = Some x.
Proof.
  induction pre as [|h t IH]; simpl; [reflexivity|exact IH].
Qed.

Lemma list_set_after_map {A B} (f : A -> B) (l : list A) x v post :
  list_set (map f l ++ x :: post) (length l) v = Some (map f l ++ v :: post).
Proof.
  replace (length l) with (length (map f l)) by apply length_map.
  apply list_set_middle.
Qed.

Lemma nth_error_after_map {A B} (f : A -> B) (l : list A) x post :
  nth_error (map f l ++ x :: post) (length l) = Some x.
Proof.
  replace (length l) with (length (map f l)) by apply length_map.
  apply nth_error_middle.
Qed.

Section StackProperties.
Variable T : Type.
Implicit Types (s : ManualStack.t T) (elems vs : list T) (v : T) (k : nat).

Lemma stack_holds_init capacity :
  exists k, stack_holds (ManualStack.init T capacity) [] k.
Proof.
  unfold ManualStack.init, stack_holds. simpl. eexists. split; reflexivity.
Qed.

Lemma stack_push_holds s elems k v :
  stack_holds s elems k ->
  exists s' k', ManualStack.push s v = Ok s'
                /\ stack_holds s' (elems ++ [v]) k'.
Proof.
  intros [Hd Ht]. destruct s as [data top]. cbn in Hd, Ht. subst data top.
  unfold ManualStack.push. cbn [ManualStack._data ManualStack._top].
  rewrite length_app, length_map, repeat_length.
  destruct k as [|k].
  - (* full: the array grows first *)
    rewrite Nat.add_0_r, Nat.eqb_refl.
    unfold ManualStack._grow. cbn [ManualStack._data ManualStack._top repeat].
    rewrite app_nil_r, length_map.
    destruct (Nat.max (2 * length elems) 16 - length elems)%nat
      as [|extra] eqn:He; [lia|].
    cbn [repeat]. rewrite list_set_after_map.
    eexists _, extra. split; [reflexivity|]. split; cbn.
    + rewrite map_app, <- app_assoc. reflexivity.
    + rewrite length_app. cbn. lia.
  - (* a free cell is left *)
    replace (Nat.eqb (length elems) (length elems + S k)) with false
      by (symmetry; apply Nat.eqb_neq; lia).
    cbn [ManualStack._data ManualStack._top repeat].
    rewrite list_set_after_map.
    eexists _, k. split; [reflexivity|]. split; cbn.
    + rewrite map_app, <- app_assoc. reflexivity.
    + rewrite length_app. cbn. lia.
Qed.

Lemma stack_push_all_holds vs : forall s elems k,
  stack_holds s elems k ->
  exists s' k', ManualStack.push_all s vs = Ok s'
                /\ stack_holds s' (elems ++ vs) k'.
Proof.
  induction vs as [|v vs IH]; intros s elems k H.
  - exists s, k. rewrite app_nil_r. split; [reflexivity|exact H].
  - destruct (stack_push_holds v H) as (s1 & k1 & Hp & H1).
    destruct (IH _ _ _ H1) as (s2 & k2 & Hq & H2).
    exists s2, k2. cbn. rewrite Hp, Hq. split; [reflexivity|].
    rewrite <- app_assoc in H2. exact H2.
Qed.

Lemma stack_pop_holds s elems v k :
  stack_holds s (elems ++ [v]) k ->
  exists s', ManualStack.pop s = Ok (Some v, s')
             /\ stack_holds s' elems (S k).
Proof.
  intros [Hd Ht]. destruct s as [data top]. cbn in Hd, Ht. subst data top.
  unfold ManualStack.pop. cbn [ManualStack._data ManualStack._top].
  rewrite length_app, Nat.add_comm. cbn [length Nat.add].
  rewrite map_app, <- app_assoc. cbn [map app].
  rewrite nth_error_after_map, list_set_after_map.
  eexists. split; [reflexivity|]. split; reflexivity.
Qed.

Lemma stack_is_empty_holds s elems k :
  stack_holds s elems k ->
  ManualStack.is_empty s = match elems with [] => true | _ => false end.
Proof.
  intros [_ Ht]. unfold ManualStack.is_empty. rewrite Ht.
  destruct elems; reflexivity.
Qed.

Lemma pop_until_empty_step s :
  ManualStack.pop_until_empty s =
  if ManualStack.is_empty s then Ok []
  else match ManualStack.pop s with
       | Raise e => Raise e
       | Ok (value, s') =>
           match ManualStack.pop_until_empty s' with
           | Ok rest => Ok (value :: rest)
           | Raise e => Raise e
           end
       end.
Proof.
  funelim (ManualStack.pop_until_empty s).
  all: rewrite He; try rewrite Hp; try rewrite Heq; reflexivity.
Qed.

Lemma pop_until_empty_holds elems : forall s k,
  stack_holds s elems k ->
  ManualStack.pop_until_empty s = Ok (map Some (rev elems)).
Proof.
  induction elems as [|v elems IH] using rev_ind; intros s k H.
  - rewrite pop_until_empty_step.
    erewrite stack_is_empty_holds by exact H. reflexivity.
  - rewrite pop_until_empty_step.
    erewrite stack_is_empty_holds by exact H.
    apply stack_pop_holds in H. destruct H as (s' & Hp & H').
    rewrite Hp, (IH _ _ H'), rev_app_distr.
    destruct elems; reflexivity.
Qed.
End StackProperties.

(* ===================================================================== *)
(** * The candidate walk: stack loop against forward iteration *)
(* ===================================================================== *)

Lemma allocate_while_step order_item user stack qty_remaining made db :
  allocate_while order_item user stack qty_remaining made db =
  if (0 <? qty_remaining) && negb (ManualStack.is_empty stack) then
    match ManualStack.pop stack with
    | Raise e => (Raise e, db)
    | Ok (batch_id, stack') =>
        match allocate_from_candidate order_item user batch_id
                                      qty_remaining db with
        | (Raise e, db') => (Raise e, db')
        | (Ok None, db') =>
            allocate_while order_item user stack' qty_remaining made db'
        | (Ok (Some (lot, qty)), db') =>
            allocate_while order_item user stack' (qty_remaining - qty)
                           (made ++ [(lot, qty)]) db'
        end
    end
  else (Ok (made, qty_remaining), db).
Proof.
  funelim (allocate_while order_item user stack qty_remaining made db).
  all: rewrite Hc; try rewrite Hp; try rewrite Heq; reflexivity.
Qed.

Lemma allocate_while_forward order_item user elems :
  forall stack k qty_remaining made db,
    stack_holds stack elems k ->
    allocate_while order_item user stack qty_remaining made db
    = allocate_forward order_item user (rev elems) qty_remaining made db.
Proof.
  induction elems as [|v elems IH] using rev_ind;
    intros stack k qty_remaining made db H.
  - rewrite allocate_while_step.
    erewrite stack_is_empty_holds by exact H.
    rewrite andb_false_r. reflexivity.
  - rewrite allocate_while_step.
    erewrite stack_is_empty_holds by exact H.
    replace (negb match elems ++ [v] with [] => true | _ :: _ => false end)
      with true by (destruct elems; reflexivity).
    rewrite andb_true_r, rev_app_distr. cbn [rev app allocate_forward].
    destruct (0 <? qty_remaining); [|reflexivity].
    apply stack_pop_holds in H. destruct H as (stack' & Hp & H').
    rewrite Hp. unfold bind.
    destruct (allocate_from_candidate order_item user (Some v)
                                      qty_remaining db)
      as [[[[lot qty]|]|e] db']; [| |reflexivity].
    + apply (IH _ _ _ _ _ H').
    + apply (IH _ _ _ _ _ H').
Qed.

Lemma push_all_reversed (T : Type) (l : list T) (capacity : Z) :
  exists stack k,
    ManualStack.push_all (ManualStack.init T capacity) (rev l) = Ok stack
    /\ stack_holds stack (rev l) k.
Proof.
  destruct (stack_holds_init T capacity) as [k0 H0].
  destruct (stack_push_all_holds (rev l) H0) as (s & k & Hp & H).
  exists s, k. split; assumption.
Qed.

(** C9.  Pushing a list of batch ids in reversed order onto a new
    [ManualStack] of any capacity, also one smaller than the list, so that
    [push] has to call [_grow], and popping until the stack is empty yields
    the list in its original order; consequently
    [_allocate_item_with_stack], which walks the candidates through the
    stack, computes the same result and the same database as the forward
    iteration over the ascending-sorted candidate list. *)
Theorem stack_traversal_equivalence :
  (forall (capacity : Z) (batch_ids : list Z),
      exists stack,
        ManualStack.push_all (ManualStack.init Z capacity) (rev batch_ids)
        = Ok stack
        /\ ManualStack.pop_until_empty stack = Ok (map Some batch_ids))
  /\ (forall env order_item user db,
         _allocate_item_with_stack env order_item user db
         = allocate_item_forward env order_item user db).
Proof.
  split.
  - intros capacity l.
    destruct (push_all_reversed l capacity) as (s & k & Hp & H).
    exists s. split; [exact Hp|].
    rewrite (pop_until_empty_holds H), rev_involutive. reflexivity.
  - intros env order_item user db.
    unfold _allocate_item_with_stack, allocate_item_forward.
    destruct (_ <=? 0); [reflexivity|].
    unfold bind, eligible_batches, read, lift.
    set (eligible := map Batch.id _).
    destruct (push_all_reversed eligible
                (Z.max 16 (Z.of_nat (length eligible))))
      as (s & k & Hp & H).
    rewrite Hp.
    rewrite (allocate_while_forward order_item user _ _ _ H), rev_involutive.
    reflexivity.
Qed.

(* ===================================================================== *)
(** * Equations of database computations *)
(* ===================================================================== *)

Lemma bind_ok {A B} (m : M A) (k : A -> M B) db a db' :
  m db = (Ok a, db') -> bind m k db = k a db'.
Proof. unfold bind. intros ->. reflexivity. Qed.



Lemma atomic_raise {A} (m : M A) db e db' :
  m db = (Raise e, db') -> atomic m db = (Raise e, db).
Proof. unfold atomic. intros ->. reflexivity. Qed.


Lemma objects_get_state {R} name (tbl : DB -> Table R) id_of pk db :
  snd (objects_get name tbl id_of pk db) = db.
Proof. unfold objects_get. destruct (find_pk _ _ _); reflexivity. Qed.

(* ===================================================================== *)
(** * Batch.reserve *)
(* ===================================================================== *)

(** C10.  For every batch instance, every database and every [qty <= 0],
    [Batch.reserve] raises [ValueError] before the transaction is opened
    or any row is read: the outcome is the same from every database, and
    the database (so every field of every batch) is left as it was. *)
Theorem reserve_rejects_nonpositive (self : Batch.t) (qty : Z) (db : DB) :
  qty <= 0 ->
  Batch_reserve self qty db
  = (Raise (mkExn ValueError "Reserve quantity must be > 0"), db)
  /\ forall db', fst (Batch_reserve self qty db')
                 = fst (Batch_reserve self qty db).
Proof.
  intros Hq. unfold Batch_reserve.
  replace (qty <=? 0) with true by (symmetry; apply Z.leb_le; exact Hq).
  split; [reflexivity|]. intros db'. reflexivity.
Qed.

Lemma reserve_rejects_nonpositive_witness :
  Batch_reserve (Batch.mk 1 1 "LOT-A" 50000 50000 (Some 5) "available") (-3000)
                (fefo_db 120000)
  = (Raise (mkExn ValueError "Reserve quantity must be > 0"), fefo_db 120000)
  /\ forall db',
      fst (Batch_reserve
             (Batch.mk 1 1 "LOT-A" 50000 50000 (Some 5) "available")
             (-3000) db')
      = fst (Batch_reserve
               (Batch.mk 1 1 "LOT-A" 50000 50000 (Some 5) "available")
               (-3000) (fefo_db 120000)).
Proof.
  apply (reserve_rejects_nonpositive
           (Batch.mk 1 1 "LOT-A" 50000 50000 (Some 5) "available")
           (qty := -3000) (fefo_db 120000)).
  lia.
Defined.

(** The row that [get(pk=...)] finds carries the key asked for. *)
Lemma find_pk_id {R} (id_of : R -> Z) k l r :
  find_pk id_of (Some k) l = Some r -> id_of r = k.
Proof.
  unfold find_pk. intros H. apply find_some in H. destruct H as [_ H].
  apply Z.eqb_eq in H. exact H.
Qed.

Lemma find_pk_In {R} (id_of : R -> Z) pk l r :
  find_pk id_of pk l = Some r -> In r l.
Proof. unfold find_pk. intros H. apply find_some in H. tauto. Qed.


Lemma unique_key_row {R} (id_of : R -> Z) (l : list R) (a b : R) :
  NoDup (map id_of l) -> In a l -> In b l -> id_of a = id_of b -> a = b.
Proof.
  induction l as [|x l IH]; [contradiction|].
  cbn. intros Hnd Ha Hb E. inversion Hnd as [|? ? Hnot Hnd']. subst.
  destruct Ha as [->|Ha], Hb as [->|Hb]; auto.
  - exfalso. apply Hnot. rewrite E. apply in_map. exact Hb.
  - exfalso. apply Hnot. rewrite <- E. apply in_map. exact Ha.
Qed.

Lemma forallb_updated_rows (upd : Batch.t -> Batch.t) k l r :
  (forall b, Batch.id (upd b) = Batch.id b) ->
  NoDup (map Batch.id l) ->
  find_pk Batch.id (Some k) l = Some r ->
  batch_check_ok (upd r) = true ->
  forallb (fun b => negb (Batch.id b =? k) || batch_check_ok b)
          (map (fun b => if Batch.id b =? k then upd b else b) l) = true.
Proof.
  intros Hid Hnd Hf Hok. apply forallb_forall. intros b' Hin.
  apply in_map_iff in Hin. destruct Hin as (b & <- & Hin).
  destruct (Batch.id b =? k) eqn:E.
  - rewrite Hid, E. cbn.
    assert (b = r); [|subst; exact Hok].
    apply Z.eqb_eq in E. pose proof (find_pk_id _ _ _ Hf) as Hr.
    pose proof (find_pk_In _ _ _ Hf) as Hrin.
    apply (unique_key_row Batch.id l); auto. congruence.
  - rewrite E. reflexivity.
Qed.




(* ===================================================================== *)
(** * TransactionLog.save *)
(* ===================================================================== *)




(* ===================================================================== *)
(** * allocate_order on the test scenarios *)
(* ===================================================================== *)

(** On PostgreSQL, which sorts rows without an expiry date last, the
    120-unit line takes 50 from LOT-A and 70 from LOT-B and leaves 0, 30
    and 75. *)
Lemma fefo_split_nulls_last :
  let r := allocate_order (test_env postgresql) 1 (Some 7) (fefo_db 120000) in
  map (fun a => (Allocation.batch a, Allocation.qty_allocated a))
      (rows (allocations (snd r))) = [(1, 50000); (2, 70000)]
  /\ map Batch.available_qty (rows (batches (snd r))) = [0; 30000; 75000].
Proof. vm_compute. split; reflexivity. Qed.

(** C2 (code at the failing input).  On the default engine of settings.py
    (sqlite3), where [ORDER BY expiry_date] sorts rows without an expiry
    date first, allocating 120 units against LOT-A (50, 5 days), LOT-B
    (100, 30 days) and LOT-C (75, no expiry) takes 75 from LOT-C and then
    45 from LOT-A, leaving 5, 100 and 0; the line is reported fully
    allocated with that split. *)
Theorem fefo_split_default_engine :
  let r := allocate_order (test_env sqlite3) 1 (Some 7) (fefo_db 120000) in
  map (fun a => (Allocation.batch a, Allocation.qty_allocated a))
      (rows (allocations (snd r))) = [(3, 75000); (1, 45000)]
  /\ map Batch.available_qty (rows (batches (snd r))) = [5000; 100000; 0]
  /\ exists report,
      fst r = Ok report
      /\ map line_status (rep_details report) = ["fully_allocated"]
      /\ map line_allocations (rep_details report)
         = [[("LOT-C", 75000); ("LOT-A", 45000)]].
Proof.
  vm_compute. split; [reflexivity|]. split; [reflexivity|].
  eexists. split; [reflexivity|]. split; reflexivity.
Qed.

(** C3 (code at the failing input).  On every engine, a line requesting
    300 units against the 225 available is allocated as far as the stock
    goes: three Allocation rows are created, the three batches are emptied,
    the line is reported [partially_allocated] with 75 units remaining, the
    call returns normally and the order stays NEW. *)
Theorem insufficient_stock_allocates_partially (e : Engine) :
  let r := allocate_order (test_env e) 1 (Some 7) (fefo_db 300000) in
  length (rows (allocations (snd r))) = 3%nat
  /\ map Batch.available_qty (rows (batches (snd r))) = [0; 0; 0]
  /\ exists report,
      fst r = Ok report
      /\ rep_status report = Order.STATUS_NEW
      /\ map line_status (rep_details report) = ["partially_allocated"]
      /\ map line_qty_remaining (rep_details report) = [Some 75000].
Proof.
  destruct e; vm_compute; (split; [reflexivity|]); (split; [reflexivity|]);
    eexists; (split; [reflexivity|]); repeat split; reflexivity.
Qed.

(** Whenever [allocate_order] raises, the database is exactly as before
    the call: what the transaction block wrote is undone, and nothing is
    written outside the block. *)
Lemma allocate_order_raise_unchanged env order_id user db e db' :
  allocate_order env order_id user db = (Raise e, db') -> db' = db.
Proof.
  unfold allocate_order, bind at 1, try_except, Order_get, objects_get.
  destruct (find_pk _ _ _) as [order|]; [|intros H; inversion H; reflexivity].
  destruct (_ =? _)%string; [intros H; inversion H; reflexivity|].
  unfold bind at 1, order_items_of, read.
  destruct (flat_map _ _) as [|oi ois]; [intros H; inversion H; reflexivity|].
  unfold bind at 1, lift.
  destruct (ManualQueue.enqueue_all _ _) as [q|e0];
    [|intros H; inversion H; reflexivity].
  unfold bind at 1, atomic.
  destruct (bind _ _ db) as [[done|e0] db0];
    intros H; inversion H; reflexivity.
Qed.

(** C4 (code at the failing input).  When the only line of the order finds
    no stock, [allocate_order] raises [AllocationError] and the database is
    left exactly as it was: the error-level notification created inside the
    transaction block is rolled back with it, so the Notification table is
    still empty. *)
Theorem total_failure_notification_rolled_back (e : Engine) :
  allocate_order (test_env e) 1 (Some 7) no_stock_db
  = (Raise (mkExn AllocationError
              "Insufficient stock to allocate any items for order ORD-001"),
     no_stock_db)
  /\ rows (notifications
             (snd (allocate_order (test_env e) 1 (Some 7) no_stock_db))) = [].
Proof. destruct e; vm_compute; split; reflexivity. Qed.

(** The other two outcomes of C4 on the test data: a fully allocated order
    becomes ALLOCATED; a mixed outcome keeps its allocations, leaves the
    order NEW and stores one warning-level notification. *)
Lemma full_and_mixed_outcomes (e : Engine) :
  map Order.status (rows (orders (allocated_db e))) = [Order.STATUS_ALLOCATED]
  /\ rows (notifications (allocated_db e)) = []
  /\ let mixed := snd (allocate_order (test_env e) 1 (Some 7)
                                      (fefo_db 300000)) in
     map Order.status (rows (orders mixed)) = [Order.STATUS_NEW]
     /\ map Notification.level (rows (notifications mixed))
        = [Notification.LEVEL_WARNING]
     /\ length (rows (allocations mixed)) = 3%nat.
Proof. destruct e; vm_compute; repeat split; reflexivity. Qed.

(* ===================================================================== *)
(** * perform_undo on the test scenarios *)
(* ===================================================================== *)

(** [allocate_order] never writes to the undo stack. *)
Lemma allocation_records_no_undo (e : Engine) :
  rows (undo_stack (allocated_db e)) = [].
Proof. destruct e; reflexivity. Qed.

(** C6 (code at the failing input).  After the 120-unit order was
    allocated as 50 + 70 and an "allocation" record for it was pushed with
    [UndoStack.push], [perform_undo(user, 1)] pops the record and raises
    [AttributeError] when it reads [undo_op.operation_type]: the batches
    keep their post-allocation quantities 0, 30 and 75, both Allocation
    rows remain, nothing reaches the redo stack, and the undo record is
    gone. *)
Theorem undo_allocation_restores_nothing :
  let env := test_env postgresql in
  let db := after_push env (allocate_order env 1 (Some 7))
                       allocation_undo_record (fefo_db 120000) in
  let r := perform_undo env (Some 7) 1 db in
  map StackRow.op_name (rows (undo_stack db)) = ["allocation"]
  /\ fst r = Raise (mkExn AttributeError
                      "'UndoStack' object has no attribute 'operation_type'")
  /\ map Batch.available_qty (rows (batches (snd r))) = [0; 30000; 75000]
  /\ rows (allocations (snd r)) = rows (allocations db)
  /\ length (rows (allocations (snd r))) = 2%nat
  /\ rows (redo_stack (snd r)) = []
  /\ rows (undo_stack (snd r)) = [].
Proof. vm_compute. repeat split; reflexivity. Qed.

(** C7 (code at the failing input).  With a "receive" record for batch 1
    on the undo stack and an Allocation against batch 1, [perform_undo]
    deletes no batch, but it raises [AttributeError] (not [UndoRedoError])
    before any handler runs and after the record was popped: the undo
    stack is left empty instead of holding the record again. *)
Theorem undo_receive_record_not_restored :
  let env := test_env postgresql in
  let db := after_push env (allocate_order env 1 (Some 7))
                       receive_undo_record (fefo_db 120000) in
  let r := perform_undo env (Some 7) 1 db in
  existsb (fun a => Allocation.batch a =? 1) (rows (allocations db)) = true
  /\ map StackRow.op_name (rows (undo_stack db)) = ["receive"]
  /\ fst r = Raise (mkExn AttributeError
                      "'UndoStack' object has no attribute 'operation_type'")
  /\ rows (batches (snd r)) = rows (batches db)
  /\ rows (undo_stack (snd r)) = []
  /\ rows (undo_stack (snd r)) <> rows (undo_stack db).
Proof. vm_compute. repeat split; try reflexivity. discriminate. Qed.

(* ===================================================================== *)
(** * Invariants of the stock ledger: combinators *)
(* ===================================================================== *)

Section Preservation.
Variable P : DB -> Prop.

Lemma preserves_ret {A} (a : A) : preserves P (ret a).
Proof. intros db H. exact H. Qed.

Lemma preserves_raise {A} (e : Exn) : preserves P (@raise A e).
Proof. intros db H. exact H. Qed.

Lemma preserves_lift {A} (r : Result A) : preserves P (lift r).
Proof. intros db H. exact H. Qed.

Lemma preserves_read {A} (f : DB -> A) : preserves P (read f).
Proof. intros db H. exact H. Qed.

Lemma preserves_bind {A B} (m : M A) (k : A -> M B) :
  preserves P m -> (forall a, preserves P (k a)) -> preserves P (bind m k).
Proof.
  intros Hm Hk db H. unfold bind. specialize (Hm db H).
  destruct (m db) as [[a|e] db']; cbn in Hm; [apply Hk; exact Hm|exact Hm].
Qed.

Lemma preserves_atomic {A} (m : M A) : preserves P m -> preserves P (atomic m).
Proof.
  intros Hm db H. unfold atomic. specialize (Hm db H).
  destruct (m db) as [[a|e] db']; cbn in *; assumption.
Qed.

Lemma preserves_try_except {A} (m : M A) (h : Exn -> M A) :
  preserves P m -> (forall e, preserves P (h e)) ->
  preserves P (try_except m h).
Proof.
  intros Hm Hh db H. unfold try_except. specialize (Hm db H).
  destruct (m db) as [[a|e] db']; cbn in Hm; [exact Hm|apply Hh; exact Hm].
Qed.

Lemma preserves_for_each {A} (xs : list A) (body : A -> M unit) :
  (forall x, preserves P (body x)) -> preserves P (for_each xs body).
Proof.
  intros Hb. induction xs as [|x xs IH]; cbn [for_each].
  - apply preserves_ret.
  - apply preserves_bind; [apply Hb|intros _; exact IH].
Qed.

Lemma preserves_fold_m {A B} (body : B -> A -> M B) (xs : list A) :
  (forall acc x, preserves P (body acc x)) ->
  forall acc, preserves P (fold_m body xs acc).
Proof.
  intros Hb. induction xs as [|x xs IH]; intros acc; cbn [fold_m].
  - apply preserves_ret.
  - apply preserves_bind; [apply Hb|intros acc'; apply IH].
Qed.

Hypothesis P_stock : stock_prop P.

Lemma keeps_stock_preserves {A} (m : M A) : keeps_stock m -> preserves P m.
Proof.
  intros Hk db H. destruct (Hk db) as [Hb Ha].
  exact (P_stock _ Hb Ha H).
Qed.

Lemma unchanged_preserves {A} (m : M A) : unchanged m -> preserves P m.
Proof. intros Hu db H. rewrite Hu. exact H. Qed.

End Preservation.

Lemma unchanged_keeps_stock {A} (m : M A) : unchanged m -> keeps_stock m.
Proof. intros Hu db. rewrite Hu. split; reflexivity. Qed.

Lemma keeps_stock_bind {A B} (m : M A) (k : A -> M B) :
  keeps_stock m -> (forall a, keeps_stock (k a)) -> keeps_stock (bind m k).
Proof.
  intros Hm Hk db. unfold bind. specialize (Hm db).
  destruct (m db) as [[a|e] db']; cbn in Hm; [|exact Hm].
  destruct Hm as [Hb Ha]. destruct (Hk a db') as [Hb' Ha'].
  split; congruence.
Qed.

Lemma keeps_stock_atomic {A} (m : M A) : keeps_stock m -> keeps_stock (atomic m).
Proof.
  intros Hm db. unfold atomic. specialize (Hm db).
  destruct (m db) as [[a|e] db']; cbn in *; [exact Hm|split; reflexivity].
Qed.

Lemma keeps_stock_try_except {A} (m : M A) (h : Exn -> M A) :
  keeps_stock m -> (forall e, keeps_stock (h e)) ->
  keeps_stock (try_except m h).
Proof.
  intros Hm Hh db. unfold try_except. specialize (Hm db).
  destruct (m db) as [[a|e] db']; cbn in Hm; [exact Hm|].
  destruct Hm as [Hb Ha]. destruct (Hh e db') as [Hb' Ha'].
  split; congruence.
Qed.

Lemma unchanged_ret {A} (a : A) : unchanged (ret a).
Proof. intros db. reflexivity. Qed.

Lemma unchanged_raise {A} (e : Exn) : unchanged (@raise A e).
Proof. intros db. reflexivity. Qed.

Lemma unchanged_lift {A} (r : Result A) : unchanged (lift r).
Proof. intros db. reflexivity. Qed.

Lemma unchanged_read {A} (f : DB -> A) : unchanged (read f).
Proof. intros db. reflexivity. Qed.

Lemma unchanged_objects_get {R} name (tbl : DB -> Table R) id_of pk :
  unchanged (objects_get name tbl id_of pk).
Proof. intros db. apply objects_get_state. Qed.

Lemma unchanged_bind {A B} (m : M A) (k : A -> M B) :
  unchanged m -> (forall a, unchanged (k a)) -> unchanged (bind m k).
Proof.
  intros Hm Hk db. unfold bind. specialize (Hm db).
  destruct (m db) as [[a|e] db']; cbn in Hm; subst db'; [apply Hk|reflexivity].
Qed.

Lemma unchanged_try_except {A} (m : M A) (h : Exn -> M A) :
  unchanged m -> (forall e, unchanged (h e)) -> unchanged (try_except m h).
Proof.
  intros Hm Hh db. unfold try_except. specialize (Hm db).
  destruct (m db) as [[a|e] db']; cbn in Hm; subst db'; [reflexivity|apply Hh].
Qed.

(** An atomic block that can only return from an unchanged database
    leaves the database unchanged. *)
Lemma unchanged_atomic {A} (m : M A) :
  (forall db a db', m db = (Ok a, db') -> db' = db) -> unchanged (atomic m).
Proof.
  intros Hm db. unfold atomic. specialize (Hm db).
  destruct (m db) as [[a|e] db']; cbn; [apply (Hm a); reflexivity|reflexivity].
Qed.

Lemma fails_raise {A} (e : Exn) : fails (@raise A e).
Proof. intros db. eexists _, _. reflexivity. Qed.

Lemma fails_bind_l {A B} (m : M A) (k : A -> M B) :
  fails m -> fails (bind m k).
Proof.
  intros Hm db. destruct (Hm db) as (e & db' & H).
  exists e, db'. unfold bind. rewrite H. reflexivity.
Qed.

Lemma fails_bind_r {A B} (m : M A) (k : A -> M B) :
  (forall a, fails (k a)) -> fails (bind m k).
Proof.
  intros Hk db. unfold bind. destruct (m db) as [[a|e] db'].
  - apply Hk.
  - eexists _, _. reflexivity.
Qed.

Lemma fails_unchanged_atomic {A} (m : M A) : fails m -> unchanged (atomic m).
Proof.
  intros Hm. apply unchanged_atomic. intros db a db' H.
  destruct (Hm db) as (e & db1 & H1). congruence.
Qed.

Lemma for_each_failing_body {A} (xs : list A) (body : A -> M unit) :
  (forall x, fails (body x)) ->
  forall db a db', for_each xs body db = (Ok a, db') -> db' = db.
Proof.
  intros Hb db a db'. destruct xs as [|x xs]; cbn [for_each].
  - intros H. inversion H. reflexivity.
  - intros H. destruct (fails_bind_l (fun _ => for_each xs body) (Hb x) db)
      as (e & db1 & H1). congruence.
Qed.

(* ===================================================================== *)
(** * Writes that do not touch the stock tables *)
(* ===================================================================== *)

Lemma keeps_write (f : DB -> DB) :
  (forall db, batches (f db) = batches db
              /\ allocations (f db) = allocations db) ->
  keeps_stock (write f).
Proof. intros H db. apply H. Qed.

(** Decompose a computation along its binds and case distinctions. *)
Ltac keeps :=
  repeat first
    [ apply keeps_stock_bind; [|intros ?]
    | apply keeps_stock_atomic
    | apply unchanged_keeps_stock;
      first [ apply unchanged_ret | apply unchanged_raise
            | apply unchanged_lift | apply unchanged_read
            | apply unchanged_objects_get ]
    | apply keeps_write; intros ?; split; reflexivity
    | match goal with
      | |- keeps_stock (match ?x with _ => _ end) => destruct x
      | |- keeps_stock (if ?x then _ else _) => destruct x
      end ].

Ltac keeps_direct :=
  let db := fresh "db" in
  intros db;
  repeat match goal with
         | |- context [match ?x with _ => _ end] => destruct x
         | |- context [if ?x then _ else _] => destruct x
         end;
  cbn; split; reflexivity.

Lemma keeps_OrderItem_update pk qty :
  keeps_stock (OrderItem_update_allocated_plus pk qty).
Proof. unfold OrderItem_update_allocated_plus. keeps_direct. Qed.

Lemma keeps_OrderItem_save oi : keeps_stock (OrderItem_save oi).
Proof. unfold OrderItem_save. keeps_direct. Qed.

Lemma keeps_Order_save_status env o : keeps_stock (Order_save_status env o).
Proof. unfold Order_save_status, Order_auto_order_no. keeps. Qed.

Lemma keeps_Order_save env o : keeps_stock (Order_save env o).
Proof. unfold Order_save, Order_auto_order_no. keeps. Qed.

Lemma keeps_Notification_create user message level :
  keeps_stock (Notification_create user message level).
Proof. unfold Notification_create. keeps_direct. Qed.

Lemma keeps_TransactionLog_save i : keeps_stock (TransactionLog_save i).
Proof.
  unfold TransactionLog_save. destruct (pk_truthy _); [keeps|].
  unfold TransactionLog_super_save. keeps_direct.
Qed.

Lemma keeps_TransactionLog_create kwargs :
  keeps_stock (TransactionLog_objects_create kwargs).
Proof.
  unfold TransactionLog_objects_create.
  destruct (unexpected_kwarg _ _); [keeps|apply keeps_TransactionLog_save].
Qed.

Lemma keeps_UndoStack_push env kwargs : keeps_stock (UndoStack_push env kwargs).
Proof. unfold UndoStack_push, Stack_push. keeps; try keeps_direct. Qed.

Lemma keeps_RedoStack_push env kwargs : keeps_stock (RedoStack_push env kwargs).
Proof. unfold RedoStack_push, Stack_push. keeps; try keeps_direct. Qed.

Lemma keeps_UndoStack_pop : keeps_stock UndoStack_pop.
Proof. unfold UndoStack_pop, Stack_pop. keeps. Qed.

Lemma keeps_RedoStack_pop : keeps_stock RedoStack_pop.
Proof. unfold RedoStack_pop, Stack_pop. keeps. Qed.

Lemma keeps_notify kwargs : keeps_stock (notify kwargs).
Proof.
  unfold notify. keeps.
Qed.

(* ===================================================================== *)
(** * allocate_order keeps the ledger invariants *)
(* ===================================================================== *)

Lemma stock_prop_available_nonneg : stock_prop available_nonneg.
Proof.
  intros db db' Hb _ H b Hin. rewrite Hb in Hin. apply H. exact Hin.
Qed.

Lemma stock_prop_ledger_balanced : stock_prop ledger_balanced.
Proof.
  intros db db' Hb Ha H b Hin. rewrite Hb in Hin.
  unfold allocated_against. rewrite Ha. apply H. exact Hin.
Qed.

Lemma allocated_against_insert db a batch_id :
  allocated_against (set_allocations (insert_row (fun _ => a)) db) batch_id
  = allocated_against db batch_id
    + (if Allocation.batch a =? batch_id then Allocation.qty_allocated a
       else 0).
Proof.
  unfold allocated_against.
  cbn [allocations set_allocations insert_row rows].
  induction (rows (allocations db)) as [|x l IH]; cbn.
  - destruct (_ =? _); lia.
  - rewrite IH. destruct (Allocation.batch x =? batch_id); lia.
Qed.

Lemma update_available_raise pk qty db e db' :
  Batch_update_available_minus pk qty db = (Raise e, db') -> db' = db.
Proof.
  unfold Batch_update_available_minus. destruct (forallb _ _); intros H;
    inversion H; reflexivity.
Qed.

Lemma update_available_ok pk qty db db' :
  Batch_update_available_minus pk qty db = (Ok tt, db') ->
  db' = set_batches
          (map_rows (fun b => if Batch.id b =? pk
                              then Batch.with_available_qty
                                     (Batch.available_qty b - qty) b
                              else b)) db
  /\ forall b, In b (rows (batches db)) -> Batch.id b = pk ->
               0 <= Batch.available_qty b - qty.
Proof.
  unfold Batch_update_available_minus.
  destruct (forallb _ _) eqn:Hall; intros H; inversion H. split; [reflexivity|].
  intros b Hin Hid. rewrite forallb_forall in Hall.
  specialize (Hall (Batch.with_available_qty (Batch.available_qty b - qty) b)).
  cbn [map_rows rows] in Hall. rewrite in_map_iff in Hall.
  assert (Hpk : (Batch.id b =? pk) = true) by (apply Z.eqb_eq; exact Hid).
  lapply Hall.
  - cbn. rewrite Hpk. cbn. unfold batch_check_ok. cbn. intros Hc.
    apply Z.leb_le. exact Hc.
  - exists b. rewrite Hpk. split; [reflexivity|exact Hin].
Qed.

(** The two invariants across a decrement followed by the matching
    Allocation row. *)
Lemma decrement_keeps_nonneg pk qty order_item db db1 :
  available_nonneg db ->
  Batch_update_available_minus pk qty db = (Ok tt, db1) ->
  available_nonneg (snd (Allocation_create order_item pk qty db1)).
Proof.
  intros H Hu. apply update_available_ok in Hu. destruct Hu as [-> Hpos].
  intros b'. cbn. rewrite in_map_iff. intros (b & <- & Hin).
  destruct (Batch.id b =? pk) eqn:E.
  - cbn. apply Hpos; [exact Hin|apply Z.eqb_eq; exact E].
  - apply H. exact Hin.
Qed.

Lemma decrement_keeps_balance pk qty order_item db db1 :
  ledger_balanced db ->
  Batch_update_available_minus pk qty db = (Ok tt, db1) ->
  ledger_balanced (snd (Allocation_create order_item pk qty db1)).
Proof.
  intros H Hu. apply update_available_ok in Hu. destruct Hu as [-> _].
  intros b'. unfold Allocation_create. cbn [snd].
  rewrite allocated_against_insert. cbn [Allocation.batch Allocation.qty_allocated].
  cbn [batches set_allocations set_batches map_rows rows].
  rewrite in_map_iff. intros (b & <- & Hin). specialize (H b Hin).
  assert (Hsame : forall k,
             allocated_against
               (set_batches
                  (map_rows (fun b0 => if Batch.id b0 =? pk
                                       then Batch.with_available_qty
                                              (Batch.available_qty b0 - qty) b0
                                       else b0)) db) k
             = allocated_against db k) by reflexivity.
  rewrite Hsame.
  destruct (Batch.id b =? pk) eqn:E.
  - cbn. rewrite Z.eqb_sym, E. lia.
  - rewrite Z.eqb_sym, E. lia.
Qed.

Section AllocationPreserves.
Variable P : DB -> Prop.
Hypothesis P_stock : stock_prop P.
Hypothesis P_decrement : forall pk qty order_item db db1,
    P db -> Batch_update_available_minus pk qty db = (Ok tt, db1) ->
    P (snd (Allocation_create order_item pk qty db1)).

Lemma preserves_allocate_from_candidate order_item user batch_id qty :
  preserves P (allocate_from_candidate order_item user batch_id qty).
Proof.
  intros db H. unfold allocate_from_candidate, bind at 1, Batch_get, objects_get.
  destruct (find_pk _ _ _) as [batch|]; [|exact H].
  destruct (_ || _); [exact H|].
  set (q := Z.min _ _). unfold bind at 1.
  destruct (Batch_update_available_minus (Batch.id batch) q db)
    as [[[]|e] db1] eqn:Hu.
  - pose proof (P_decrement _ _ (OrderItem.id (OrderItem.row order_item))
                            H Hu) as H2.
    unfold bind at 1.
    destruct (Allocation_create _ _ _ db1) as [[a|e] db2]; cbn in H2.
    + revert db2 H2.
      apply (preserves_bind (P:=P)); [|intros ?; apply preserves_ret].
      apply (keeps_stock_preserves P_stock), keeps_TransactionLog_create.
    + exact H2.
  - apply update_available_raise in Hu. subst db1. exact H.
Qed.

Lemma preserves_allocate_while order_item user stack qty made :
  preserves P (allocate_while order_item user stack qty made).
Proof.
  intros db. funelim (allocate_while order_item user stack qty made db);
    intros HP; try exact HP.
  all: pose proof (@preserves_allocate_from_candidate order_item user batch_id
                     qty_remaining db HP) as Hstep;
    rewrite Heq in Hstep; first [exact Hstep | apply H; exact Hstep].
Qed.

Lemma preserves_allocate_item env order_item user :
  preserves P (_allocate_item_with_stack env order_item user).
Proof.
  unfold _allocate_item_with_stack.
  destruct (_ <=? 0); [apply preserves_ret|].
  apply preserves_bind; [apply preserves_read|intros eligible].
  apply preserves_bind; [apply preserves_lift|intros stack].
  apply preserves_bind; [apply preserves_allocate_while|intros loop].
  apply preserves_bind;
    [apply (keeps_stock_preserves P_stock), keeps_OrderItem_update|intros _].
  apply preserves_bind;
    [apply unchanged_preserves, unchanged_objects_get|intros refreshed].
  apply preserves_ret.
Qed.

Lemma preserves_process_tasks env user task_q tally :
  preserves P (process_tasks env user task_q tally).
Proof.
  intros db. funelim (process_tasks env user task_q tally db);
    intros HP; try exact HP.
  all: pose proof (@preserves_allocate_item env order_item user db HP)
         as Hstep;
    rewrite Heq in Hstep; first [exact Hstep | apply H; exact Hstep].
Qed.

Lemma preserves_allocate_order env order_id user :
  preserves P (allocate_order env order_id user).
Proof.
  unfold allocate_order.
  apply preserves_bind.
  { apply preserves_try_except;
      [apply unchanged_preserves, unchanged_objects_get
      |intros ?; apply preserves_raise]. }
  intros order. destruct (_ =? _)%string; [apply preserves_raise|].
  apply preserves_bind; [apply preserves_read|intros order_items].
  destruct order_items as [|oi ois]; [apply preserves_raise|].
  apply preserves_bind; [apply preserves_lift|intros task_q].
  apply preserves_bind; [|intros ?; apply preserves_ret].
  apply preserves_atomic.
  apply preserves_bind; [apply preserves_process_tasks|intros tally].
  destruct (Nat.eqb _ _).
  - apply preserves_bind; [|intros ?; apply preserves_ret].
    apply (keeps_stock_preserves P_stock), keeps_Order_save_status.
  - destruct (Nat.eqb _ _).
    + apply preserves_bind; [|intros ?; apply preserves_raise].
      apply (keeps_stock_preserves P_stock), keeps_Notification_create.
    + apply preserves_bind; [|intros ?; apply preserves_ret].
      apply (keeps_stock_preserves P_stock), keeps_Notification_create.
Qed.

End AllocationPreserves.

(* ===================================================================== *)
(** * Batch.reserve and OrderItem.allocate_from_batch in the ledger *)
(* ===================================================================== *)

(** [Batch.reserve] either raises and leaves the database as it was, or
    returns after exactly the decrement of the rows stored under the key
    of the instance. *)
Lemma reserve_outcome self qty db :
  (exists e, Batch_reserve self qty db = (Raise e, db))
  \/ (exists n db1,
         Batch_reserve self qty db = (Ok n, db1)
         /\ Batch_update_available_minus (Batch.id self) qty db = (Ok tt, db1)).
Proof.
  unfold Batch_reserve. destruct (qty <=? 0); [left; eexists; reflexivity|].
  unfold atomic.
  destruct (bind _ _ db) as [[n|e] db1] eqn:HB; [|left; eexists; reflexivity].
  right. exists n, db1. split; [reflexivity|].
  revert HB. unfold bind at 1, Batch_get, objects_get at 1.
  destruct (find_pk Batch.id (Some (Batch.id self)) (rows (batches db)))
    as [locked|] eqn:Hf; [|discriminate].
  rewrite (find_pk_id _ _ _ Hf).
  destruct (negb _); [discriminate|].
  destruct (_ <? _); [discriminate|].
  unfold bind at 1.
  destruct (Batch_update_available_minus (Batch.id self) qty db)
    as [[[]|e] db2]; [|discriminate].
  unfold bind, objects_get, ret.
  destruct (find_pk Batch.id (Some (Batch.id self)) (rows (batches db2)));
    intros H; inversion H; reflexivity.
Qed.

Lemma nonneg_same_batches db db' :
  batches db' = batches db -> available_nonneg db -> available_nonneg db'.
Proof. intros Hb H b Hin. rewrite Hb in Hin. apply H. exact Hin. Qed.

Lemma update_keeps_nonneg pk qty db db1 :
  available_nonneg db ->
  Batch_update_available_minus pk qty db = (Ok tt, db1) ->
  available_nonneg db1.
Proof.
  intros H Hu.
  apply (@nonneg_same_batches (snd (Allocation_create 0 pk qty db1)));
    [reflexivity|].
  apply (@decrement_keeps_nonneg pk qty 0 db db1 H Hu).
Qed.

Lemma preserves_reserve_nonneg self qty :
  preserves available_nonneg (Batch_reserve self qty).
Proof.
  intros db H.
  destruct (reserve_outcome self qty db) as [(e & ->)|(n & db1 & -> & Hu)].
  - exact H.
  - eapply update_keeps_nonneg; eassumption.
Qed.

Lemma preserves_allocate_from_batch (P : DB -> Prop) :
  stock_prop P ->
  (forall pk qty order_item db db1,
      P db -> Batch_update_available_minus pk qty db = (Ok tt, db1) ->
      P (snd (Allocation_create order_item pk qty db1))) ->
  forall self batch qty,
    preserves P (OrderItem_allocate_from_batch self batch qty).
Proof.
  intros P_stock P_decrement self batch qty db HP.
  unfold OrderItem_allocate_from_batch.
  destruct (negb _); [exact HP|].
  unfold atomic.
  destruct (bind _ _ db) as [[a|e] db'] eqn:Hb; cbn [snd]; [|exact HP].
  revert Hb. unfold bind at 1.
  destruct (reserve_outcome batch qty db) as [(e & ->)|(n & db1 & -> & Hu)];
    [discriminate|].
  pose proof (P_decrement (Batch.id batch) qty (OrderItem.id self) db db1
                          HP Hu) as H2.
  unfold bind at 1.
  destruct (Allocation_create (OrderItem.id self) (Batch.id batch) qty db1)
    as [[created|e] db2]; cbn [snd] in H2; [|discriminate].
  intros Hb.
  assert (Hrest : preserves P
            (OrderItem_update_allocated_plus (OrderItem.id self) qty ;;;
             OrderItem_get (Some (OrderItem.id self)) ;;;
             ret created)).
  { apply preserves_bind;
      [apply (keeps_stock_preserves P_stock), keeps_OrderItem_update|intros _].
    apply preserves_bind;
      [apply unchanged_preserves, unchanged_objects_get|intros _].
    apply preserves_ret. }
  specialize (Hrest db2 H2). rewrite Hb in Hrest. exact Hrest.
Qed.

(* ===================================================================== *)
(** * Undo and redo handlers, drivers and the deallocation view *)
(* ===================================================================== *)

Lemma fails_create_unexpected kwargs k :
  unexpected_kwarg TransactionLog.init_kwargs kwargs = Some k ->
  fails (TransactionLog_objects_create kwargs).
Proof.
  intros H. unfold TransactionLog_objects_create. rewrite H. apply fails_raise.
Qed.

(** A step that raises by computation, whatever the database. *)
Ltac fails_now :=
  first [ apply fails_raise
        | eapply fails_create_unexpected; reflexivity
        | let db := fresh "db" in intros db; eexists _, _; reflexivity ].

(** Walk a computation along its binds up to a step that always raises. *)
Ltac fails_walk :=
  repeat first
    [ fails_now
    | apply fails_bind_l; fails_now
    | apply fails_bind_r; intros ?
    | match goal with
      | |- fails (if ?x then _ else _) => destruct x
      | |- fails (match ?x with _ => _ end) => destruct x
      end ].

Lemma unchanged_data_get data key default :
  unchanged (data_get data key default).
Proof.
  unfold data_get. destruct data;
    first [apply unchanged_raise | apply unchanged_lift].
Qed.

Lemma unchanged_json_len v : unchanged (json_len v).
Proof.
  unfold json_len. destruct v;
    first [apply unchanged_raise | apply unchanged_ret].
Qed.

(** Decompose a handler outside its transaction block. *)
Ltac unchanged_walk :=
  repeat first
    [ apply unchanged_ret | apply unchanged_raise | apply unchanged_lift
    | apply unchanged_read | apply unchanged_objects_get
    | apply unchanged_data_get | apply unchanged_json_len
    | apply unchanged_bind; [|intros ?]
    | match goal with
      | |- unchanged (if ?x then _ else _) => destruct x
      | |- unchanged (match ?x with _ => _ end) => destruct x
      end ].

(** [undo_allocation] always raises inside its transaction block: a log
    row cannot be built from [qty_change], [transaction_type] and [notes],
    and [Order] has no [STATUS_PENDING]. *)
Lemma unchanged_undo_allocation env data user :
  unchanged (undo_allocation env data user).
Proof.
  unfold undo_allocation.
  apply unchanged_bind; [apply unchanged_data_get|intros order_id].
  apply unchanged_bind; [apply unchanged_data_get|intros allocations].
  apply unchanged_bind; [|intros ?; unchanged_walk].
  apply fails_unchanged_atomic.
  apply fails_bind_r; intros alloc_list.
  apply fails_bind_r; intros _.
  fails_walk.
Qed.

Lemma unchanged_undo_ship env data user :
  unchanged (undo_ship env data user).
Proof.
  unfold undo_ship.
  apply unchanged_bind; [apply unchanged_data_get|intros shipment_id].
  apply unchanged_bind; [apply unchanged_data_get|intros order_id].
  apply unchanged_bind; [apply unchanged_data_get|intros consumptions].
  apply unchanged_bind; [|intros ?; unchanged_walk].
  apply fails_unchanged_atomic.
  apply fails_bind_r; intros cons_list.
  apply fails_bind_r; intros _.
  fails_walk.
Qed.

Lemma unchanged_undo_restock env data user :
  unchanged (undo_restock env data user).
Proof.
  unfold undo_restock.
  apply unchanged_bind; [apply unchanged_data_get|intros return_id].
  apply unchanged_bind; [apply unchanged_data_get|intros batch_id].
  apply unchanged_bind; [apply unchanged_data_get|intros raw_qty].
  apply unchanged_bind; [apply unchanged_lift|intros qty_restocked].
  apply unchanged_bind; [|intros ?; unchanged_walk].
  apply fails_unchanged_atomic. fails_walk.
Qed.

(** [undo_receive] returns only for an empty [batch_ids]; for each batch
    it either refuses or fails to build the log row, before any delete. *)
Lemma unchanged_undo_receive env data user :
  unchanged (undo_receive env data user).
Proof.
  unfold undo_receive.
  apply unchanged_bind; [apply unchanged_data_get|intros batch_ids].
  apply unchanged_bind; [|intros ?; unchanged_walk].
  apply unchanged_atomic. intros db a db'. unfold bind at 1, lift.
  destruct (json_iter batch_ids) as [ids|e]; [|discriminate].
  apply for_each_failing_body. intros batch_id. fails_walk.
Qed.

Lemma unchanged_redo_receive env data user :
  unchanged (redo_receive env data user).
Proof.
  unfold redo_receive.
  apply unchanged_bind; [apply unchanged_data_get|intros batch_data_list].
  apply unchanged_bind; [|intros ?; unchanged_walk].
  apply unchanged_atomic. intros db a db'. unfold bind at 1, lift.
  destruct (json_iter batch_data_list) as [entries|e]; [|discriminate].
  apply for_each_failing_body. intros batch_data. fails_walk.
Qed.

(** [DeallocateOrderView.post] calls [notify] with a [title] keyword that
    [notify] does not accept, inside the transaction block: the block is
    rolled back and the view reports the failure. *)
Lemma unchanged_deallocate env user order_id :
  unchanged (DeallocateOrderView_post env user order_id).
Proof.
  unfold DeallocateOrderView_post.
  apply unchanged_bind.
  { apply unchanged_try_except;
      [apply unchanged_objects_get|intros ?; apply unchanged_raise]. }
  intros order.
  apply unchanged_try_except; [|intros ?; apply unchanged_ret].
  apply fails_unchanged_atomic.
  apply fails_bind_r; intros acc. fails_walk.
Qed.

(** Reading [operation_type] from a popped record raises: the models
    define [op_name], [metadata] and [created_at] only. *)
Lemma getattr_operation_type cls op :
  StackRow.getattr cls op "operation_type"
  = Raise (mkExn AttributeError
             ("'" ++ cls ++ "' object has no attribute 'operation_type'")).
Proof. reflexivity. Qed.

Section DriverProperties.
Variable env : Env.
Variable cls : string.
Variable pop : M (option StackRow.inst).
Variable handlers_get : pyval -> option Handler.
Variable push_other : Env -> pyval -> pyval -> pyval -> pyval -> M unit.
Variable repush : Env -> list (string * pyval) -> M StackRow.t.
Variable other_description : pyval -> pyval.
Variable empty_msg cannot_msg failed_msg : string.

(** One round of the driver: an empty stack ends the loop with the
    message; otherwise the attribute error leaves the loop with the
    database as [pop] left it. *)
Lemma driver_loop_step user count results db :
  driver_loop env cls pop handlers_get push_other repush other_description
              empty_msg cannot_msg failed_msg user (S count) results db
  = match pop db with
    | (Ok None, db') => (Ok (results ++ [empty_msg]), db')
    | (Ok (Some op), db') =>
        (Raise (mkExn AttributeError
                  ("'" ++ cls ++ "' object has no attribute 'operation_type'")),
         db')
    | (Raise e, db') => (Raise e, db')
    end.
Proof.
  cbn [driver_loop]. unfold bind at 1.
  destruct (pop db) as [[[op|]|e] db']; reflexivity.
Qed.

Lemma keeps_driver_loop user count results :
  keeps_stock pop ->
  keeps_stock
    (driver_loop env cls pop handlers_get push_other repush other_description
                 empty_msg cannot_msg failed_msg user count results).
Proof.
  intros Hpop db. destruct count as [|count]; [split; reflexivity|].
  rewrite driver_loop_step. specialize (Hpop db).
  destruct (pop db) as [[[op|]|e] db']; exact Hpop.
Qed.
End DriverProperties.

Lemma keeps_perform_undo env user count :
  keeps_stock (perform_undo env user count).
Proof. apply keeps_driver_loop, keeps_UndoStack_pop. Qed.

Lemma keeps_perform_redo env user count :
  keeps_stock (perform_redo env user count).
Proof. apply keeps_driver_loop, keeps_RedoStack_pop. Qed.

(** Whatever record is on top of the undo stack, [perform_undo] with a
    positive count removes it and raises [AttributeError]; no handler
    runs and nothing is pushed back. *)
Lemma perform_undo_loses_top env user count db top :
  0 < count ->
  Stack_top (rows (undo_stack db)) = Some top ->
  perform_undo env user count db
  = (Raise (mkExn AttributeError
              "'UndoStack' object has no attribute 'operation_type'"),
     set_undo_stack
       (filter_rows (fun r => negb (StackRow.id r =? StackRow.id top))) db).
Proof.
  intros Hc Htop. unfold perform_undo.
  destruct (Z.to_nat count) as [|n] eqn:E; [lia|].
  rewrite driver_loop_step.
  unfold UndoStack_pop, Stack_pop, atomic, bind at 1, read.
  rewrite Htop. reflexivity.
Qed.

(* ===================================================================== *)
(** * The ledger invariants over sequences of operations *)
(* ===================================================================== *)

Lemma preserves_redo_allocation (P : DB -> Prop) env data user :
  (forall order_id, preserves P (allocate_order env order_id user)) ->
  preserves P (redo_allocation env data user).
Proof.
  intros Halloc. unfold redo_allocation.
  apply preserves_bind;
    [apply unchanged_preserves, unchanged_data_get|intros order_id].
  apply preserves_bind; [apply preserves_lift|intros order_pk].
  destruct order_pk as [k|]; [|apply preserves_raise].
  apply preserves_bind; [apply Halloc|intros ?; apply preserves_ret].
Qed.

Lemma run_op_nonneg env op db :
  available_nonneg db -> available_nonneg (run_op env op db).
Proof.
  assert (Halloc : forall order_id user,
             preserves available_nonneg (allocate_order env order_id user)).
  { intros. apply preserves_allocate_order;
      [exact stock_prop_available_nonneg|].
    intros. eapply decrement_keeps_nonneg; eassumption. }
  destruct op; intros H; cbn [snd run_op].
  - exact (Halloc _ _ db H).
  - apply (@preserves_allocate_from_batch available_nonneg);
      [exact stock_prop_available_nonneg| |exact H].
    intros. eapply decrement_keeps_nonneg; eassumption.
  - rewrite unchanged_deallocate. exact H.
  - rewrite unchanged_undo_allocation. exact H.
  - rewrite unchanged_undo_receive. exact H.
  - rewrite unchanged_undo_ship. exact H.
  - rewrite unchanged_undo_restock. exact H.
  - apply (preserves_redo_allocation (P:=available_nonneg));
      [intros; apply Halloc|exact H].
  - rewrite unchanged_redo_receive. exact H.
  - apply (keeps_stock_preserves stock_prop_available_nonneg
             (keeps_perform_undo env user count)). exact H.
  - apply (keeps_stock_preserves stock_prop_available_nonneg
             (keeps_perform_redo env user count)). exact H.
  - apply (@preserves_reserve_nonneg batch qty db H).
Qed.

Lemma run_op_balanced env op db :
  records_allocations op = true ->
  ledger_balanced db -> ledger_balanced (run_op env op db).
Proof.
  assert (Halloc : forall order_id user,
             preserves ledger_balanced (allocate_order env order_id user)).
  { intros. apply preserves_allocate_order;
      [exact stock_prop_ledger_balanced|].
    intros. eapply decrement_keeps_balance; eassumption. }
  destruct op; intros Hrec H; cbn [snd run_op]; try discriminate Hrec.
  - exact (Halloc _ _ db H).
  - apply (@preserves_allocate_from_batch ledger_balanced);
      [exact stock_prop_ledger_balanced| |exact H].
    intros. eapply decrement_keeps_balance; eassumption.
  - rewrite unchanged_deallocate. exact H.
  - rewrite unchanged_undo_allocation. exact H.
  - rewrite unchanged_undo_receive. exact H.
  - rewrite unchanged_undo_ship. exact H.
  - rewrite unchanged_undo_restock. exact H.
  - apply (preserves_redo_allocation (P:=ledger_balanced));
      [intros; apply Halloc|exact H].
  - rewrite unchanged_redo_receive. exact H.
  - apply (keeps_stock_preserves stock_prop_ledger_balanced
             (keeps_perform_undo env user count)). exact H.
  - apply (keeps_stock_preserves stock_prop_ledger_balanced
             (keeps_perform_redo env user count)). exact H.
Qed.

(** C1 as stated does not hold: [Batch.reserve] on its own moves stock
    without an Allocation row.  On the test database, where every batch is
    full and nothing is allocated, the ledger is balanced; after reserving
    20 units from LOT-A it is not: 50 - 30 = 20 units are gone from the
    batch and no Allocation references it. *)
Lemma reserve_unbalances_ledger :
  let lot_a := Batch.mk 1 1 "LOT-A" 50000 50000 (Some 5) "available" in
  let db := fefo_db 120000 in
  let db' := run_ops (test_env sqlite3) [OpReserve lot_a 20000] db in
  available_nonneg db /\ ledger_balanced db
  /\ ~ (available_nonneg db' /\ ledger_balanced db').
Proof.
  cbv zeta. split; [|split].
  - intros b Hin. cbn in Hin.
    destruct Hin as [<-|[<-|[<-|[]]]]; cbn; lia.
  - intros b Hin. cbn in Hin.
    destruct Hin as [<-|[<-|[<-|[]]]]; reflexivity.
  - intros [_ H].
    specialize (H (Batch.mk 1 1 "LOT-A" 50000 30000 (Some 5) "available")).
    lapply H; [vm_compute; discriminate|].
    vm_compute. left. reflexivity.
Qed.

(** C1 (amended).  Over every sequence of engine operations
    ([allocate_order], [OrderItem.allocate_from_batch], deallocation, the
    undo and redo handlers, [perform_undo], [perform_redo] and
    [Batch.reserve]), [available_qty >= 0] for every batch carries over
    from the initial database; and over every such sequence without a bare
    [Batch.reserve], the equation [received_qty - available_qty = sum of
    qty_allocated over the Allocation rows of the batch] carries over from
    the initial database to the final one, for every batch. *)
Theorem ledger_invariant (env : Env) (ops : list EngineOp) (db : DB) :
  (available_nonneg db -> available_nonneg (run_ops env ops db))
  /\ (forallb records_allocations ops = true ->
      ledger_balanced db -> ledger_balanced (run_ops env ops db)).
Proof.
  unfold run_ops. revert db. induction ops as [|op ops IH]; intros db.
  - split; intros; assumption.
  - cbn [fold_left forallb]. destruct (IH (run_op env op db)) as [IH1 IH2].
    split.
    + intros H. apply IH1, run_op_nonneg, H.
    + intros Hall H. apply andb_true_iff in Hall. destruct Hall as [Hop Hall].
      apply IH2; [exact Hall|]. apply run_op_balanced; assumption.
Qed.

Lemma ledger_invariant_witness :
  let ops := [ OpAllocateOrder 1 (Some 7);
               OpDeallocate 1 (Some 7);
               OpPerformUndo (Some 7) 1 ] in
  available_nonneg (run_ops (test_env sqlite3) ops (fefo_db 120000))
  /\ ledger_balanced (run_ops (test_env sqlite3) ops (fefo_db 120000)).
Proof.
  cbv zeta.
  pose proof (ledger_invariant (test_env sqlite3)
                [ OpAllocateOrder 1 (Some 7);
                  OpDeallocate 1 (Some 7);
                  OpPerformUndo (Some 7) 1 ]
                (fefo_db 120000)) as [Hn Hb].
  split.
  - apply Hn. intros b Hin. cbn in Hin.
    destruct Hin as [<-|[<-|[<-|[]]]]; cbn; lia.
  - apply Hb; [reflexivity|]. intros b Hin. cbn in Hin.
    destruct Hin as [<-|[<-|[<-|[]]]]; reflexivity.
Defined.

(* ===================================================================== *)
(** * The order of the candidate query *)
(* ===================================================================== *)

Lemma insert_by_perm {A} (leb : A -> A -> bool) x l :
  Permutation (x :: l) (insert_by leb x l).
Proof.
  induction l as [|y l IH]; cbn; [reflexivity|].
  destruct (leb x y); [reflexivity|].
  rewrite perm_swap. apply perm_skip. exact IH.
Qed.

Lemma sort_by_perm {A} (leb : A -> A -> bool) l :
  Permutation l (sort_by leb l).
Proof.
  induction l as [|x l IH]; cbn; [reflexivity|].
  rewrite <- insert_by_perm. apply perm_skip. exact IH.
Qed.

Lemma insert_by_sorted {A} (leb : A -> A -> bool) x l :
  (forall a b, leb a b = false -> leb b a = true) ->
  Sorted (fun a b => leb a b = true) l ->
  Sorted (fun a b => leb a b = true) (insert_by leb x l).
Proof.
  intros Htot Hs. induction Hs as [|y l Hs IH Hhd]; cbn.
  - repeat constructor.
  - destruct (leb x y) eqn:E.
    + constructor; [constructor; assumption|constructor; exact E].
    + constructor; [exact IH|].
      destruct l as [|z l]; cbn.
      * constructor. apply Htot. exact E.
      * destruct (leb x z); constructor.
        -- apply Htot. exact E.
        -- inversion Hhd. assumption.
Qed.

Lemma sort_by_sorted {A} (leb : A -> A -> bool) l :
  (forall a b, leb a b = false -> leb b a = true) ->
  Sorted (fun a b => leb a b = true) (sort_by leb l).
Proof.
  intros Htot. induction l as [|x l IH]; cbn; [constructor|].
  apply insert_by_sorted; assumption.
Qed.

Lemma expiry_pk_leb_total e a b :
  expiry_pk_leb e a b = false -> expiry_pk_leb e b a = true.
Proof.
  unfold expiry_pk_leb, expiry_compare.
  destruct (Batch.expiry_date a) as [x|], (Batch.expiry_date b) as [y|];
    try (destruct (nulls_first e); cbn; congruence).
  - rewrite (Z.compare_antisym x y).
    destruct (x ?= y); cbn; try congruence.
    intros H. apply Z.leb_gt in H. apply Z.leb_le. lia.
  - intros H. apply Z.leb_gt in H. apply Z.leb_le. lia.
Qed.

(** The candidates of a line are the eligible batches of its item, each
    once, in the order of [ORDER BY expiry_date, id] of the engine. *)
Lemma candidates_sorted env item db :
  exists candidates,
    eligible_batches env item db = (Ok (map Batch.id candidates), db)
    /\ Sorted (fun a b => expiry_pk_leb (engine env) a b = true) candidates
    /\ Permutation (filter (is_eligible env item) (rows (batches db)))
                   candidates.
Proof.
  eexists. split; [reflexivity|]. split.
  - apply sort_by_sorted, expiry_pk_leb_total.
  - apply sort_by_perm.
Qed.

(** Where a batch without expiry date stands against one with a date:
    before it exactly on the engines that sort NULL first. *)
Lemma null_expiry_position e a b d :
  Batch.expiry_date a = None -> Batch.expiry_date b = Some d ->
  expiry_pk_leb e a b = nulls_first e
  /\ expiry_pk_leb e b a = negb (nulls_first e).
Proof.
  intros Ha Hb. unfold expiry_pk_leb, expiry_compare. rewrite Ha, Hb.
  destruct (nulls_first e); split; reflexivity.
Qed.

(* ===================================================================== *)
(** * The task queue: first in, first out *)
(* ===================================================================== *)

Lemma list_set_after {A} (pre : list A) (x v : A) (post : list A) n :
  n = length pre ->
  list_set (pre ++ x :: post) n v = Some (pre ++ v :: post).
Proof. intros ->. apply list_set_middle. Qed.

Lemma nth_error_after {A} (pre : list A) (x : A) (post : list A) n :
  n = length pre -> nth_error (pre ++ x :: post) n = Some x.
Proof. intros ->. apply nth_error_middle. Qed.

Section QueueProperties.
Variable T : Type.
Implicit Types (q : ManualQueue.t T) (pending vs : list T) (v : T).

Lemma queue_holds_init capacity :
  exists k, (Z.to_nat capacity <= k)%nat
            /\ queue_holds (ManualQueue.init T capacity) 0 [] k.
Proof.
  unfold ManualQueue.init.
  exists (Z.to_nat (if capacity <=? 0 then 16 else capacity)). split.
  - destruct (capacity <=? 0) eqn:E; [apply Z.leb_le in E|]; lia.
  - unfold queue_holds.
    cbn [ManualQueue._data ManualQueue._head ManualQueue._tail
         ManualQueue._size length map repeat app Nat.add].
    rewrite Nat.Div0.mod_0_l. repeat split; reflexivity.
Qed.

Lemma queue_enqueue_holds q done pending k v :
  queue_holds q done pending (S k) ->
  exists q', ManualQueue.enqueue q v = Ok q'
             /\ queue_holds q' done (pending ++ [v]) k.
Proof.
  intros (Hd & Hh & Ht & Hs). destruct q as [data head tail size].
  cbn [ManualQueue._data ManualQueue._head ManualQueue._tail
       ManualQueue._size] in Hd, Hh, Ht, Hs.
  assert (Hlen : length data = (done + length pending + S k)%nat).
  { rewrite Hd, !length_app, !repeat_length, length_map. lia. }
  rewrite Nat.mod_small in Ht by lia.
  unfold ManualQueue.enqueue.
  cbn [ManualQueue._data ManualQueue._head ManualQueue._tail
       ManualQueue._size].
  destruct (Nat.eqb size (length data)) eqn:E;
    [apply Nat.eqb_eq in E; lia|].
  cbn [ManualQueue._data ManualQueue._head ManualQueue._tail
       ManualQueue._size].
  rewrite Hd. cbn [repeat]. rewrite app_assoc.
  rewrite (@list_set_after _ (repeat None done ++ map Some pending) None
             (Some v) (repeat None k) tail)
    by (rewrite length_app, repeat_length, length_map; exact Ht).
  eexists. split; [reflexivity|].
  unfold queue_holds.
  cbn [ManualQueue._data ManualQueue._tail ManualQueue._head ManualQueue._size].
  rewrite !length_app, repeat_length, length_map. cbn [length].
  rewrite repeat_length.
  repeat split.
  - rewrite map_app, <- !app_assoc. reflexivity.
  - rewrite Hh. f_equal. lia.
  - rewrite Ht. f_equal; lia.
  - lia.
Qed.

Lemma queue_enqueue_all_holds vs : forall q done pending k,
  queue_holds q done pending (length vs + k) ->
  exists q', ManualQueue.enqueue_all q vs = Ok q'
             /\ queue_holds q' done (pending ++ vs) k.
Proof.
  induction vs as [|v vs IH]; intros q done pending k H.
  - exists q. rewrite app_nil_r. split; [reflexivity|exact H].
  - cbn [length Nat.add] in H.
    destruct (queue_enqueue_holds v H) as (q1 & He & H1).
    destruct (IH _ _ _ _ H1) as (q2 & He2 & H2).
    exists q2. cbn. rewrite He, He2. split; [reflexivity|].
    rewrite <- app_assoc in H2. exact H2.
Qed.

Lemma queue_dequeue_holds q done v pending k :
  queue_holds q done (v :: pending) k ->
  exists q', ManualQueue.dequeue q = Ok (Some v, q')
             /\ queue_holds q' (S done) pending k.
Proof.
  intros (Hd & Hh & Ht & Hs). destruct q as [data head tail size].
  cbn [ManualQueue._data ManualQueue._head ManualQueue._tail
       ManualQueue._size] in Hd, Hh, Ht, Hs.
  cbn [length] in Hh, Ht, Hs.
  rewrite Nat.mod_small in Hh by lia.
  unfold ManualQueue.dequeue.
  cbn [ManualQueue._data ManualQueue._head ManualQueue._tail
       ManualQueue._size].
  rewrite Hs, Hd. cbn [map app].
  rewrite (@nth_error_after _ (repeat None done) (Some v) _ head)
    by (rewrite repeat_length; exact Hh).
  rewrite (@list_set_after _ (repeat None done) (Some v) None _ head)
    by (rewrite repeat_length; exact Hh).
  eexists. split; [reflexivity|].
  unfold queue_holds.
  cbn [ManualQueue._data ManualQueue._tail ManualQueue._head ManualQueue._size].
  rewrite !length_app, repeat_length. cbn [length].
  rewrite length_app, length_map, repeat_length.
  repeat split.
  - change (None :: map Some pending ++ repeat None k)
      with ([@None T] ++ map Some pending ++ repeat None k).
    rewrite app_assoc. f_equal.
    change [@None T] with (repeat (@None T) 1).
    rewrite <- repeat_app. f_equal. lia.
  - rewrite Hh. f_equal; lia.
  - rewrite Ht. f_equal; lia.
Qed.
End QueueProperties.

Lemma process_tasks_step env user task_q tally db :
  process_tasks env user task_q tally db =
  if ManualQueue.is_empty task_q then (Ok tally, db)
  else match ManualQueue.dequeue task_q with
       | Raise e => (Raise e, db)
       | Ok (None, _) =>
           (Raise (mkExn AttributeError
                     "'NoneType' object has no attribute 'item'"), db)
       | Ok (Some order_item, task_q') =>
           match _allocate_item_with_stack env order_item user db with
           | (Raise e, db') => (Raise e, db')
           | (Ok result, db') =>
               process_tasks env user task_q' (tally_add tally result) db'
           end
       end.
Proof.
  funelim (process_tasks env user task_q tally db).
  all: rewrite Hc; try rewrite Hd; try rewrite Heq; reflexivity.
Qed.

Lemma process_tasks_forward env user pending :
  forall task_q done k tally db,
    queue_holds task_q done pending k ->
    process_tasks env user task_q tally db
    = process_forward env user pending tally db.
Proof.
  induction pending as [|order_item pending IH];
    intros task_q done k tally db H.
  - rewrite process_tasks_step. destruct H as (_ & _ & _ & Hs).
    unfold ManualQueue.is_empty. rewrite Hs. reflexivity.
  - rewrite process_tasks_step.
    assert (He : ManualQueue.is_empty task_q = false).
    { destruct H as (_ & _ & _ & Hs).
      unfold ManualQueue.is_empty. rewrite Hs. reflexivity. }
    rewrite He. apply queue_dequeue_holds in H. destruct H as (q' & Hd & H').
    rewrite Hd. cbn [process_forward]. unfold bind.
    destruct (_allocate_item_with_stack env order_item user db)
      as [[result|e] db']; [|reflexivity].
    apply (IH _ _ _ _ _ H').
Qed.

(** The queue built by [allocate_order] hands the line items to
    [_allocate_item_with_stack] in the order of [order_items]. *)
Lemma task_queue_fifo (order_items : list OrderItem.inst) :
  exists task_q,
    ManualQueue.enqueue_all
      (ManualQueue.init OrderItem.inst
         (Z.max 16 (Z.of_nat (length order_items))))
      order_items = Ok task_q
    /\ forall env user tally db,
        process_tasks env user task_q tally db
        = process_forward env user order_items tally db.
Proof.
  destruct (queue_holds_init OrderItem.inst
              (Z.max 16 (Z.of_nat (length order_items)))) as (k0 & Hk & H0).
  replace k0 with (length order_items + (k0 - length order_items))%nat in H0
    by lia.
  apply queue_enqueue_all_holds in H0. destruct H0 as (q & He & H).
  exists q. split; [exact He|].
  intros env user tally db. eapply process_tasks_forward. exact H.
Qed.

(* ===================================================================== *)
(** * The release step of the deallocation view *)
(* ===================================================================== *)

Lemma allocated_against_remove (l : list Allocation.t) (a : Allocation.t) k :
  NoDup (map Allocation.id l) -> In a l ->
  fold_right
    (fun x acc => if Allocation.batch x =? k
                  then Allocation.qty_allocated x + acc else acc)
    0 (filter (fun x => negb (Allocation.id x =? Allocation.id a)) l)
  = fold_right
      (fun x acc => if Allocation.batch x =? k
                    then Allocation.qty_allocated x + acc else acc)
      0 l
    - (if Allocation.batch a =? k then Allocation.qty_allocated a else 0).
Proof.
  induction l as [|x l IH]; [contradiction|].
  cbn [map]. intros Hnd Hin. inversion Hnd as [|? ? Hnot Hnd']. subst.
  cbn [filter fold_right]. destruct Hin as [->|Hin].
  - rewrite Z.eqb_refl. cbn [negb].
    replace (filter _ l) with l.
    + destruct (Allocation.batch a =? k); lia.
    + symmetry. clear IH Hnd Hnd'.
      induction l as [|y l IHl]; [reflexivity|]. cbn [filter].
      replace (Allocation.id y =? Allocation.id a) with false.
      * cbn [negb]. f_equal. apply IHl. intros Hy. apply Hnot. right. exact Hy.
      * symmetry. apply Z.eqb_neq. intros E. apply Hnot. left. exact E.
  - destruct (Allocation.id x =? Allocation.id a) eqn:E.
    + exfalso. apply Z.eqb_eq in E. apply Hnot. rewrite E.
      apply in_map. exact Hin.
    + cbn [negb fold_right]. rewrite (IH Hnd' Hin).
      destruct (Allocation.batch x =? k); lia.
Qed.

Lemma batch_save_stored b x db db1 :
  find_pk Batch.id (Some (Batch.id b)) (rows (batches db)) = Some x ->
  Batch_save b db = (Ok tt, db1) ->
  db1 = set_batches
          (map_rows (fun b' => if Batch.id b' =? Batch.id b then b else b')) db.
Proof.
  intros Hf. unfold Batch_save.
  destruct (negb (batch_check_ok b)); [discriminate|].
  destruct (negb (batch_unique_ok b _)); [discriminate|].
  rewrite Hf. intros H. inversion H. reflexivity.
Qed.

(** Had the view reached its commit, each release would have kept the
    ledger balanced: with unique keys, adding the quantity of a stored
    Allocation back to its batch and deleting that Allocation row keeps
    [received_qty - available_qty] equal to the sum of the remaining
    rows. *)
Lemma release_keeps_balance order order_item user acc allocation db r db' :
  NoDup (map Batch.id (rows (batches db))) ->
  NoDup (map Allocation.id (rows (allocations db))) ->
  In allocation (rows (allocations db)) ->
  ledger_balanced db ->
  deallocate_allocation order order_item user acc allocation db = (Ok r, db') ->
  ledger_balanced db'.
Proof.
  intros Hnb Hna Hin Hbal.
  unfold deallocate_allocation, bind at 1, Batch_get, objects_get.
  destruct (find_pk Batch.id (Some (Allocation.batch allocation))
                    (rows (batches db))) as [batch|] eqn:Hf; [|discriminate].
  pose proof (find_pk_id _ _ _ Hf) as Hid.
  pose proof (find_pk_In _ _ _ Hf) as Hbin.
  set (batch' := Batch.with_available_qty _ batch).
  unfold bind at 1.
  destruct (Batch_save batch' db) as [[[]|e] db1] eqn:Hs; [|discriminate].
  apply (@batch_save_stored batch' batch) in Hs;
    [|cbn [batch' Batch.with_available_qty Batch.id]; rewrite Hid; exact Hf].
  unfold bind at 1.
  pose proof (objects_get_state "Item" items Item.id
                (Some (OrderItem.item order_item)) db1) as Hitem.
  fold Item_get in Hitem.
  destruct (Item_get (Some (OrderItem.item order_item)) db1)
    as [[item|e] db2]; [|discriminate].
  cbn [snd] in Hitem. subst db2.
  unfold bind at 1.
  match goal with
  | |- context [TransactionLog_objects_create ?kw db1] =>
      pose proof (keeps_TransactionLog_create kw db1) as [Hkb Hka];
      destruct (TransactionLog_objects_create kw db1) as [[i|e] db3];
      [|discriminate]
  end.
  cbn [snd] in Hkb, Hka.
  unfold bind, Allocation_delete, write, ret. intros H. inversion H. subst db'.
  clear H. intros b Hb.
  cbn [batches set_allocations] in Hb. rewrite Hkb, Hs in Hb.
  cbn [batches set_batches map_rows rows] in Hb.
  unfold allocated_against.
  cbn [allocations set_allocations filter_rows rows pk_is].
  rewrite Hka, Hs. cbn [allocations set_batches].
  rewrite (@allocated_against_remove _ allocation (Batch.id b) Hna Hin).
  apply in_map_iff in Hb. destruct Hb as (b0 & Hb0 & Hb0in).
  specialize (Hbal b0 Hb0in). unfold allocated_against in Hbal.
  subst batch'. cbn [Batch.with_available_qty Batch.id] in Hb0.
  destruct (Batch.id b0 =? Batch.id batch) eqn:E.
  - apply Z.eqb_eq in E.
    assert (b0 = batch)
      by (apply (unique_key_row Batch.id (rows (batches db))); assumption).
    subst b0 b.
    cbn [Batch.with_available_qty Batch.id Batch.received_qty
         Batch.available_qty].
    rewrite Hid, Z.eqb_refl. rewrite Hid in Hbal. lia.
  - subst b0. rewrite <- Hid, Z.eqb_sym, E. lia.
Qed.

(* ===================================================================== *)
(** * The manual stack against a list *)
(* ===================================================================== *)

Section StackAgainstList.
Variable T : Type.
Implicit Types (s : ManualStack.t T) (l : list T) (k : nat).

Lemma stack_peek_holds s elems v k :
  stack_holds s (elems ++ [v]) k -> ManualStack.peek s = Ok (Some v).
Proof.
  intros [Hd Ht]. destruct s as [data top]. cbn in Hd, Ht. subst data top.
  unfold ManualStack.peek. cbn [ManualStack._data ManualStack._top].
  rewrite length_app, Nat.add_comm. cbn [length Nat.add].
  rewrite map_app, <- app_assoc. cbn [map app].
  rewrite nth_error_after_map. reflexivity.
Qed.

Lemma stack_call_simulation s l k op :
  stack_holds s (rev l) k ->
  fst (stack_call s op) = fst (list_stack_call l op)
  /\ exists k', stack_holds (snd (stack_call s op))
                            (rev (snd (list_stack_call l op))) k'.
Proof.
  intros H. destruct op as [v| | | |]; cbn [stack_call list_stack_call].
  - destruct (stack_push_holds v H) as (s' & k' & Hp & H').
    rewrite Hp. cbn. split; [reflexivity|]. exists k'. exact H'.
  - destruct l as [|v rest].
    + destruct H as [Hd Ht]. cbn in Ht. unfold ManualStack.pop.
      rewrite Ht. cbn. split; [reflexivity|].
      exists k. split; [exact Hd|exact Ht].
    + cbn [rev] in H. apply stack_pop_holds in H.
      destruct H as (s' & Hp & H').
      rewrite Hp. cbn. split; [reflexivity|]. eexists. exact H'.
  - destruct l as [|v rest].
    + pose proof H as [Hd Ht]. cbn in Ht. unfold ManualStack.peek.
      rewrite Ht. cbn. split; [reflexivity|]. exists k. exact H.
    + cbn [rev] in H. erewrite stack_peek_holds by exact H. cbn.
      split; [reflexivity|]. exists k. exact H.
  - cbn. split; [|exists k; exact H].
    destruct H as [_ Ht]. unfold ManualStack.size.
    rewrite Ht, length_rev. reflexivity.
  - cbn. split; [|exists k; exact H].
    rewrite (stack_is_empty_holds H).
    destruct l as [|v rest]; [reflexivity|].
    cbn [rev]. destruct (rev rest); reflexivity.
Qed.

Lemma stack_run_simulation ops : forall s l k,
  stack_holds s (rev l) k ->
  fst (run_calls (@stack_call T) ops s)
  = fst (run_calls (@list_stack_call T) ops l)
  /\ exists k', stack_holds (snd (run_calls (@stack_call T) ops s))
                  (rev (snd (run_calls (@list_stack_call T) ops l))) k'.
Proof.
  induction ops as [|op ops IH]; intros s l k H.
  - cbn. split; [reflexivity|]. exists k. exact H.
  - cbn [run_calls].
    destruct (@stack_call_simulation s l k op H) as (Hout & k1 & H1).
    destruct (stack_call s op) as [out s1].
    destruct (list_stack_call l op) as [out' l1]. cbn [fst snd] in Hout, H1.
    destruct (IH _ _ _ H1) as (Houts & k2 & H2).
    destruct (run_calls (@stack_call T) ops s1) as [outs s2].
    destruct (run_calls (@list_stack_call T) ops l1) as [outs' l2].
    cbn [fst snd] in *. subst. split; [reflexivity|].
    exists k2. exact H2.
Qed.

(** X1.  A [ManualStack] of any initial capacity answers every sequence of
    [push], [pop], [peek], [size] and [is_empty] calls as a list used as a
    stack does: last in, first out, through every growth of the array, with
    [IndexError] for [pop] and [peek] on an empty stack. *)
Theorem manual_stack_is_lifo (capacity : Z) (ops : list (ContainerOp T)) :
  fst (run_calls (@stack_call T) ops (ManualStack.init T capacity))
  = fst (run_calls (@list_stack_call T) ops []).
Proof.
  destruct (stack_holds_init T capacity) as [k H].
  exact (proj1 (@stack_run_simulation ops _ [] k H)).
Qed.

End StackAgainstList.

(* ===================================================================== *)
(** * The snapshot of the batch stack *)
(* ===================================================================== *)

Section StackSnapshot.
Variables (T : Type) (label : T -> string).
Implicit Types (s stack temp : ManualStack.t T) (k : nat).

Lemma stack_drain_step stack temp acc :
  stack_drain label stack temp acc =
  if ManualStack.is_empty stack then Ok (acc, stack, temp)
  else match ManualStack.pop stack with
       | Raise e => Raise e
       | Ok (None, _) =>
           Raise (mkExn TypeError "'NoneType' object is not subscriptable")
       | Ok (Some b, stack') =>
           match ManualStack.push temp b with
           | Raise e => Raise e
           | Ok temp' => stack_drain label stack' temp' (acc ++ [label b])
           end
       end.
Proof.
  funelim (stack_drain label stack temp acc).
  all: rewrite Hc; try rewrite Hp; try rewrite Heq; reflexivity.
Qed.

Lemma stack_refill_step temp stack :
  stack_refill temp stack =
  if ManualStack.is_empty temp then Ok (temp, stack)
  else match ManualStack.pop temp with
       | Raise e => Raise e
       | Ok (cell, temp') =>
           match stack_push_cell stack cell with
           | Raise e => Raise e
           | Ok stack' => stack_refill temp' stack'
           end
       end.
Proof.
  funelim (stack_refill temp stack).
  all: rewrite Hc; try rewrite Hp; try rewrite Heq; reflexivity.
Qed.

Lemma stack_drain_holds elems : forall stack k temp telems tk acc,
  stack_holds stack elems k ->
  stack_holds temp telems tk ->
  exists stack0 k0 temp' tk',
    stack_drain label stack temp acc
    = Ok (acc ++ map label (rev elems), stack0, temp')
    /\ stack_holds stack0 [] k0
    /\ stack_holds temp' (telems ++ rev elems) tk'.
Proof.
  induction elems as [|v elems IH] using rev_ind;
    intros stack k temp telems tk acc H Ht.
  - rewrite stack_drain_step. erewrite stack_is_empty_holds by exact H.
    exists stack, k, temp, tk. cbn. rewrite !app_nil_r. auto.
  - rewrite stack_drain_step. erewrite stack_is_empty_holds by exact H.
    apply stack_pop_holds in H. destruct H as (s1 & Hp & H1).
    destruct (stack_push_holds v Ht) as (t1 & tk1 & Hq & Ht1).
    destruct (IH s1 _ t1 _ _ (acc ++ [label v]) H1 Ht1)
      as (s0 & k0 & t' & tk' & Hd & H0 & Ht').
    exists s0, k0, t', tk'.
    replace (match elems ++ [v] with [] => true | _ :: _ => false end)
      with false by (destruct elems; reflexivity).
    rewrite Hp, Hq, Hd, rev_app_distr. cbn [rev app map].
    rewrite <- !app_assoc in *. cbn [app] in *. auto.
Qed.

Lemma stack_refill_holds telems : forall temp tk stack elems k,
  stack_holds temp telems tk ->
  stack_holds stack elems k ->
  exists temp' stack' k',
    stack_refill temp stack = Ok (temp', stack')
    /\ stack_holds stack' (elems ++ rev telems) k'.
Proof.
  induction telems as [|v telems IH] using rev_ind;
    intros temp tk stack elems k Ht H.
  - rewrite stack_refill_step. erewrite stack_is_empty_holds by exact Ht.
    exists temp, stack, k. cbn. rewrite app_nil_r. auto.
  - rewrite stack_refill_step. erewrite stack_is_empty_holds by exact Ht.
    apply stack_pop_holds in Ht. destruct Ht as (t1 & Hp & Ht1).
    destruct (stack_push_holds v H) as (s1 & k1 & Hq & H1).
    destruct (IH t1 _ s1 _ _ Ht1 H1) as (t' & s' & k' & Hr & H').
    exists t', s', k'.
    replace (match telems ++ [v] with [] => true | _ :: _ => false end)
      with false by (destruct telems; reflexivity).
    rewrite Hp. cbn [stack_push_cell]. rewrite Hq, Hr, rev_app_distr.
    cbn [rev app]. rewrite <- app_assoc in H'. cbn [app] in H'. auto.
Qed.

(** X2.  The stack snapshot that the batch processor takes while tracing
    (pop everything into a temporary stack, then pop the temporary stack
    back) returns the labels of the batches left, next to be popped first,
    and puts the stack back: every later sequence of calls is answered as it
    would have been without the snapshot. *)
Theorem stack_snapshot_restores (capacity : Z)
        (ops later : list (ContainerOp T)) :
  let stack :=
    snd (run_calls (@stack_call T) ops (ManualStack.init T capacity)) in
  let contents := snd (run_calls (@list_stack_call T) ops []) in
  exists stack',
    stack_snapshot label stack = Ok (map label contents, stack')
    /\ fst (run_calls (@stack_call T) later stack')
       = fst (run_calls (@stack_call T) later stack).
Proof.
  intros stack contents.
  destruct (stack_holds_init T capacity) as [k0 H0].
  destruct (@stack_run_simulation T ops _ [] k0 H0) as (_ & k & H).
  fold stack contents in H.
  destruct (stack_holds_init T (Z.of_nat (ManualStack.size stack)))
    as [tk Ht].
  destruct (@stack_drain_holds _ stack k _ [] tk [] H Ht)
    as (s0 & k1 & t' & tk' & Hd & Hs0 & Ht').
  destruct (@stack_refill_holds _ t' tk' s0 [] k1 Ht' Hs0)
    as (t'' & s' & k' & Hr & H').
  cbn [app] in Hd, H', Ht'. rewrite !rev_involutive in *.
  exists s'. split.
  - unfold stack_snapshot. rewrite Hd, Hr. reflexivity.
  - rewrite (proj1 (@stack_run_simulation T later s' contents k' H')).
    rewrite (proj1 (@stack_run_simulation T later stack contents k H)).
    reflexivity.
Qed.

End StackSnapshot.

(* ===================================================================== *)
(** * The manual queue against a list *)
(* ===================================================================== *)

Lemma list_set_length {A} (l : list A) : forall i v l',
  list_set l i v = Some l' -> length l' = length l.
Proof.
  induction l as [|h t IH]; intros i v l' H; [discriminate|].
  destruct i as [|i]; cbn in H.
  - inversion H. reflexivity.
  - destruct (list_set t i v) as [t'|] eqn:E; [|discriminate].
    inversion H. cbn. f_equal. eapply IH. exact E.
Qed.

Lemma list_set_lt {A} (l : list A) : forall i v,
  (i < length l)%nat -> exists l', list_set l i v = Some l'.
Proof.
  induction l as [|h t IH]; intros i v H; [cbn in H; lia|].
  destruct i as [|i]; cbn.
  - eexists. reflexivity.
  - destruct (IH i v) as [t' E]; [cbn in H; lia|].
    rewrite E. eexists. reflexivity.
Qed.

Lemma nth_list_set {A} (l : list A) (d : A) : forall i v l' j,
  list_set l i v = Some l' ->
  nth j l' d = if Nat.eqb j i then v else nth j l d.
Proof.
  induction l as [|h t IH]; intros i v l' j H; [discriminate|].
  destruct i as [|i]; cbn in H.
  - inversion H. destruct j; reflexivity.
  - destruct (list_set t i v) as [t'|] eqn:E; [|discriminate].
    inversion H. destruct j as [|j]; [reflexivity|].
    cbn. eapply IH. exact E.
Qed.

Lemma mod_add_inj (h a b c : nat) :
  (a < c)%nat -> (b < c)%nat ->
  Nat.modulo (h + a) c = Nat.modulo (h + b) c -> a = b.
Proof.
  intros Ha Hb E.
  pose proof (Nat.Div0.div_mod (h + a) c) as H1.
  pose proof (Nat.Div0.div_mod (h + b) c) as H2.
  rewrite E in H1.
  remember (Nat.div (h + a) c) as q1. remember (Nat.div (h + b) c) as q2.
  remember (Nat.modulo (h + b) c) as r.
  assert (q1 = q2) by nia. subst q2. lia.
Qed.

Section QueueAgainstList.
Variable T : Type.
Implicit Types (q : ManualQueue.t T) (l : list T) (v : T)
         (data : list (option T)).

Lemma length_cyclic_read data start n :
  length (cyclic_read data start n) = n.
Proof. unfold cyclic_read. rewrite length_map, length_seq. reflexivity. Qed.

Lemma cyclic_read_S data start n :
  cyclic_read data start (S n)
  = cyclic_read data start n
    ++ [nth (Nat.modulo (start + n) (length data)) data None].
Proof.
  unfold cyclic_read. rewrite seq_S, map_app. reflexivity.
Qed.

Lemma cyclic_read_cons data start n :
  (start < length data)%nat ->
  cyclic_read data start (S n)
  = nth start data None
    :: cyclic_read data (Nat.modulo (start + 1) (length data)) n.
Proof.
  intros H. unfold cyclic_read. cbn [seq map].
  rewrite Nat.add_0_r, Nat.mod_small by exact H. f_equal.
  rewrite <- seq_shift, map_map. apply map_ext. intros j.
  rewrite Nat.Div0.add_mod_idemp_l. do 2 f_equal. lia.
Qed.

Lemma cyclic_read_set_outside data data' start n i (cell : option T) :
  list_set data i cell = Some data' ->
  (forall j, (j < n)%nat -> Nat.modulo (start + j) (length data) <> i) ->
  cyclic_read data' start n = cyclic_read data start n.
Proof.
  intros Hs Hout. unfold cyclic_read.
  rewrite (list_set_length _ _ _ Hs).
  apply map_ext_in. intros j Hj. apply in_seq in Hj.
  rewrite (nth_list_set _ None _ _ _ Hs).
  destruct (Nat.eqb_spec (Nat.modulo (start + j) (length data)) i) as [E|E];
    [|reflexivity].
  exfalso. apply (Hout j); [lia|exact E].
Qed.

Lemma cyclic_read_prefix (cells rest : list (option T)) :
  cyclic_read (cells ++ rest) 0 (length cells) = cells.
Proof.
  revert rest. induction cells as [|c cells IH] using rev_ind; intros rest.
  - reflexivity.
  - rewrite <- app_assoc. cbn [app].
    rewrite length_app, Nat.add_1_r, cyclic_read_S, IH. f_equal.
    cbn [Nat.add].
    rewrite Nat.mod_small by (rewrite length_app; cbn; lia).
    rewrite nth_middle. reflexivity.
Qed.

Lemma queue_rep_init capacity : queue_rep (ManualQueue.init T capacity) [].
Proof.
  unfold queue_rep, ManualQueue.init. cbn.
  rewrite repeat_length.
  assert (0 < Z.to_nat (if (capacity <=? 0)%Z then 16%Z else capacity))%nat
    by (destruct (Z.leb_spec capacity 0); lia).
  repeat split; try lia.
  rewrite Nat.Div0.mod_0_l. reflexivity.
Qed.

Lemma grow_copy_reads (old : list (option T)) :
  forall n (done : list (option T)) idx r,
  (idx < length old)%nat -> (n <= r)%nat ->
  ManualQueue._grow_copy old (done ++ repeat None r) idx (length done) n
  = Ok (done ++ cyclic_read old idx n ++ repeat None (r - n)).
Proof.
  induction n as [|n IH]; intros done idx r Hidx Hr.
  - cbn. rewrite Nat.sub_0_r. reflexivity.
  - cbn [ManualQueue._grow_copy].
    rewrite (nth_error_nth' old None Hidx).
    destruct r as [|r]; [lia|]. cbn [repeat].
    rewrite list_set_middle.
    replace (done ++ nth idx old None :: repeat None r)
      with ((done ++ [nth idx old None]) ++ repeat None r)
      by (rewrite <- app_assoc; reflexivity).
    replace (S (length done)) with (length (done ++ [nth idx old None]))
      by (rewrite length_app; cbn; lia).
    rewrite IH; [|apply Nat.mod_upper_bound; lia|lia].
    rewrite cyclic_read_cons by exact Hidx.
    rewrite <- app_assoc. reflexivity.
Qed.

Lemma queue_write_rep q l v :
  queue_rep q l ->
  (ManualQueue._size q < length (ManualQueue._data q))%nat ->
  exists d,
    list_set (ManualQueue._data q) (ManualQueue._tail q) (Some v) = Some d
    /\ queue_rep
         (ManualQueue.mk d (ManualQueue._head q)
            (Nat.modulo (ManualQueue._tail q + 1) (length d))
            (ManualQueue._size q + 1))
         (l ++ [v]).
Proof.
  intros (Hcap & Hhead & Htail & Hle & Hlen & Hread) Hroom.
  destruct q as [data head tail size].
  cbn [ManualQueue._data ManualQueue._head ManualQueue._tail
       ManualQueue._size] in *.
  assert (Htl : (tail < length data)%nat)
    by (subst tail; apply Nat.mod_upper_bound; lia).
  destruct (list_set_lt data (Some v) Htl) as [d Hd].
  exists d. split; [exact Hd|].
  pose proof (list_set_length _ _ _ Hd) as Hdl.
  unfold queue_rep. cbn [ManualQueue._data ManualQueue._head ManualQueue._tail
       ManualQueue._size].
  rewrite Hdl.
  repeat split; try lia.
  - subst tail. rewrite Nat.Div0.add_mod_idemp_l. f_equal. lia.
  - rewrite length_app. cbn. lia.
  - rewrite Nat.add_1_r, cyclic_read_S, map_app. cbn [map]. f_equal.
    + rewrite <- Hread. eapply cyclic_read_set_outside; [exact Hd|].
      intros j Hj E. subst tail.
      apply mod_add_inj in E; lia.
    + rewrite Hdl, <- Htail, (nth_list_set _ None _ _ _ Hd), Nat.eqb_refl.
      reflexivity.
Qed.

Lemma queue_grow_rep q l :
  queue_rep q l ->
  ManualQueue._size q = length (ManualQueue._data q) ->
  exists q1, ManualQueue._grow q = Ok q1 /\ queue_rep q1 l
             /\ (ManualQueue._size q1 < length (ManualQueue._data q1))%nat.
Proof.
  intros (Hcap & Hhead & Htail & Hle & Hlen & Hread) Hfull.
  destruct q as [data head tail size].
  cbn [ManualQueue._data ManualQueue._head ManualQueue._tail
       ManualQueue._size] in *.
  unfold ManualQueue._grow. cbn [ManualQueue._data ManualQueue._head ManualQueue._tail
       ManualQueue._size].
  pose proof (@grow_copy_reads data size [] head
                (Nat.max (2 * length data) 16) Hhead) as Hg.
  cbn [app length] in Hg. rewrite Hg by lia. rewrite Hread.
  eexists. split; [reflexivity|].
  assert (Hl : length (map Some l
                   ++ repeat None
                        (Nat.max (2 * length data) 16 - size))
               = Nat.max (2 * length data) 16)
    by (rewrite length_app, length_map, repeat_length; lia).
  unfold queue_rep. cbn [ManualQueue._data ManualQueue._head ManualQueue._tail
       ManualQueue._size].
  rewrite Hl.
  repeat split; try lia.
  - symmetry. apply Nat.mod_small. lia.
  - replace size with (length (map (@Some T) l)) at 2
      by (rewrite length_map; lia).
    apply cyclic_read_prefix.
Qed.

Lemma queue_enqueue_rep q l v :
  queue_rep q l ->
  exists q', ManualQueue.enqueue q v = Ok q' /\ queue_rep q' (l ++ [v]).
Proof.
  intros H. unfold ManualQueue.enqueue.
  destruct (Nat.eqb_spec (ManualQueue._size q)
                         (length (ManualQueue._data q))) as [E|E].
  - destruct (queue_grow_rep H E) as (q1 & Hg & H1 & Hroom).
    rewrite Hg. destruct (queue_write_rep v H1 Hroom) as (d & Hd & H').
    rewrite Hd. eexists. split; [reflexivity|exact H'].
  - assert (Hroom : (ManualQueue._size q
                     < length (ManualQueue._data q))%nat)
      by (destruct H as (_ & _ & _ & Hle & _); lia).
    destruct (queue_write_rep v H Hroom) as (d & Hd & H').
    rewrite Hd. eexists. split; [reflexivity|exact H'].
Qed.

Lemma queue_front_rep q v l :
  queue_rep q (v :: l) ->
  nth_error (ManualQueue._data q) (ManualQueue._head q) = Some (Some v).
Proof.
  intros (Hcap & Hhead & Htail & Hle & Hlen & Hread).
  rewrite (nth_error_nth' _ None Hhead). f_equal.
  cbn [length] in Hlen. rewrite Hlen in Hread.
  rewrite cyclic_read_cons in Hread by exact Hhead.
  cbn [map] in Hread. inversion Hread. reflexivity.
Qed.

Lemma queue_dequeue_rep q v l :
  queue_rep q (v :: l) ->
  exists q', ManualQueue.dequeue q = Ok (Some v, q') /\ queue_rep q' l.
Proof.
  intros H. pose proof (queue_front_rep H) as Hfront.
  destruct H as (Hcap & Hhead & Htail & Hle & Hlen & Hread).
  destruct q as [data head tail size].
  cbn [ManualQueue._data ManualQueue._head ManualQueue._tail
       ManualQueue._size] in *.
  unfold ManualQueue.dequeue. cbn [ManualQueue._data ManualQueue._head ManualQueue._tail
       ManualQueue._size].
  cbn [length] in Hlen. subst size. rewrite Hfront.
  destruct (list_set_lt data None Hhead) as [d Hd].
  rewrite Hd. eexists. split; [reflexivity|].
  pose proof (list_set_length _ _ _ Hd) as Hdl.
  unfold queue_rep. cbn [ManualQueue._data ManualQueue._head ManualQueue._tail
       ManualQueue._size].
  rewrite Hdl.
  repeat split; try lia.
  - apply Nat.mod_upper_bound. lia.
  - rewrite Htail, Nat.Div0.add_mod_idemp_l. f_equal. lia.
  - rewrite cyclic_read_cons in Hread by exact Hhead.
    cbn [map] in Hread. inversion Hread as [[Hv Hrest]].
    eapply cyclic_read_set_outside; [exact Hd|].
    intros j Hj E. rewrite Nat.Div0.add_mod_idemp_l in E.
    rewrite <- (Nat.mod_small head (length data)) in E at 2 by exact Hhead.
    replace (head + 1 + j)%nat with (head + (1 + j))%nat in E by lia.
    rewrite <- (Nat.add_0_r head) in E at 2.
    apply mod_add_inj in E; lia.
Qed.

Lemma queue_call_simulation q l op :
  queue_rep q l ->
  fst (queue_call q op) = fst (list_queue_call l op)
  /\ queue_rep (snd (queue_call q op)) (snd (list_queue_call l op)).
Proof.
  intros H. destruct op as [v| | | |]; cbn [queue_call list_queue_call].
  - destruct (queue_enqueue_rep v H) as (q' & He & H').
    rewrite He. cbn. split; [reflexivity|exact H'].
  - destruct l as [|v rest].
    + pose proof H as (_ & _ & _ & _ & Hlen & _). cbn in Hlen.
      unfold ManualQueue.dequeue. rewrite Hlen. cbn.
      split; [reflexivity|exact H].
    + destruct (queue_dequeue_rep H) as (q' & Hd & H').
      rewrite Hd. cbn. split; [reflexivity|exact H'].
  - destruct l as [|v rest].
    + pose proof H as (_ & _ & _ & _ & Hlen & _). cbn in Hlen.
      unfold ManualQueue.peek. rewrite Hlen. cbn.
      split; [reflexivity|exact H].
    + pose proof H as (_ & _ & _ & _ & Hlen & _). cbn in Hlen.
      unfold ManualQueue.peek. rewrite Hlen, (queue_front_rep H). cbn.
      split; [reflexivity|exact H].
  - cbn. split; [|exact H].
    destruct H as (_ & _ & _ & _ & Hlen & _). unfold ManualQueue.size.
    rewrite Hlen. reflexivity.
  - cbn. split; [|exact H].
    destruct H as (_ & _ & _ & _ & Hlen & _). unfold ManualQueue.is_empty.
    rewrite Hlen. destruct l; reflexivity.
Qed.

Lemma queue_run_simulation ops : forall q l,
  queue_rep q l ->
  fst (run_calls (@queue_call T) ops q)
  = fst (run_calls (@list_queue_call T) ops l)
  /\ queue_rep (snd (run_calls (@queue_call T) ops q))
               (snd (run_calls (@list_queue_call T) ops l)).
Proof.
  induction ops as [|op ops IH]; intros q l H.
  - cbn. split; [reflexivity|exact H].
  - cbn [run_calls].
    destruct (@queue_call_simulation q l op H) as (Hout & H1).
    destruct (queue_call q op) as [out q1].
    destruct (list_queue_call l op) as [out' l1]. cbn [fst snd] in Hout, H1.
    destruct (IH _ _ H1) as (Houts & H2).
    destruct (run_calls (@queue_call T) ops q1) as [outs q2].
    destruct (run_calls (@list_queue_call T) ops l1) as [outs' l2].
    cbn [fst snd] in *. subst. split; [reflexivity|exact H2].
Qed.

(** X3.  A [ManualQueue] of any initial capacity answers every sequence of
    [enqueue], [dequeue], [peek], [size] and [is_empty] calls as a list used
    as a queue does: first in, first out, through every wrap-around of the
    circular array and every growth, with [IndexError] for [dequeue] and
    [peek] on an empty queue. *)
Theorem manual_queue_is_fifo (capacity : Z) (ops : list (ContainerOp T)) :
  fst (run_calls (@queue_call T) ops (ManualQueue.init T capacity))
  = fst (run_calls (@list_queue_call T) ops []).
Proof.
  exact (proj1 (@queue_run_simulation ops _ []
                  (queue_rep_init capacity))).
Qed.

End QueueAgainstList.

(* ===================================================================== *)
(** * The snapshot of the order queue *)
(* ===================================================================== *)

Section QueueSnapshot.
Variables (T : Type) (label : T -> string).
Implicit Types (q temp : ManualQueue.t T) (l : list T).

Lemma queue_is_empty_rep q l :
  queue_rep q l ->
  ManualQueue.is_empty q = match l with [] => true | _ => false end.
Proof.
  intros (_ & _ & _ & _ & Hlen & _). unfold ManualQueue.is_empty.
  rewrite Hlen. destruct l; reflexivity.
Qed.

Lemma queue_drain_step q temp acc :
  queue_drain label q temp acc =
  if ManualQueue.is_empty q then Ok (acc, q, temp)
  else match ManualQueue.dequeue q with
       | Raise e => Raise e
       | Ok (None, _) =>
           Raise (mkExn AttributeError
                    "'NoneType' object has no attribute 'order_no'")
       | Ok (Some o, q') =>
           match ManualQueue.enqueue temp o with
           | Raise e => Raise e
           | Ok temp' => queue_drain label q' temp' (acc ++ [label o])
           end
       end.
Proof.
  funelim (queue_drain label q temp acc).
  all: rewrite Hc; try rewrite Hd; try rewrite Heq; reflexivity.
Qed.

Lemma queue_refill_step temp q :
  queue_refill temp q =
  if ManualQueue.is_empty temp then Ok (temp, q)
  else match ManualQueue.dequeue temp with
       | Raise e => Raise e
       | Ok (cell, temp') =>
           match queue_enqueue_cell q cell with
           | Raise e => Raise e
           | Ok q' => queue_refill temp' q'
           end
       end.
Proof.
  funelim (queue_refill temp q).
  all: rewrite Hc; try rewrite Hd; try rewrite Heq; reflexivity.
Qed.

Lemma queue_drain_rep l : forall q temp tl acc,
  queue_rep q l ->
  queue_rep temp tl ->
  exists q0 temp',
    queue_drain label q temp acc = Ok (acc ++ map label l, q0, temp')
    /\ queue_rep q0 []
    /\ queue_rep temp' (tl ++ l).
Proof.
  induction l as [|v l IH]; intros q temp tl acc H Ht.
  - rewrite queue_drain_step, (queue_is_empty_rep H).
    exists q, temp. cbn. rewrite !app_nil_r. auto.
  - rewrite queue_drain_step, (queue_is_empty_rep H).
    destruct (queue_dequeue_rep H) as (q1 & Hd & H1).
    destruct (queue_enqueue_rep v Ht) as (t1 & He & Ht1).
    destruct (IH q1 t1 _ (acc ++ [label v]) H1 Ht1)
      as (q0 & t' & Hr & H0 & Ht').
    exists q0, t'. rewrite Hd, He, Hr. cbn [map].
    rewrite <- !app_assoc in *. cbn [app] in *. auto.
Qed.

Lemma queue_refill_rep tl : forall temp q l,
  queue_rep temp tl ->
  queue_rep q l ->
  exists temp' q',
    queue_refill temp q = Ok (temp', q') /\ queue_rep q' (l ++ tl).
Proof.
  induction tl as [|v tl IH]; intros temp q l Ht H.
  - rewrite queue_refill_step, (queue_is_empty_rep Ht).
    exists temp, q. rewrite app_nil_r. auto.
  - rewrite queue_refill_step, (queue_is_empty_rep Ht).
    destruct (queue_dequeue_rep Ht) as (t1 & Hd & Ht1).
    destruct (queue_enqueue_rep v H) as (q1 & He & H1).
    destruct (IH t1 q1 _ Ht1 H1) as (t' & q' & Hr & H').
    exists t', q'. rewrite Hd. cbn [queue_enqueue_cell].
    rewrite He, Hr. rewrite <- app_assoc in H'. cbn [app] in H'. auto.
Qed.

(** X4.  The order-queue snapshot that the batch processor takes while
    tracing (dequeue everything into a temporary queue, then enqueue it
    back) returns the labels of the waiting orders, oldest first, and puts
    the queue back in the same order, wherever the head of the circular
    array stood: every later sequence of calls is answered as it would have
    been without the snapshot. *)
Theorem queue_snapshot_restores (capacity : Z)
        (ops later : list (ContainerOp T)) :
  let order_queue :=
    snd (run_calls (@queue_call T) ops (ManualQueue.init T capacity)) in
  let waiting := snd (run_calls (@list_queue_call T) ops []) in
  exists order_queue',
    queue_snapshot label order_queue = Ok (map label waiting, order_queue')
    /\ fst (run_calls (@queue_call T) later order_queue')
       = fst (run_calls (@queue_call T) later order_queue).
Proof.
  intros order_queue waiting.
  destruct (@queue_run_simulation T ops _ [] (queue_rep_init T capacity))
    as (_ & H).
  fold order_queue waiting in H.
  pose proof (queue_rep_init T (Z.of_nat (ManualQueue.size order_queue)))
    as Ht.
  destruct (@queue_drain_rep _ order_queue _ [] [] H Ht)
    as (q0 & t' & Hd & H0 & Ht').
  destruct (@queue_refill_rep _ t' q0 [] Ht' H0) as (t'' & q' & Hr & H').
  cbn [app] in Hd, H', Ht'.
  exists q'. split.
  - unfold queue_snapshot. rewrite Hd, Hr. reflexivity.
  - rewrite (proj1 (@queue_run_simulation T later q' waiting H')).
    rewrite (proj1 (@queue_run_simulation T later order_queue waiting H)).
    reflexivity.
Qed.

End QueueSnapshot.

(* ===================================================================== *)
(** * What one round of the allocation loop writes *)
(* ===================================================================== *)

(** One round of the candidate loop either leaves the database as it was
    (the batch is gone, it is skipped, or the decrement is refused), or
    decrements the rows of the batch, appends one Allocation row and
    appends one RESERVE log row. *)
Lemma allocate_from_candidate_cases order_item user batch_id qty_remaining db :
  (snd (allocate_from_candidate order_item user batch_id qty_remaining db)
   = db
   /\ forall made,
       fst (allocate_from_candidate order_item user batch_id
                                    qty_remaining db)
       <> Ok (Some made))
  \/ exists batch,
      find_pk Batch.id batch_id (rows (batches db)) = Some batch
      /\ 0 < Batch.available_qty batch
      /\ Batch.status batch = Batch.STATUS_AVAILABLE
      /\ (forall b, In b (rows (batches db)) ->
                    Batch.id b = Batch.id batch ->
                    0 <= Batch.available_qty b
                         - Z.min (Batch.available_qty batch) qty_remaining)
      /\ allocate_from_candidate order_item user batch_id qty_remaining db
         = (Ok (Some (Batch.lot_no batch,
                      Z.min (Batch.available_qty batch) qty_remaining)),
            set_transaction_logs
              (insert_row
                 (fun k =>
                    TransactionLog.mk k user TransactionLog.TYPE_RESERVE
                      (Z.min (Batch.available_qty batch) qty_remaining)
                      (Some (Item.id (OrderItem.item_obj order_item)))
                      (Some (Batch.id batch))
                      (Some (Order.id (OrderItem.order_obj order_item)))
                      None
                      (JDict
                         [ ("order_no",
                            JStr (Order.order_no
                                    (OrderItem.order_obj order_item)));
                           ("order_item_id",
                            JInt (OrderItem.id (OrderItem.row order_item)));
                           ("allocation_id",
                            JInt (next_id (allocations db)));
                           ("algo", JStr "queue+stack") ])))
              (set_allocations
                 (insert_row
                    (fun k =>
                       Allocation.mk k
                         (OrderItem.id (OrderItem.row order_item))
                         (Batch.id batch)
                         (Z.min (Batch.available_qty batch) qty_remaining)))
                 (set_batches
                    (map_rows
                       (fun b =>
                          if Batch.id b =? Batch.id batch
                          then Batch.with_available_qty
                                 (Batch.available_qty b
                                  - Z.min (Batch.available_qty batch)
                                          qty_remaining) b
                          else b))
                    db))).
Proof.
  destruct (allocate_from_candidate order_item user batch_id qty_remaining db)
    as [r db'] eqn:E.
  cbn [fst snd]. revert E.
  unfold allocate_from_candidate, bind at 1, Batch_get, objects_get.
  destruct (find_pk Batch.id batch_id (rows (batches db))) as [batch|] eqn:Hf;
    [|intros E; inversion E; subst; left; split; [reflexivity|discriminate]].
  destruct (Batch.available_qty batch <=? 0) eqn:Hq;
    [intros E; inversion E; subst; left; split; [reflexivity|discriminate]|].
  destruct (Batch.status batch =? Batch.STATUS_AVAILABLE)%string eqn:Hs;
    [|intros E; inversion E; subst; left; split; [reflexivity|discriminate]].
  cbn [orb negb].
  set (q := Z.min (Batch.available_qty batch) qty_remaining).
  unfold bind at 1.
  destruct (Batch_update_available_minus (Batch.id batch) q db)
    as [[[]|e] db1] eqn:Hu.
  - intros E. right. exists batch. apply update_available_ok in Hu.
    destruct Hu as [-> Hpos]. rewrite <- E.
    repeat split.
    + apply Z.leb_gt. exact Hq.
    + apply String.eqb_eq. exact Hs.
    + exact Hpos.
    + destruct user; reflexivity.
  - intros E. apply update_available_raise in Hu. subst db1.
    inversion E. subst. left. split; [reflexivity|discriminate].
Qed.

(* ===================================================================== *)
(** * Invariants of allocate_order, from its four kinds of write *)
(* ===================================================================== *)

Lemma OrderItem_update_frame pk qty db :
  exists tb,
    snd (OrderItem_update_allocated_plus pk qty db)
    = set_order_items (fun _ => tb) db.
Proof.
  unfold OrderItem_update_allocated_plus.
  destruct (forallb _ _); cbn [snd].
  - eexists. reflexivity.
  - exists (order_items db). destruct db. reflexivity.
Qed.

Lemma Order_save_status_frame env o db :
  exists tb, snd (Order_save_status env o db) = set_orders (fun _ => tb) db.
Proof.
  unfold Order_save_status, Order_auto_order_no.
  destruct (_ =? _)%string; cbn;
    destruct (find_pk _ _ _); cbn;
    first [ eexists; reflexivity
          | exists (orders db); destruct db; reflexivity ].
Qed.

Lemma Notification_create_frame user message level db :
  exists tb,
    snd (Notification_create user message level db)
    = set_notifications (fun _ => tb) db.
Proof. eexists. reflexivity. Qed.

Section EngineInvariant.
Variable P : DB -> Prop.
Hypothesis P_candidate : forall order_item user batch_id qty,
    0 < qty ->
    preserves P (allocate_from_candidate order_item user batch_id qty).
Hypothesis P_line : forall tb db, P db -> P (set_order_items (fun _ => tb) db).
Hypothesis P_order : forall tb db, P db -> P (set_orders (fun _ => tb) db).
Hypothesis P_notification :
  forall tb db, P db -> P (set_notifications (fun _ => tb) db).

Lemma invariant_allocate_while order_item user stack qty made :
  preserves P (allocate_while order_item user stack qty made).
Proof.
  intros db. funelim (allocate_while order_item user stack qty made db);
    intros HP; try exact HP.
  all: assert (Hpos : 0 < qty_remaining)
         by (apply Z.ltb_lt; exact (proj1 (andb_prop _ _ Hc)));
    pose proof (@P_candidate order_item user batch_id qty_remaining Hpos
                             db HP) as Hstep;
    rewrite Heq in Hstep; first [exact Hstep | apply H; exact Hstep].
Qed.

Lemma invariant_allocate_item env order_item user :
  preserves P (_allocate_item_with_stack env order_item user).
Proof.
  unfold _allocate_item_with_stack.
  destruct (_ <=? 0); [apply preserves_ret|].
  apply preserves_bind; [apply preserves_read|intros eligible].
  apply preserves_bind; [apply preserves_lift|intros stack].
  apply preserves_bind; [apply invariant_allocate_while|intros loop].
  apply preserves_bind.
  { intros db HP.
    destruct (OrderItem_update_frame (OrderItem.id (OrderItem.row order_item))
                (OrderItem.qty_requested (OrderItem.row order_item)
                 - OrderItem.qty_allocated (OrderItem.row order_item)
                 - snd loop) db) as [tb ->].
    apply P_line. exact HP. }
  intros _.
  apply preserves_bind;
    [apply unchanged_preserves, unchanged_objects_get|intros refreshed].
  apply preserves_ret.
Qed.

Lemma invariant_process_tasks env user task_q tally :
  preserves P (process_tasks env user task_q tally).
Proof.
  intros db. funelim (process_tasks env user task_q tally db);
    intros HP; try exact HP.
  all: pose proof (@invariant_allocate_item env order_item user db HP)
         as Hstep;
    rewrite Heq in Hstep; first [exact Hstep | apply H; exact Hstep].
Qed.

Lemma invariant_allocate_order env order_id user :
  preserves P (allocate_order env order_id user).
Proof.
  assert (Hnote : forall user message level,
             preserves P (Notification_create user message level)).
  { intros u m l db HP.
    destruct (Notification_create_frame u m l db) as [tb ->].
    apply P_notification. exact HP. }
  unfold allocate_order.
  apply preserves_bind.
  { apply preserves_try_except;
      [apply unchanged_preserves, unchanged_objects_get
      |intros ?; apply preserves_raise]. }
  intros order. destruct (_ =? _)%string; [apply preserves_raise|].
  apply preserves_bind; [apply preserves_read|intros order_items].
  destruct order_items as [|oi ois]; [apply preserves_raise|].
  apply preserves_bind; [apply preserves_lift|intros task_q].
  apply preserves_bind; [|intros ?; apply preserves_ret].
  apply preserves_atomic.
  apply preserves_bind; [apply invariant_process_tasks|intros tally].
  destruct (Nat.eqb _ _).
  - apply preserves_bind; [|intros ?; apply preserves_ret].
    intros db HP.
    destruct (Order_save_status_frame env
                (Order.with_status Order.STATUS_ALLOCATED order) db)
      as [tb ->].
    apply P_order. exact HP.
  - destruct (Nat.eqb _ _).
    + apply preserves_bind; [apply Hnote|intros ?; apply preserves_raise].
    + apply preserves_bind; [apply Hnote|intros ?; apply preserves_ret].
Qed.

End EngineInvariant.

Lemma Forall2_same {A} (R : A -> A -> Prop) (l : list A) :
  (forall a, R a a) -> Forall2 R l l.
Proof. intros HR. induction l; constructor; auto. Qed.

Lemma Forall2_map_right {A B} (R : A -> B -> Prop) (f : B -> B) l l' :
  (forall a b, R a b -> R a (f b)) ->
  Forall2 R l l' -> Forall2 R l (map f l').
Proof.
  intros Hf H. induction H; cbn; constructor; auto.
Qed.

(** X5.  [allocate_order] never creates, deletes or reorders a batch, never
    changes a field of a batch other than [available_qty], and never raises
    an [available_qty]: whatever the order and whether it returns or raises,
    the batch table afterwards is the one before with some quantities
    lowered. *)
Theorem allocate_order_only_lowers_stock env order_id user db :
  Forall2 only_decreased
          (rows (batches db))
          (rows (batches (snd (allocate_order env order_id user db)))).
Proof.
  apply (@invariant_allocate_order
           (fun db' => Forall2 only_decreased (rows (batches db))
                               (rows (batches db')))).
  - intros order_item u batch_id qty Hqty db' HP.
    destruct (allocate_from_candidate_cases order_item u batch_id qty db')
      as [[-> _]|(batch & _ & Hav & _ & _ & ->)]; [exact HP|].
    cbn [snd batches set_transaction_logs set_allocations set_batches
         map_rows rows].
    apply Forall2_map_right; [|exact HP].
    intros a b [Hsame Hle]. destruct (Batch.id b =? Batch.id batch);
      [|split; assumption].
    split.
    + rewrite Hsame. reflexivity.
    + cbn. lia.
  - intros tb db' HP. exact HP.
  - intros tb db' HP. exact HP.
  - intros tb db' HP. exact HP.
  - apply Forall2_same. intros [i it lot r a e s]. split; [reflexivity|].
    cbn. lia.
Qed.

(** X6.  [allocate_order] never writes to the item, shipment and return
    tables, and never to the undo or redo stack: no undo record is pushed
    for an allocation, whatever the order and the outcome. *)
Theorem allocate_order_leaves_other_tables env order_id user db :
  let db' := snd (allocate_order env order_id user db) in
  items db' = items db
  /\ shipments db' = shipments db
  /\ returns db' = returns db
  /\ undo_stack db' = undo_stack db
  /\ redo_stack db' = redo_stack db.
Proof.
  apply (@invariant_allocate_order
           (fun db' => items db' = items db
                       /\ shipments db' = shipments db
                       /\ returns db' = returns db
                       /\ undo_stack db' = undo_stack db
                       /\ redo_stack db' = redo_stack db)).
  - intros order_item u batch_id qty Hqty db' HP.
    destruct (allocate_from_candidate_cases order_item u batch_id qty db')
      as [[-> _]|(batch & _ & _ & _ & _ & ->)]; exact HP.
  - intros tb db' HP. exact HP.
  - intros tb db' HP. exact HP.
  - intros tb db' HP. exact HP.
  - repeat split.
Qed.

(** X7.  [allocate_order] only appends to the Allocation table and to the
    transaction log, and it appends in step: whatever the outcome, the
    Allocation rows added and the log rows added correspond one to one, in
    order, each log row being the RESERVE entry of its allocation (same
    quantity, same batch, the allocation's key in [meta]), and every
    allocation added has a positive quantity. *)
Theorem allocate_order_logs_each_allocation env order_id user db :
  let db' := snd (allocate_order env order_id user db) in
  exists new_allocations new_logs,
    rows (allocations db') = rows (allocations db) ++ new_allocations
    /\ rows (transaction_logs db') = rows (transaction_logs db) ++ new_logs
    /\ Forall2 reserve_logged new_allocations new_logs
    /\ Forall (fun a => 0 < Allocation.qty_allocated a) new_allocations.
Proof.
  apply (@invariant_allocate_order
           (fun db' =>
              exists new_allocations new_logs,
                rows (allocations db')
                = rows (allocations db) ++ new_allocations
                /\ rows (transaction_logs db')
                   = rows (transaction_logs db) ++ new_logs
                /\ Forall2 reserve_logged new_allocations new_logs
                /\ Forall (fun a => 0 < Allocation.qty_allocated a)
                          new_allocations)).
  - intros order_item u batch_id qty Hqty db' HP.
    destruct (allocate_from_candidate_cases order_item u batch_id qty db')
      as [[-> _]|(batch & _ & Hav & _ & _ & ->)]; [exact HP|].
    destruct HP as (na & nl & Ha & Hl & Hpair & Hpos).
    cbn [snd allocations transaction_logs set_transaction_logs
         set_allocations set_batches insert_row rows next_id].
    eexists (na ++ [_]), (nl ++ [_]).
    rewrite Ha, Hl, <- !app_assoc.
    split; [reflexivity|]. split; [reflexivity|]. split.
    + apply Forall2_app; [exact Hpair|].
      constructor; [|constructor].
      repeat split.
    + apply Forall_app. split; [exact Hpos|].
      constructor; [|constructor]. cbn. lia.
  - intros tb db' HP. exact HP.
  - intros tb db' HP. exact HP.
  - intros tb db' HP. exact HP.
  - exists [], []. rewrite !app_nil_r. repeat split; constructor.
Qed.

(* ===================================================================== *)
(** * allocate_order as nested iteration *)
(* ===================================================================== *)

Lemma allocate_item_as_forward env order_item user db :
  _allocate_item_with_stack env order_item user db
  = allocate_item_forward env order_item user db.
Proof.
  unfold _allocate_item_with_stack, allocate_item_forward.
  destruct (_ <=? 0); [reflexivity|].
  unfold bind, eligible_batches, read, lift.
  set (eligible := map Batch.id _).
  destruct (push_all_reversed eligible
              (Z.max 16 (Z.of_nat (length eligible))))
    as (s & k & Hp & H).
  rewrite Hp.
  rewrite (allocate_while_forward order_item user _ _ _ H), rev_involutive.
  reflexivity.
Qed.

(** The loop over the candidates: what it reports adds up. *)
Lemma allocate_forward_sums order_item user l :
  forall qty_remaining made db made' left_over db',
    0 <= qty_remaining ->
    allocate_forward order_item user l qty_remaining made db
    = (Ok (made', left_over), db') ->
    0 <= left_over <= qty_remaining
    /\ exists extra,
        made' = made ++ extra
        /\ fold_right Z.add 0 (map snd extra) = qty_remaining - left_over
        /\ Forall (fun a => 0 < snd a) extra.
Proof.
  induction l as [|batch_id l IH];
    intros qty_remaining made db made' left_over db' Hq.
  - cbn. intros H. inversion H. subst. split; [lia|].
    exists []. rewrite app_nil_r. cbn. repeat split; [lia|constructor].
  - cbn [allocate_forward].
    destruct (0 <? qty_remaining) eqn:Hpos.
    2:{ intros H. inversion H. subst. split; [lia|].
        exists []. rewrite app_nil_r. cbn. repeat split; [lia|constructor]. }
    apply Z.ltb_lt in Hpos. unfold bind.
    destruct (allocate_from_candidate_cases order_item user (Some batch_id)
                qty_remaining db)
      as [[Hdb Hnone]|(batch & _ & Hav & _ & _ & E)].
    + destruct (allocate_from_candidate order_item user (Some batch_id)
                  qty_remaining db) as [[[made1|]|e] db1];
        cbn [fst snd] in Hdb, Hnone.
      * exfalso. apply (Hnone made1). reflexivity.
      * intros H. apply (IH _ _ _ _ _ _ Hq H).
      * discriminate.
    + rewrite E. intros H.
      apply IH in H; [|lia].
      destruct H as (Hb & extra & -> & Hs & Hp).
      split; [lia|].
      exists ((Batch.lot_no batch,
               Z.min (Batch.available_qty batch) qty_remaining) :: extra).
      rewrite <- app_assoc. cbn [app map snd fold_right].
      repeat split; [lia|].
      constructor; [cbn; lia|exact Hp].
Qed.

(* ===================================================================== *)
(** * Batches that no line of the order can use *)
(* ===================================================================== *)

Lemma candidate_skips b order_item user batch_id qty db :
  batch_kept b db ->
  batch_id <> Some (Batch.id b) ->
  batch_kept b (snd (allocate_from_candidate order_item user batch_id qty db)).
Proof.
  intros [Hnd Hin] Hne.
  destruct (allocate_from_candidate_cases order_item user batch_id qty db)
    as [[-> _]|(batch & Hf & _ & _ & _ & ->)]; [split; assumption|].
  cbn [snd]. unfold batch_kept.
  cbn [batches set_transaction_logs set_allocations set_batches map_rows
       rows].
  assert (Hk : (Batch.id b =? Batch.id batch) = false).
  { apply Z.eqb_neq. intros E. apply Hne.
    destruct batch_id as [k|].
    - apply find_pk_id in Hf. congruence.
    - apply find_some in Hf. destruct Hf as [_ Hf]. discriminate. }
  split.
  - rewrite map_map.
    erewrite map_ext; [exact Hnd|].
    intros a. destruct (Batch.id a =? Batch.id batch); reflexivity.
  - apply in_map_iff. exists b. rewrite Hk. split; [reflexivity|exact Hin].
Qed.

Lemma forward_skips b order_item user l :
  forall qty made db,
    batch_kept b db ->
    ~ In (Batch.id b) l ->
    batch_kept b (snd (allocate_forward order_item user l qty made db)).
Proof.
  induction l as [|batch_id l IH]; intros qty made db HP Hnot; [exact HP|].
  cbn [allocate_forward]. destruct (0 <? qty); [|exact HP].
  assert (Hne : Some batch_id <> Some (Batch.id b))
    by (intros E; inversion E; apply Hnot; left; assumption).
  pose proof (@candidate_skips b order_item user (Some batch_id) qty db HP Hne)
    as Hstep.
  unfold bind.
  destruct (allocate_from_candidate order_item user (Some batch_id) qty db)
    as [[[[lot q]|]|e] db1]; cbn [snd] in Hstep.
  - apply IH; [exact Hstep|]. intros H. apply Hnot. right. exact H.
  - apply IH; [exact Hstep|]. intros H. apply Hnot. right. exact H.
  - exact Hstep.
Qed.

Lemma line_skips b env order_item user db :
  batch_kept b db ->
  is_eligible env (OrderItem.item_obj order_item) b = false ->
  batch_kept b (snd (_allocate_item_with_stack env order_item user db)).
Proof.
  intros HP Hno. rewrite allocate_item_as_forward.
  unfold allocate_item_forward.
  destruct (_ <=? 0); [exact HP|].
  unfold bind at 1, eligible_batches, read. unfold bind at 1.
  match goal with
  | |- context [allocate_forward ?oi ?u ?l ?q ?m db] =>
      assert (Hw : batch_kept b (snd (allocate_forward oi u l q m db)));
      [|destruct (allocate_forward oi u l q m db) as [[loop|e] db1];
        cbn [snd] in Hw; [|exact Hw]]
  end.
  { apply forward_skips; [exact HP|].
    intros Hin. apply in_map_iff in Hin. destruct Hin as (b' & Hid & Hin).
    apply (Permutation_in _ (Permutation_sym (sort_by_perm _ _))) in Hin.
    apply filter_In in Hin. destruct Hin as [Hin Hel].
    destruct HP as [Hnd Hb].
    assert (b' = b)
      by (apply (unique_key_row Batch.id (rows (batches db))); assumption).
    subst b'. congruence. }
  unfold bind at 1.
  match goal with
  | |- context [OrderItem_update_allocated_plus ?pk ?q db1] =>
      destruct (OrderItem_update_frame pk q db1) as [tb Hfr];
      destruct (OrderItem_update_allocated_plus pk q db1) as [[[]|e] db2];
      cbn [snd] in Hfr; subst db2; [|exact Hw]
  end.
  unfold bind, OrderItem_get, objects_get, ret.
  destruct (find_pk _ _ _); exact Hw.
Qed.

Lemma process_forward_skips b env user order_items :
  forall tally db,
    Forall (fun oi => is_eligible env (OrderItem.item_obj oi) b = false)
           order_items ->
    batch_kept b db ->
    batch_kept b (snd (process_forward env user order_items tally db)).
Proof.
  induction order_items as [|oi rest IH]; intros tally db Hall HP;
    [exact HP|].
  inversion Hall as [|? ? Hoi Hrest]. subst.
  cbn [process_forward]. unfold bind.
  pose proof (@line_skips b env oi user db HP Hoi) as Hstep.
  destruct (_allocate_item_with_stack env oi user db) as [[result|e] db1];
    cbn [snd] in Hstep; [|exact Hstep].
  apply IH; assumption.
Qed.

Lemma order_items_of_lines order db inst :
  In inst (flat_map
             (fun oi =>
                if OrderItem.order oi =? Order.id order then
                  match find_pk Item.id (Some (OrderItem.item oi))
                                (rows (items db)) with
                  | Some it => [OrderItem.mkInst oi it order]
                  | None => []
                  end
                else [])
             (rows (order_items db))) ->
  In (OrderItem.row inst) (rows (order_items db))
  /\ OrderItem.order (OrderItem.row inst) = Order.id order
  /\ find_pk Item.id (Some (OrderItem.item (OrderItem.row inst)))
             (rows (items db)) = Some (OrderItem.item_obj inst)
  /\ OrderItem.order_obj inst = order.
Proof.
  intros H. apply in_flat_map in H. destruct H as (oi & Hin & H).
  destruct (OrderItem.order oi =? Order.id order) eqn:E; [|contradiction].
  destruct (find_pk Item.id _ _) as [it|] eqn:Hf; [|contradiction].
  destruct H as [<-|[]]. cbn. apply Z.eqb_eq in E. auto.
Qed.

(** X9.  A batch that no line of the order can use (on hold, expired by
    status or by date, empty, or of an item that the order does not
    request) is never touched by [allocate_order]: with unique batch keys,
    its row is stored afterwards exactly as it was, whatever the outcome. *)
Theorem ineligible_batch_untouched env order_id user db b :
  NoDup (map Batch.id (rows (batches db))) ->
  In b (rows (batches db)) ->
  (forall oi it,
      In oi (rows (order_items db)) ->
      OrderItem.order oi = order_id ->
      find_pk Item.id (Some (OrderItem.item oi)) (rows (items db)) = Some it ->
      is_eligible env it b = false) ->
  In b (rows (batches (snd (allocate_order env order_id user db)))).
Proof.
  intros Hnd Hin Hno.
  assert (HP : batch_kept b db) by (split; assumption).
  enough (batch_kept b (snd (allocate_order env order_id user db)))
    as [_ H] by exact H.
  unfold allocate_order, bind at 1, try_except, Order_get, objects_get.
  destruct (find_pk Order.id (Some order_id) (rows (orders db)))
    as [order|] eqn:Ho; [|exact HP].
  apply find_pk_id in Ho.
  destruct (_ =? _)%string; [exact HP|].
  unfold bind at 1, order_items_of, read.
  set (order_items := flat_map _ _).
  assert (Hall : Forall (fun oi => is_eligible env (OrderItem.item_obj oi) b
                                   = false) order_items).
  { apply Forall_forall. intros inst Hi.
    apply order_items_of_lines in Hi. destruct Hi as (Hr & Hord & Hit & _).
    apply (Hno (OrderItem.row inst)); [exact Hr|congruence|exact Hit]. }
  destruct order_items as [|oi ois] eqn:Hois; [exact HP|].
  destruct (task_queue_fifo (oi :: ois)) as (task_q & Hq & Hproc).
  unfold bind at 1, lift. rewrite Hq.
  match goal with
  | |- context [atomic ?body] =>
      assert (Hbody : preserves (batch_kept b) body)
  end.
  { apply preserves_bind.
    - intros db0 HP0. rewrite Hproc.
      apply process_forward_skips; assumption.
    - intros tally.
      assert (Hnote : forall u m l,
                 preserves (batch_kept b) (Notification_create u m l))
        by (intros u m l db0 HP0; exact HP0).
      destruct (Nat.eqb _ _).
      + apply preserves_bind; [|intros ?; apply preserves_ret].
        intros db0 HP0.
        destruct (Order_save_status_frame env
                    (Order.with_status Order.STATUS_ALLOCATED order) db0)
          as [tb ->].
        exact HP0.
      + destruct (Nat.eqb _ _).
        * apply preserves_bind; [apply Hnote|intros ?; apply preserves_raise].
        * apply preserves_bind; [apply Hnote|intros ?; apply preserves_ret]. }
  apply preserves_bind; [|intros ?; apply preserves_ret|exact HP].
  apply preserves_atomic. exact Hbody.
Qed.

Lemma ineligible_batch_untouched_witness :
  In (Batch.mk 4 1 "LOT-D" 40000 40000 (Some 0) Batch.STATUS_AVAILABLE)
     (rows (batches (snd (allocate_order (test_env sqlite3) 1 (Some 7)
                                         (expiring_today_db 300000))))).
Proof.
  apply ineligible_batch_untouched.
  - cbn. repeat constructor; cbn; intuition discriminate.
  - cbn. auto 10.
  - intros oi it Hin _ Hit. cbn in Hin. destruct Hin as [<-|[]].
    cbn in Hit. inversion Hit. reflexivity.
Defined.

(* ===================================================================== *)
(** * An order whose lines are all satisfied *)
(* ===================================================================== *)

Lemma process_forward_satisfied env user lines :
  forall tally db,
    Forall (fun oi => OrderItem.qty_requested (OrderItem.row oi)
                      <= OrderItem.qty_allocated (OrderItem.row oi)) lines ->
    exists results,
      process_forward env user lines tally db
      = (Ok (mkTally (allocation_results tally ++ results)
                     (items_fully_allocated tally + length lines)
                     (items_partially_allocated tally)
                     (items_failed tally)), db)
      /\ length results = length lines.
Proof.
  induction lines as [|oi rest IH]; intros tally db Hall.
  - exists []. cbn. rewrite app_nil_r, Nat.add_0_r. destruct tally.
    split; reflexivity.
  - inversion Hall as [|? ? Hoi Hrest]. subst.
    cbn [process_forward]. unfold bind, _allocate_item_with_stack.
    replace (_ <=? 0) with true by (symmetry; apply Z.leb_le; lia).
    unfold ret.
    match goal with
    | |- context [tally_add tally ?r] =>
        destruct (IH (tally_add tally r) db Hrest) as (results & E & Hl);
        exists (r :: results)
    end.
    rewrite E. unfold tally_add. cbn.
    rewrite <- app_assoc. cbn. split; [|lia].
    do 3 f_equal. lia.
Qed.

(** X10.  When every line of a non-cancelled order already has
    [qty_allocated >= qty_requested], [allocate_order] returns normally,
    moves no stock (batches, allocations, transaction log, lines and
    notifications are as before), reports every line as fully allocated and
    sets the order's status to ALLOCATED, whatever the status was before:
    also an order that was already PICKED, SHIPPED or DELIVERED. *)
Theorem satisfied_order_is_set_to_allocated env order_id user db order lines :
  find_pk Order.id (Some order_id) (rows (orders db)) = Some order ->
  Order.status order <> Order.STATUS_CANCELLED ->
  fst (order_items_of order db) = Ok lines ->
  lines <> [] ->
  Forall (fun oi => OrderItem.qty_requested (OrderItem.row oi)
                    <= OrderItem.qty_allocated (OrderItem.row oi)) lines ->
  exists report db',
    allocate_order env order_id user db = (Ok report, db')
    /\ rep_status report = Order.STATUS_ALLOCATED
    /\ rep_items_allocated report = length lines
    /\ rep_items_partial report = 0%nat
    /\ rep_items_failed report = 0%nat
    /\ batches db' = batches db
    /\ allocations db' = allocations db
    /\ transaction_logs db' = transaction_logs db
    /\ order_items db' = order_items db
    /\ notifications db' = notifications db
    /\ rows (orders db')
       = map (fun r => if Order.id r =? order_id
                       then Order.with_status Order.STATUS_ALLOCATED r
                       else r)
             (rows (orders db)).
Proof.
  intros Ho Hs Hl Hne Hall. pose proof (find_pk_id _ _ _ Ho) as Hid.
  unfold allocate_order, bind at 1, try_except, Order_get, objects_get.
  rewrite Ho.
  replace (Order.status order =? Order.STATUS_CANCELLED)%string with false
    by (symmetry; apply String.eqb_neq; exact Hs).
  unfold bind at 1. unfold order_items_of, read in Hl |- *.
  cbn [fst] in Hl. inversion Hl as [Hlines]. rewrite Hlines.
  destruct lines as [|oi ois]; [contradiction|].
  destruct (task_queue_fifo (oi :: ois)) as (task_q & Hq & Hproc).
  unfold bind at 1, lift. rewrite Hq.
  unfold bind at 1, atomic. unfold bind at 1. rewrite Hproc.
  destruct (process_forward_satisfied env user (mkTally [] 0 0 0) db Hall)
    as (results & E & Hlen).
  rewrite E. cbn [items_fully_allocated Nat.add].
  rewrite Nat.eqb_refl.
  unfold bind at 1, Order_save_status, Order_auto_order_no.
  destruct (Order.order_no _ =? "")%string; unfold bind, read, write, ret;
    cbn [Order.id Order.with_status Order.with_order_no];
    rewrite Hid, Ho; cbn [fst snd];
    eexists _, _; (split; [reflexivity|]); repeat split.
Qed.

Lemma satisfied_order_is_set_to_allocated_witness :
  exists report db',
    allocate_order (test_env postgresql) 1 (Some 7)
      (set_orders (fun _ => table_of [Order.mk 1 "ORD-001"
                                               Order.STATUS_SHIPPED])
         (set_order_items (fun _ => table_of [OrderItem.mk 1 1 1 120000 120000])
            (fefo_db 120000)))
    = (Ok report, db')
    /\ rep_status report = Order.STATUS_ALLOCATED.
Proof.
  destruct (@satisfied_order_is_set_to_allocated (test_env postgresql) 1
              (Some 7)
              (set_orders (fun _ => table_of [Order.mk 1 "ORD-001"
                                                       Order.STATUS_SHIPPED])
                 (set_order_items
                    (fun _ => table_of [OrderItem.mk 1 1 1 120000 120000])
                    (fefo_db 120000)))
              (Order.mk 1 "ORD-001" Order.STATUS_SHIPPED)
              [OrderItem.mkInst (OrderItem.mk 1 1 1 120000 120000)
                 (Item.mk 1 "TEST-001")
                 (Order.mk 1 "ORD-001" Order.STATUS_SHIPPED)])
    as (report & db' & E & Hst & _).
  - reflexivity.
  - discriminate.
  - reflexivity.
  - discriminate.
  - repeat constructor. cbn. lia.
  - exists report, db'. split; assumption.
Defined.

(* ===================================================================== *)
(** * The report of allocate_order *)
(* ===================================================================== *)

Lemma line_status_cases env order_item user db line db' :
  _allocate_item_with_stack env order_item user db = (Ok line, db') ->
  line_order_item_id line = OrderItem.id (OrderItem.row order_item)
  /\ (line_status line = "fully_allocated"
      \/ line_status line = "partially_allocated"
      \/ line_status line = "allocation_failed").
Proof.
  rewrite allocate_item_as_forward. unfold allocate_item_forward.
  destruct (_ <=? 0).
  - intros H. inversion H. cbn. auto.
  - unfold bind at 1, eligible_batches, read. unfold bind at 1.
    destruct (allocate_forward _ _ _ _ _ _) as [[loop|e] db1];
      [|discriminate].
    unfold bind at 1.
    destruct (OrderItem_update_allocated_plus _ _ db1) as [[[]|e] db2];
      [|discriminate].
    unfold bind, ret.
    destruct (OrderItem_get _ db2) as [[refreshed|e] db3]; [|discriminate].
    intros H. inversion H. cbn.
    destruct (_ <=? 0); [auto|]. destruct (0 <? _); auto.
Qed.

Lemma process_forward_tally env user lines :
  forall tally db tally' db',
    process_forward env user lines tally db = (Ok tally', db') ->
    exists results,
      allocation_results tally' = allocation_results tally ++ results
      /\ map line_order_item_id results
         = map (fun oi => OrderItem.id (OrderItem.row oi)) lines
      /\ items_fully_allocated tally'
         = (items_fully_allocated tally
            + count_status "fully_allocated" results)%nat
      /\ items_partially_allocated tally'
         = (items_partially_allocated tally
            + count_status "partially_allocated" results)%nat
      /\ items_failed tally'
         = (items_failed tally
            + count_status "allocation_failed" results)%nat
      /\ (count_status "fully_allocated" results
          + count_status "partially_allocated" results
          + count_status "allocation_failed" results = length lines)%nat.
Proof.
  induction lines as [|oi rest IH]; intros tally db tally' db'.
  - cbn. intros H. inversion H. subst. exists [].
    rewrite app_nil_r. cbn. repeat split; lia.
  - cbn [process_forward]. unfold bind.
    destruct (_allocate_item_with_stack env oi user db)
      as [[result|e] db1] eqn:E; [|discriminate].
    apply line_status_cases in E. destruct E as [Hid Hst].
    intros H. apply IH in H.
    destruct H as (results & Hr & Hids & Hf & Hp & Ha & Hsum).
    exists (result :: results).
    unfold count_status in *. cbn [filter map length].
    rewrite Hid, Hids.
    unfold tally_add in Hr, Hf, Hp, Ha.
    destruct Hst as [Hst|[Hst|Hst]]; rewrite Hst in *;
      cbn in Hr, Hf, Hp, Ha |- *;
      rewrite Hr, <- app_assoc; cbn [app];
      repeat split; lia.
Qed.

(** X11.  A report returned by [allocate_order] is consistent: its details
    list the lines of the order in table order, one entry per line; the
    three counters count the entries with status "fully_allocated",
    "partially_allocated" and "allocation_failed" and sum to the number of
    lines; not every line has failed (that outcome raises instead); and
    when every line is fully allocated the reported status is ALLOCATED. *)
Theorem report_is_consistent env order_id user db report db' :
  allocate_order env order_id user db = (Ok report, db') ->
  exists order lines,
    find_pk Order.id (Some order_id) (rows (orders db)) = Some order
    /\ fst (order_items_of order db) = Ok lines
    /\ rep_order_id report = order_id
    /\ map line_order_item_id (rep_details report)
       = map (fun oi => OrderItem.id (OrderItem.row oi)) lines
    /\ rep_items_allocated report
       = count_status "fully_allocated" (rep_details report)
    /\ rep_items_partial report
       = count_status "partially_allocated" (rep_details report)
    /\ rep_items_failed report
       = count_status "allocation_failed" (rep_details report)
    /\ (rep_items_allocated report + rep_items_partial report
        + rep_items_failed report = length lines)%nat
    /\ (rep_items_failed report < length lines)%nat
    /\ (rep_items_allocated report = length lines ->
        rep_status report = Order.STATUS_ALLOCATED).
Proof.
  unfold allocate_order, bind at 1, try_except, Order_get, objects_get.
  destruct (find_pk Order.id (Some order_id) (rows (orders db)))
    as [order|] eqn:Ho; [|discriminate].
  pose proof (find_pk_id _ _ _ Ho) as Hid.
  destruct (_ =? _)%string; [discriminate|].
  unfold bind at 1, order_items_of, read.
  set (lines := flat_map _ _).
  destruct lines as [|oi ois] eqn:Hlines; [discriminate|].
  rewrite <- Hlines.
  assert (Hlen : (0 < length lines)%nat) by (rewrite Hlines; cbn; lia).
  destruct (task_queue_fifo (oi :: ois)) as (task_q & Hq & Hproc).
  unfold bind at 1, lift. rewrite <- Hlines in Hq, Hproc. rewrite Hq.
  unfold bind at 1, atomic. unfold bind at 1. rewrite Hproc.
  destruct (process_forward env user lines (mkTally [] 0 0 0) db)
    as [[tally|e] db1] eqn:E; [|discriminate].
  apply process_forward_tally in E.
  destruct E as (results & Hr & Hids & Hf & Hp & Ha & Hsum).
  cbn [allocation_results items_fully_allocated items_partially_allocated
       items_failed app Nat.add] in Hr, Hf, Hp, Ha.
  destruct (Nat.eqb (items_fully_allocated tally) (length lines)) eqn:Efull.
  - apply Nat.eqb_eq in Efull.
    unfold bind at 1, Order_save_status, Order_auto_order_no.
    destruct (Order.order_no _ =? "")%string; unfold bind, read, write, ret;
      cbn [Order.id Order.with_status Order.with_order_no];
      (destruct (find_pk Order.id _ (rows (orders db1))); [|discriminate]);
      cbn [fst snd]; intros H; inversion H; subst report;
      exists order, lines;
      cbn [rep_order_id rep_details rep_items_allocated rep_items_partial
           rep_items_failed rep_status Order.id Order.status];
      rewrite Hr; repeat split; try assumption; try reflexivity; try lia.
  - apply Nat.eqb_neq in Efull.
    destruct (Nat.eqb (items_failed tally) (length lines)) eqn:Efail.
    + unfold bind, Notification_create, raise. discriminate.
    + apply Nat.eqb_neq in Efail.
      unfold bind, Notification_create, ret. cbn [fst snd].
      intros H. inversion H. subst report.
      exists order, lines.
      cbn [rep_order_id rep_details rep_items_allocated rep_items_partial
           rep_items_failed rep_status].
      rewrite Hr. repeat split; try assumption; try reflexivity; try lia.
Qed.

Lemma report_is_consistent_witness :
  let report :=
    mkReport 1 "ORD-001" "new" 0 1 0
      [mkLine 1 "TEST-001" "partially_allocated" 300000 225000 (Some 75000)
              [("LOT-A", 50000); ("LOT-B", 100000); ("LOT-C", 75000)]] in
  (rep_items_allocated report + rep_items_partial report
   + rep_items_failed report = 1)%nat
  /\ (rep_items_failed report < 1)%nat.
Proof.
  cbv zeta.
  destruct (@report_is_consistent (test_env postgresql) 1 (Some 7)
              (fefo_db 300000)
              (mkReport 1 "ORD-001" "new" 0 1 0
                 [mkLine 1 "TEST-001" "partially_allocated" 300000 225000
                         (Some 75000)
                         [("LOT-A", 50000); ("LOT-B", 100000);
                          ("LOT-C", 75000)]])
              (snd (allocate_order (test_env postgresql) 1 (Some 7)
                                   (fefo_db 300000))))
    as (order & lines & Ho & Hl & _ & _ & _ & _ & _ & Hsum & Hfail & _).
  - vm_compute. reflexivity.
  - vm_compute in Ho. inversion Ho. subst order.
    vm_compute in Hl. inversion Hl. subst lines.
    split; [exact Hsum|exact Hfail].
Defined.

(* ===================================================================== *)
(** * Which exceptions leave allocate_order *)
(* ===================================================================== *)

Lemma find_pk_present {R} (id_of : R -> Z) k (l : list R) :
  In k (map id_of l) -> exists r, find_pk id_of (Some k) l = Some r.
Proof.
  unfold find_pk. induction l as [|x l IH]; cbn; [contradiction|].
  intros [E|H].
  - exists x. rewrite E, Z.eqb_refl. reflexivity.
  - destruct (id_of x =? k); [eexists; reflexivity|]. apply IH. exact H.
Qed.

Lemma candidate_outcome db0 order_item user batch_id qty db :
  engine_frame db0 db ->
  In batch_id (map Batch.id (rows (batches db))) ->
  match allocate_from_candidate order_item user (Some batch_id) qty db with
  | (Ok _, db1) => engine_frame db0 db1
  | (Raise e, _) => exn_class e = IntegrityError
  end.
Proof.
  intros Hst Hin. pose proof Hst as (Hb & Ho & Hord).
  destruct (find_pk_present Batch.id _ _ Hin) as [batch Hf].
  destruct (allocate_from_candidate_cases order_item user (Some batch_id)
              qty db) as [[Hdb Hnone]|(b' & _ & _ & _ & _ & E)].
  - destruct (allocate_from_candidate order_item user (Some batch_id) qty db)
      as [[[made|]|e] db1] eqn:E; cbn [fst snd] in Hdb, Hnone; subst db1.
    + exfalso. apply (Hnone made). reflexivity.
    + exact Hst.
    + revert E.
      unfold allocate_from_candidate, bind at 1, Batch_get, objects_get.
      rewrite Hf.
      destruct (_ || _); [discriminate|].
      unfold bind at 1, Batch_update_available_minus.
      destruct (forallb _ _).
      * unfold bind, Allocation_create, TransactionLog_objects_create,
          TransactionLog_save, TransactionLog_super_save, ret.
        cbn. discriminate.
      * intros H. inversion H. reflexivity.
  - rewrite E. unfold engine_frame.
    cbn [batches order_items orders set_transaction_logs set_allocations
         set_batches map_rows rows].
    split; [|split; assumption].
    rewrite <- Hb, map_map. apply map_ext. intros a.
    destruct (Batch.id a =? Batch.id b'); reflexivity.
Qed.

Lemma forward_outcome db0 order_item user l :
  forall qty made db,
    engine_frame db0 db ->
    (forall k, In k l -> In k (map Batch.id (rows (batches db0)))) ->
    match allocate_forward order_item user l qty made db with
    | (Ok _, db1) => engine_frame db0 db1
    | (Raise e, _) => exn_class e = IntegrityError
    end.
Proof.
  induction l as [|batch_id l IH]; intros qty made db Hst Hl.
  - exact Hst.
  - cbn [allocate_forward].
    destruct (0 <? qty); [|exact Hst].
    assert (Hin : In batch_id (map Batch.id (rows (batches db)))).
    { destruct Hst as (-> & _). apply Hl. left. reflexivity. }
    pose proof (@candidate_outcome db0 order_item user batch_id qty db
                  Hst Hin) as Hc.
    unfold bind.
    destruct (allocate_from_candidate order_item user (Some batch_id) qty db)
      as [[r|e] db1]; [|exact Hc].
    destruct r as [[lot q]|]; apply IH; try exact Hc;
      intros k Hk; apply Hl; right; exact Hk.
Qed.

Lemma line_outcome db0 env order_item user db :
  engine_frame db0 db ->
  In (OrderItem.id (OrderItem.row order_item))
     (map OrderItem.id (rows (order_items db0))) ->
  match _allocate_item_with_stack env order_item user db with
  | (Ok _, db1) => engine_frame db0 db1
  | (Raise e, _) => exn_class e = IntegrityError
  end.
Proof.
  intros Hst Hid. rewrite allocate_item_as_forward.
  unfold allocate_item_forward.
  destruct (_ <=? 0); [exact Hst|].
  unfold bind at 1, eligible_batches, read. unfold bind at 1.
  match goal with
  | |- context [allocate_forward ?oi ?u ?l ?q ?m db] =>
      pose proof (@forward_outcome db0 oi u l q m db Hst) as Hf;
      destruct (allocate_forward oi u l q m db)
        as [[[made left_over]|e] db1]
  end.
  2:{ apply Hf. intros k Hk. apply in_map_iff in Hk.
      destruct Hk as (b & <- & Hb).
      apply (Permutation_in _ (Permutation_sym (sort_by_perm _ _))) in Hb.
      apply filter_In in Hb. destruct Hst as (<- & _).
      apply in_map. apply Hb. }
  assert (Hst1 : engine_frame db0 db1).
  { apply Hf. intros k Hk. apply in_map_iff in Hk.
    destruct Hk as (b & <- & Hb).
    apply (Permutation_in _ (Permutation_sym (sort_by_perm _ _))) in Hb.
    apply filter_In in Hb. destruct Hst as (<- & _).
    apply in_map. apply Hb. }
  clear Hf. cbn [fst snd].
  pose proof Hst1 as (Hbk & Hok & Hord).
  unfold bind at 1, OrderItem_update_allocated_plus.
  set (total := _ - _ - left_over).
  set (pk := OrderItem.id (OrderItem.row order_item)).
  set (upd := fun oi : OrderItem.t =>
                if OrderItem.id oi =? pk
                then OrderItem.with_qty_allocated
                       (OrderItem.qty_allocated oi + total) oi
                else oi).
  destruct (forallb _ (rows (map_rows upd (order_items db1))));
    [|reflexivity].
  assert (Hids : map OrderItem.id (map upd (rows (order_items db1)))
                 = map OrderItem.id (rows (order_items db1))).
  { rewrite map_map. apply map_ext. intros r. unfold upd.
    destruct (OrderItem.id r =? pk); reflexivity. }
  assert (Hst2 : engine_frame db0
                   (set_order_items
                      (fun _ => map_rows upd (order_items db1)) db1)).
  { unfold engine_frame.
    cbn [batches order_items orders set_order_items map_rows rows].
    rewrite Hids. repeat split; assumption. }
  unfold bind, OrderItem_get, objects_get, ret.
  destruct (find_pk_present OrderItem.id pk
              (rows (order_items
                       (set_order_items
                          (fun _ => map_rows upd (order_items db1)) db1))))
    as [refreshed Hf].
  { destruct Hst2 as (_ & -> & _). exact Hid. }
  fold pk. rewrite Hf. exact Hst2.
Qed.

Lemma process_outcome db0 env user lines :
  forall tally db,
    engine_frame db0 db ->
    Forall (fun oi => In (OrderItem.id (OrderItem.row oi))
                         (map OrderItem.id (rows (order_items db0)))) lines ->
    match process_forward env user lines tally db with
    | (Ok _, db1) => engine_frame db0 db1
    | (Raise e, _) => exn_class e = IntegrityError
    end.
Proof.
  induction lines as [|oi rest IH]; intros tally db Hst Hall.
  - exact Hst.
  - inversion Hall as [|? ? Hoi Hrest]. subst.
    cbn [process_forward]. unfold bind.
    pose proof (@line_outcome db0 env oi user db Hst Hoi) as Hl.
    destruct (_allocate_item_with_stack env oi user db)
      as [[line|e] db1]; [|exact Hl].
    apply IH; assumption.
Qed.

(** X12.  Whatever the database holds, the only exceptions that leave
    [allocate_order] are the two it raises itself, [OrderNotFoundError]
    and [AllocationError], and the [IntegrityError] of a check constraint
    that the database refuses on one of the two [F()] updates.  The manual
    queue and stack never raise [IndexError], no dequeued task is [None],
    no row lookup raises [DoesNotExist] and [save(update_fields=...)]
    always finds its row.  When the call raises, every table holds the
    rows it held before the call. *)
Theorem only_allocation_errors_escape env order_id user db e db' :
  allocate_order env order_id user db = (Raise e, db') ->
  same_rows db db'
  /\ (exn_class e = OrderNotFoundError
      \/ exn_class e = AllocationError
      \/ exn_class e = IntegrityError).
Proof.
  intros H. split.
  { apply allocate_order_raise_unchanged in H. subst db'.
    repeat split. }
  revert H.
  unfold allocate_order, bind at 1, try_except, Order_get, objects_get.
  destruct (find_pk Order.id (Some order_id) (rows (orders db)))
    as [order|] eqn:Ho;
    [|intros H; inversion H; left; reflexivity].
  pose proof (find_pk_id _ _ _ Ho) as Hid.
  destruct (_ =? _)%string;
    [intros H; inversion H; right; left; reflexivity|].
  unfold bind at 1, order_items_of, read.
  set (lines := flat_map _ _).
  assert (Hall : Forall (fun oi => In (OrderItem.id (OrderItem.row oi))
                                      (map OrderItem.id
                                           (rows (order_items db)))) lines).
  { apply Forall_forall. intros inst Hi.
    apply order_items_of_lines in Hi. apply in_map. apply Hi. }
  destruct lines as [|oi ois] eqn:Hlines;
    [intros H; inversion H; right; left; reflexivity|].
  rewrite <- Hlines in *.
  destruct (task_queue_fifo lines) as (task_q & Hq & Hproc).
  replace (Z.max 16 (Z.of_nat (length (oi :: ois))))
    with (Z.max 16 (Z.of_nat (length lines))) by (rewrite Hlines; reflexivity).
  unfold bind at 1, lift. rewrite Hq.
  unfold bind at 1, atomic. unfold bind at 1. rewrite Hproc.
  assert (Hst0 : engine_frame db db) by (repeat split).
  pose proof (@process_outcome db env user lines (mkTally [] 0 0 0) db
                Hst0 Hall) as Hst.
  destruct (process_forward env user lines (mkTally [] 0 0 0) db)
    as [[tally|e1] db1].
  2:{ intros H. inversion H. subst. right. right. exact Hst. }
  destruct (Nat.eqb _ _).
  - unfold bind at 1, Order_save_status, Order_auto_order_no.
    destruct Hst as (_ & _ & Hord).
    destruct (Order.order_no _ =? "")%string; unfold bind, read, write, ret;
      cbn [Order.id Order.with_status Order.with_order_no];
      rewrite Hord, Hid, Ho; cbn [fst snd]; discriminate.
  - destruct (Nat.eqb _ _).
    + unfold bind, Notification_create, raise. cbn.
      intros H. inversion H. right. left. reflexivity.
    + unfold bind, Notification_create, ret. cbn. discriminate.
Qed.

Lemma only_allocation_errors_escape_witness :
  same_rows no_stock_db
            (snd (allocate_order (test_env sqlite3) 1 (Some 7) no_stock_db))
  /\ (exn_class
        (mkExn AllocationError
           "Insufficient stock to allocate any items for order ORD-001")
      = OrderNotFoundError
      \/ exn_class
           (mkExn AllocationError
              "Insufficient stock to allocate any items for order ORD-001")
         = AllocationError
      \/ exn_class
           (mkExn AllocationError
              "Insufficient stock to allocate any items for order ORD-001")
         = IntegrityError).
Proof.
  apply (@only_allocation_errors_escape (test_env sqlite3) 1 (Some 7)
           no_stock_db).
  vm_compute. reflexivity.
Defined.

(* ===================================================================== *)
(** * How much stock a line takes *)
(* ===================================================================== *)

Lemma find_pk_unique {R} (id_of : R -> Z) (l : list R) (r : R) :
  NoDup (map id_of l) -> In r l -> find_pk id_of (Some (id_of r)) l = Some r.
Proof.
  intros Hnd Hin.
  destruct (find_pk_present id_of (id_of r) l (in_map id_of l r Hin))
    as [r' Hf].
  rewrite Hf. f_equal.
  apply (unique_key_row id_of l); [exact Hnd| |exact Hin|].
  - eapply find_pk_In. exact Hf.
  - eapply find_pk_id. exact Hf.
Qed.

Lemma candidate_allocates order_item user qty db b :
  NoDup (map Batch.id (rows (batches db))) ->
  In b (rows (batches db)) ->
  0 < Batch.available_qty b ->
  Batch.status b = Batch.STATUS_AVAILABLE ->
  exists db1,
    allocate_from_candidate order_item user (Some (Batch.id b)) qty db
    = (Ok (Some (Batch.lot_no b, Z.min (Batch.available_qty b) qty)), db1)
    /\ rows (batches db1)
       = map (fun a => if Batch.id a =? Batch.id b
                       then Batch.with_available_qty
                              (Batch.available_qty a
                               - Z.min (Batch.available_qty b) qty) a
                       else a)
             (rows (batches db)).
Proof.
  intros Hnd Hin Hav Hs.
  pose proof (find_pk_unique Batch.id _ _ Hnd Hin) as Hf.
  destruct (allocate_from_candidate_cases order_item user
              (Some (Batch.id b)) qty db)
    as [[Hdb Hnone]|(b' & Hf' & _ & _ & _ & E)].
  - exfalso.
    destruct (allocate_from_candidate order_item user (Some (Batch.id b))
                qty db) as [r db1] eqn:E.
    cbn [fst snd] in Hdb, Hnone. subst db1. revert E.
    unfold allocate_from_candidate, bind at 1, Batch_get, objects_get.
    rewrite Hf.
    replace (Batch.available_qty b <=? 0) with false
      by (symmetry; apply Z.leb_gt; exact Hav).
    rewrite Hs, String.eqb_refl. cbn [orb negb].
    unfold bind at 1, Batch_update_available_minus. cbn [map_rows rows].
    erewrite (@forallb_updated_rows
                (fun a => Batch.with_available_qty
                            (Batch.available_qty a
                             - Z.min (Batch.available_qty b) qty) a)
                (Batch.id b) (rows (batches db)) b);
      [| reflexivity | exact Hnd | exact Hf
       | unfold batch_check_ok; cbn; apply Z.leb_le; lia ].
    unfold bind, Allocation_create, TransactionLog_objects_create,
      TransactionLog_save, TransactionLog_super_save, ret.
    cbn. intros E. inversion E as [[Hr Hd]]. apply (Hnone _ (eq_sym Hr)).
  - rewrite Hf in Hf'. inversion Hf'. subst b'.
    rewrite E. eexists. split; reflexivity.
Qed.

Lemma forward_takes_stock order_item user bs :
  forall qty made db,
    NoDup (map Batch.id (rows (batches db))) ->
    NoDup (map Batch.id bs) ->
    (forall b, In b bs ->
               In b (rows (batches db))
               /\ 0 < Batch.available_qty b
               /\ Batch.status b = Batch.STATUS_AVAILABLE) ->
    0 <= qty ->
    exists made' db1,
      allocate_forward order_item user (map Batch.id bs) qty made db
      = (Ok (made',
             Z.max 0 (qty - fold_right Z.add 0 (map Batch.available_qty bs))),
         db1).
Proof.
  induction bs as [|b bs IH]; intros qty made db Hnd Hbs Hall Hq.
  - cbn. exists made, db. unfold ret.
    replace (Z.max 0 (qty - 0)) with qty by lia. reflexivity.
  - assert (Hsum : 0 <= fold_right Z.add 0 (map Batch.available_qty bs)).
    { clear - Hall. induction bs as [|a bs IH]; cbn; [lia|].
      assert (0 < Batch.available_qty a)
        by (apply (Hall a); right; left; reflexivity).
      assert (0 <= fold_right Z.add 0 (map Batch.available_qty bs)).
      { apply IH. intros x [Hx|Hx]; apply Hall; [left|right; right];
          assumption. }
      lia. }
    cbn [map allocate_forward fold_right].
    destruct (Hall b (or_introl eq_refl)) as (Hin & Hav & Hs).
    destruct (0 <? qty) eqn:Hpos.
    2:{ apply Z.ltb_ge in Hpos. exists made, db. unfold ret.
        replace (Z.max 0 _) with qty by lia. reflexivity. }
    apply Z.ltb_lt in Hpos.
    destruct (@candidate_allocates order_item user qty db b Hnd Hin Hav Hs)
      as (db1 & E & Hrows).
    unfold bind. rewrite E.
    inversion Hbs as [|? ? Hnotin Hbs']. subst.
    destruct (IH (qty - Z.min (Batch.available_qty b) qty)
                 (made ++ [(Batch.lot_no b,
                            Z.min (Batch.available_qty b) qty)])
                 db1) as (made' & db2 & E2).
    + rewrite Hrows, map_map.
      erewrite map_ext; [exact Hnd|].
      intros a. destruct (Batch.id a =? Batch.id b); reflexivity.
    + exact Hbs'.
    + intros a Ha. destruct (Hall a (or_intror Ha)) as (Hain & Haav & Has).
      split; [|split; assumption].
      rewrite Hrows. apply in_map_iff. exists a. split; [|exact Hain].
      replace (Batch.id a =? Batch.id b) with false; [reflexivity|].
      symmetry. apply Z.eqb_neq. intros Eid. apply Hnotin.
      rewrite <- Eid. apply in_map. exact Ha.
    + lia.
    + rewrite E2. exists made', db2.
      replace (Z.max 0 (qty - (Batch.available_qty b
                               + fold_right Z.add 0
                                   (map Batch.available_qty bs))))
        with (Z.max 0 (qty - Z.min (Batch.available_qty b) qty
                       - fold_right Z.add 0 (map Batch.available_qty bs)))
        by lia.
      reflexivity.
Qed.

Lemma filter_keeps_keys_unique {R} (key : R -> Z) (keep : R -> bool) :
  forall table : list R,
    NoDup (map key table) -> NoDup (map key (filter keep table)).
Proof.
  intros table. induction table as [|r table IH]; cbn; [auto|].
  intros H. inversion H as [|? ? Hnot Hrest]. subst.
  destruct (keep r); cbn; [|apply IH; exact Hrest].
  constructor; [|apply IH; exact Hrest].
  intros Hin. apply Hnot. apply in_map_iff in Hin.
  destruct Hin as (y & Hy & Hin). apply filter_In in Hin.
  apply in_map_iff. exists y. split; [exact Hy|apply Hin].
Qed.

Lemma sum_permutation (l l' : list Z) :
  Permutation l l' -> fold_right Z.add 0 l = fold_right Z.add 0 l'.
Proof. intros H. induction H; cbn; lia. Qed.

(** X13.  With unique batch keys, a line that still needs stock takes
    exactly as much as the candidate query offers: the quantity left over
    is the quantity needed minus the summed [available_qty] of the eligible
    batches of the item, or zero when there is enough.  So the line is
    reported "fully_allocated" exactly when the eligible stock covers the
    quantity needed; stock is never left unused while a line is short. *)
Theorem line_takes_eligible_stock env order_item user db line db' :
  let qty_needed :=
    OrderItem.qty_requested (OrderItem.row order_item)
    - OrderItem.qty_allocated (OrderItem.row order_item) in
  let offered := eligible_stock env (OrderItem.item_obj order_item) db in
  NoDup (map Batch.id (rows (batches db))) ->
  0 < qty_needed ->
  _allocate_item_with_stack env order_item user db = (Ok line, db') ->
  line_qty_remaining line = Some (Z.max 0 (qty_needed - offered))
  /\ (line_status line = "fully_allocated" <-> qty_needed <= offered).
Proof.
  intros qty_needed offered Hnd Hneed.
  rewrite allocate_item_as_forward. unfold allocate_item_forward.
  fold qty_needed.
  replace (qty_needed <=? 0) with false by (symmetry; apply Z.leb_gt; lia).
  unfold bind at 1, eligible_batches, read. unfold bind at 1.
  set (bs := sort_by (expiry_pk_leb (engine env))
                     (filter (is_eligible env (OrderItem.item_obj order_item))
                             (rows (batches db)))).
  assert (Hperm : Permutation
                    (filter (is_eligible env (OrderItem.item_obj order_item))
                            (rows (batches db))) bs)
    by apply sort_by_perm.
  destruct (@forward_takes_stock order_item user bs qty_needed [] db Hnd)
    as (made & db1 & E).
  { eapply Permutation_NoDup; [apply Permutation_map; exact Hperm|].
    apply filter_keeps_keys_unique. exact Hnd. }
  { intros b Hb. apply (Permutation_in _ (Permutation_sym Hperm)) in Hb.
    apply filter_In in Hb. destruct Hb as [Hin Hel].
    unfold is_eligible in Hel.
    apply andb_prop in Hel. destruct Hel as [Hel _].
    apply andb_prop in Hel. destruct Hel as [Hel Hav].
    apply andb_prop in Hel. destruct Hel as [_ Hs].
    split; [exact Hin|]. split; [apply Z.ltb_lt; exact Hav|].
    apply String.eqb_eq. exact Hs. }
  { lia. }
  rewrite E. cbn [fst snd].
  replace (fold_right Z.add 0 (map Batch.available_qty bs)) with offered
    by (apply sum_permutation, Permutation_map; exact Hperm).
  unfold bind at 1.
  destruct (OrderItem_update_allocated_plus _ _ db1) as [[[]|e] db2];
    [|discriminate].
  unfold bind, ret.
  destruct (OrderItem_get _ db2) as [[refreshed|e] db3]; [|discriminate].
  intros H. inversion H. subst line db3. clear H.
  cbn [line_qty_remaining line_status].
  split; [reflexivity|].
  destruct (Z.max 0 (qty_needed - offered) <=? 0) eqn:Hl.
  - apply Z.leb_le in Hl. split; [lia|reflexivity].
  - apply Z.leb_gt in Hl.
    destruct (0 <? _); split; try discriminate; lia.
Qed.

Lemma line_takes_eligible_stock_witness :
  Some 75000 = Some (Z.max 0 (300000 - 0
                     - eligible_stock (test_env postgresql)
                         (Item.mk 1 "TEST-001") (fefo_db 300000)))
  /\ ("partially_allocated" = "fully_allocated"
      <-> 300000 - 0
          <= eligible_stock (test_env postgresql) (Item.mk 1 "TEST-001")
                            (fefo_db 300000)).
Proof.
  refine (@line_takes_eligible_stock (test_env postgresql)
            (OrderItem.mkInst (OrderItem.mk 1 1 1 300000 0)
               (Item.mk 1 "TEST-001") (Order.mk 1 "ORD-001" Order.STATUS_NEW))
            (Some 7) (fefo_db 300000)
            (mkLine 1 "TEST-001" "partially_allocated" 300000 225000
                    (Some 75000)
                    [("LOT-A", 50000); ("LOT-B", 100000); ("LOT-C", 75000)])
            (snd (_allocate_item_with_stack (test_env postgresql)
                    (OrderItem.mkInst (OrderItem.mk 1 1 1 300000 0)
                       (Item.mk 1 "TEST-001")
                       (Order.mk 1 "ORD-001" Order.STATUS_NEW))
                    (Some 7) (fefo_db 300000)))
            _ _ _).
  - cbn. repeat constructor; cbn; intuition discriminate.
  - cbn. lia.
  - vm_compute. reflexivity.
Defined.

(* ===================================================================== *)
(** * The undo and redo handlers called directly *)
(* ===================================================================== *)

Lemma fails_atomic {A} (m : M A) : fails m -> fails (atomic m).
Proof.
  intros Hm db. destruct (Hm db) as (e & db1 & H).
  exists e, db. unfold atomic. rewrite H. reflexivity.
Qed.

Lemma fails_unchanged_raises {A} (m : M A) db :
  fails m -> unchanged m -> exists e, m db = (Raise e, db).
Proof.
  intros Hf Hu. destruct (Hf db) as (e & db1 & H).
  exists e. specialize (Hu db). rewrite H in Hu. cbn in Hu. subst db1.
  exact H.
Qed.

Lemma fails_undo_allocation env data user :
  fails (undo_allocation env data user).
Proof.
  unfold undo_allocation.
  apply fails_bind_r; intros order_id.
  apply fails_bind_r; intros allocations.
  apply fails_bind_l, fails_atomic.
  apply fails_bind_r; intros alloc_list.
  apply fails_bind_r; intros _.
  fails_walk.
Qed.

Lemma fails_undo_ship env data user : fails (undo_ship env data user).
Proof.
  unfold undo_ship.
  apply fails_bind_r; intros shipment_id.
  apply fails_bind_r; intros order_id.
  apply fails_bind_r; intros consumptions.
  apply fails_bind_l, fails_atomic.
  apply fails_bind_r; intros cons_list.
  apply fails_bind_r; intros _.
  fails_walk.
Qed.

Lemma fails_undo_restock env data user : fails (undo_restock env data user).
Proof.
  unfold undo_restock.
  apply fails_bind_r; intros return_id.
  apply fails_bind_r; intros batch_id.
  apply fails_bind_r; intros raw_qty.
  apply fails_bind_r; intros qty_restocked.
  apply fails_bind_l, fails_atomic. fails_walk.
Qed.

Lemma for_each_returns_on_empty {A} (xs : list A) (body : A -> M unit) :
  (forall x, fails (body x)) ->
  forall db a db', for_each xs body db = (Ok a, db') -> xs = [].
Proof.
  intros Hb db a db'. destruct xs as [|x xs]; [reflexivity|].
  cbn [for_each]. intros H.
  destruct (fails_bind_l (fun _ => for_each xs body) (Hb x) db)
    as (e & db1 & H1). congruence.
Qed.

Lemma json_iter_empty_len v db :
  json_iter v = Ok [] -> json_len v db = (Ok 0%nat, db).
Proof.
  destruct v as [| | |s|l|kv]; cbn; try discriminate.
  - destruct s; [reflexivity|discriminate].
  - intros H. inversion H. reflexivity.
  - destruct kv; [reflexivity|discriminate].
Qed.

(** X14.  Called directly, no undo handler can change the database:
    [undo_allocation], [undo_ship] and [undo_restock] raise for every
    payload and user (their log rows are built with keywords that
    [TransactionLog] does not have, and [Order] has no [STATUS_PENDING] or
    [STATUS_PACKED]), and [undo_receive] and [redo_receive] leave the
    database as it was and return only when the list in the payload is
    empty, with the message for zero batches. *)
Theorem undo_handlers_change_nothing env data user db :
  (exists e, undo_allocation env data user db = (Raise e, db))
  /\ (exists e, undo_ship env data user db = (Raise e, db))
  /\ (exists e, undo_restock env data user db = (Raise e, db))
  /\ snd (undo_receive env data user db) = db
  /\ snd (redo_receive env data user db) = db
  /\ (forall msg,
         fst (undo_receive env data user db) = Ok msg ->
         msg = "Undid receive operation: 0 batch(es) deleted")
  /\ (forall msg,
         fst (redo_receive env data user db) = Ok msg ->
         msg = "Redid receive operation: 0 batch(es) created").
Proof.
  split; [apply fails_unchanged_raises;
          [apply fails_undo_allocation|apply unchanged_undo_allocation]|].
  split; [apply fails_unchanged_raises;
          [apply fails_undo_ship|apply unchanged_undo_ship]|].
  split; [apply fails_unchanged_raises;
          [apply fails_undo_restock|apply unchanged_undo_restock]|].
  split; [apply unchanged_undo_receive|].
  split; [apply unchanged_redo_receive|].
  split.
  - intros msg. unfold undo_receive, bind at 1.
    pose proof (unchanged_data_get data "batch_ids" (JList []) db) as Hd.
    destruct (data_get data "batch_ids" (JList []) db)
      as [[batch_ids|e] db1]; [|discriminate].
    cbn [snd] in Hd. subst db1.
    unfold bind at 1, atomic. unfold bind at 1, lift.
    destruct (json_iter batch_ids) as [ids|e] eqn:Hi; [|discriminate].
    match goal with
    | |- context [for_each ids ?body db] =>
        destruct (for_each ids body db) as [[[]|e] db2] eqn:Hloop;
        [apply for_each_returns_on_empty in Hloop;
         [|intros batch_id; fails_walk]|discriminate]
    end.
    subst ids. unfold bind. rewrite (json_iter_empty_len _ _ Hi).
    cbn. intros H. inversion H. reflexivity.
  - intros msg. unfold redo_receive, bind at 1.
    pose proof (unchanged_data_get data "batches" (JList []) db) as Hd.
    destruct (data_get data "batches" (JList []) db)
      as [[batch_data_list|e] db1]; [|discriminate].
    cbn [snd] in Hd. subst db1.
    unfold bind at 1, atomic. unfold bind at 1, lift.
    destruct (json_iter batch_data_list) as [entries|e] eqn:Hi;
      [|discriminate].
    match goal with
    | |- context [for_each entries ?body db] =>
        destruct (for_each entries body db) as [[[]|e] db2] eqn:Hloop;
        [apply for_each_returns_on_empty in Hloop;
         [|intros batch_data; fails_walk]|discriminate]
    end.
    subst entries. unfold bind. rewrite (json_iter_empty_len _ _ Hi).
    cbn. intros H. inversion H. reflexivity.
Qed.

(** X15.  [undo_receive] refuses a received batch that has been allocated
    from: when the first batch named in the payload is stored and an
    Allocation row references it, the handler raises [UndoRedoError] with
    the batch's lot number in the message, and the database is unchanged
    (no batch deleted, no log row written). *)
Theorem undo_receive_refuses_allocated_batch env user db payload k rest b :
  assoc "batch_ids" payload = Some (JList (JInt k :: rest)) ->
  find_pk Batch.id (Some k) (rows (batches db)) = Some b ->
  existsb (fun a => Allocation.batch a =? Batch.id b)
          (rows (allocations db)) = true ->
  undo_receive env (PJson (JDict payload)) user db
  = (Raise (mkExn UndoRedoError
              ("Cannot undo receive: Batch " ++ Batch.lot_no b
               ++ " has active allocations")), db).
Proof.
  intros Hp Hf Hused.
  unfold undo_receive, bind at 1, data_get, lift, json_get. rewrite Hp.
  unfold bind at 1.
  erewrite atomic_raise; [reflexivity|].
  unfold bind at 1, lift. cbn [json_iter for_each].
  unfold bind at 1. unfold bind at 1, lift. cbn [pk_of_json].
  unfold bind at 1, Batch_get, objects_get. rewrite Hf.
  unfold bind at 1, Batch_allocations_exists, read. rewrite Hused.
  reflexivity.
Qed.

Lemma undo_receive_refuses_allocated_batch_witness :
  undo_receive (test_env postgresql)
    (PJson (JDict [("batch_ids", JList [JInt 1])])) (Some 7)
    (allocated_db postgresql)
  = (Raise (mkExn UndoRedoError
              "Cannot undo receive: Batch LOT-A has active allocations"),
     allocated_db postgresql).
Proof.
  apply (@undo_receive_refuses_allocated_batch (test_env postgresql) (Some 7)
           (allocated_db postgresql) [("batch_ids", JList [JInt 1])] 1 []
           (Batch.mk 1 1 "LOT-A" 50000 0 (Some 5) Batch.STATUS_AVAILABLE)).
  - reflexivity.
  - vm_compute. reflexivity.
  - vm_compute. reflexivity.
Defined.

(** X16.  [perform_undo] and [perform_redo] have three outcomes only.  A
    count of zero or less returns the empty list; on an empty stack a
    positive count returns the single message "No more operations to
    undo" (or "redo"); in both cases the database is unchanged.  On a
    non-empty stack a positive count deletes the newest record and raises
    [AttributeError] on its [operation_type], whatever the record is and
    however large the count: no handler runs and at most one record is
    consumed. *)
Theorem undo_redo_driver_outcomes env user count db :
  (count <= 0 ->
   perform_undo env user count db = (Ok [], db)
   /\ perform_redo env user count db = (Ok [], db))
  /\ (0 < count ->
      Stack_top (rows (undo_stack db)) = None ->
      perform_undo env user count db
      = (Ok ["No more operations to undo"], db))
  /\ (0 < count ->
      Stack_top (rows (redo_stack db)) = None ->
      perform_redo env user count db
      = (Ok ["No more operations to redo"], db))
  /\ (0 < count ->
      forall top,
        Stack_top (rows (undo_stack db)) = Some top ->
        perform_undo env user count db
        = (Raise (mkExn AttributeError
                    "'UndoStack' object has no attribute 'operation_type'"),
           set_undo_stack
             (filter_rows (fun r => negb (StackRow.id r =? StackRow.id top)))
             db))
  /\ (0 < count ->
      forall top,
        Stack_top (rows (redo_stack db)) = Some top ->
        perform_redo env user count db
        = (Raise (mkExn AttributeError
                    "'RedoStack' object has no attribute 'operation_type'"),
           set_redo_stack
             (filter_rows (fun r => negb (StackRow.id r =? StackRow.id top)))
             db)).
Proof.
  unfold perform_undo, perform_redo.
  split.
  { intros Hc. replace (Z.to_nat count) with 0%nat by lia.
    split; reflexivity. }
  assert (Hn : 0 < count -> exists n, Z.to_nat count = S n)
    by (intros Hc; exists (Nat.pred (Z.to_nat count)); lia).
  repeat split; intros Hc; destruct (Hn Hc) as [n ->].
  - intros Htop. rewrite driver_loop_step.
    unfold UndoStack_pop, Stack_pop, atomic, bind at 1, read.
    rewrite Htop. reflexivity.
  - intros Htop. rewrite driver_loop_step.
    unfold RedoStack_pop, Stack_pop, atomic, bind at 1, read.
    rewrite Htop. reflexivity.
  - intros top Htop. rewrite driver_loop_step.
    unfold UndoStack_pop, Stack_pop, atomic, bind at 1, read.
    rewrite Htop. reflexivity.
  - intros top Htop. rewrite driver_loop_step.
    unfold RedoStack_pop, Stack_pop, atomic, bind at 1, read.
    rewrite Htop. reflexivity.
Qed.

Lemma undo_redo_driver_outcomes_witness :
  perform_redo (test_env sqlite3) (Some 7) 3 (fefo_db 120000)
  = (Ok ["No more operations to redo"], fefo_db 120000).
Proof.
  apply (proj1 (proj2 (proj2 (@undo_redo_driver_outcomes
                                (test_env sqlite3) (Some 7) 3
                                (fefo_db 120000))))).
  - lia.
  - reflexivity.
Defined.

(** [push_undo_operation] and [push_redo_operation] can never record an
    operation: whatever the arguments, the call of [UndoStack.push] (or
    [RedoStack.push]) with the keyword [operation_type] raises [TypeError],
    and the database is unchanged. *)
Lemma push_operation_never_records env operation_type data user
        description db :
  push_undo_operation env operation_type data user description db
  = (Raise (mkExn TypeError
              "UndoStack.push() got an unexpected keyword argument 'operation_type'"),
     db)
  /\ push_redo_operation env operation_type data user description db
     = (Raise (mkExn TypeError
                 "RedoStack.push() got an unexpected keyword argument 'operation_type'"),
        db).
Proof. split; reflexivity. Qed.

(* ===================================================================== *)
(** * UndoStack and RedoStack: push, then pop *)
(* ===================================================================== *)

Lemma Stack_top_from (l : list StackRow.t) : forall best b,
  fold_left
    (fun best r =>
       match best with
       | None => Some r
       | Some b => if StackRow.id b <? StackRow.id r then Some r else Some b
       end) l best = Some b ->
  best = Some b \/ In b l.
Proof.
  induction l as [|r l IH]; intros best b; cbn; [auto|].
  intros H. apply IH in H. destruct H as [H|H]; [|auto].
  destruct best as [b0|].
  - destruct (StackRow.id b0 <? StackRow.id r); inversion H; subst; auto.
  - inversion H. auto.
Qed.

Lemma Stack_top_newest (l : list StackRow.t) (r : StackRow.t) :
  (forall x, In x l -> StackRow.id x < StackRow.id r) ->
  Stack_top (l ++ [r]) = Some r.
Proof.
  intros Hlt. unfold Stack_top. rewrite fold_left_app. cbn.
  match goal with
  | |- match ?t with _ => _ end = _ => destruct t as [b|] eqn:E
  end; [|reflexivity].
  apply Stack_top_from in E. destruct E as [E|E]; [discriminate|].
  replace (StackRow.id b <? StackRow.id r) with true; [reflexivity|].
  symmetry. apply Z.ltb_lt. apply Hlt. exact E.
Qed.

Lemma filter_out_newest (l : list StackRow.t) (r : StackRow.t) :
  (forall x, In x l -> StackRow.id x < StackRow.id r) ->
  filter (fun x => negb (StackRow.id x =? StackRow.id r)) (l ++ [r]) = l.
Proof.
  intros Hlt. rewrite filter_app. cbn. rewrite Z.eqb_refl. cbn.
  rewrite app_nil_r. induction l as [|x l IH]; [reflexivity|].
  cbn. replace (StackRow.id x =? StackRow.id r) with false.
  - cbn. f_equal. apply IH. intros y Hy. apply Hlt. right. exact Hy.
  - symmetry. apply Z.eqb_neq.
    assert (StackRow.id x < StackRow.id r) by (apply Hlt; left; reflexivity).
    lia.
Qed.

(** X17.  [UndoStack] and [RedoStack] are stacks: with keys handed out by
    the database, [pop] right after [push(op_name, metadata)] returns an
    unsaved copy of exactly the record pushed (the metadata replaced by
    the empty dict when it is falsy, no primary key) and leaves the rows of
    the table as they were before the push; [pop] on an empty table
    returns [None] and changes nothing. *)
Theorem stack_push_then_pop env op metadata db :
  keys_assigned StackRow.id (undo_stack db) ->
  keys_assigned StackRow.id (redo_stack db) ->
  let stored := if json_truthy metadata then metadata else JDict [] in
  let kwargs := [("op_name", PStr op); ("metadata", PJson metadata)] in
  let copy := StackRow.mkInst None op stored (now env) in
  fst (UndoStack_pop (snd (UndoStack_push env kwargs db))) = Ok (Some copy)
  /\ rows (undo_stack (snd (UndoStack_pop (snd (UndoStack_push env kwargs
                                                               db)))))
     = rows (undo_stack db)
  /\ fst (RedoStack_pop (snd (RedoStack_push env kwargs db))) = Ok (Some copy)
  /\ rows (redo_stack (snd (RedoStack_pop (snd (RedoStack_push env kwargs
                                                               db)))))
     = rows (redo_stack db)
  /\ (rows (undo_stack db) = [] -> UndoStack_pop db = (Ok None, db))
  /\ (rows (redo_stack db) = [] -> RedoStack_pop db = (Ok None, db)).
Proof.
  intros [Hu1 Hu] [Hr1 Hr] stored kwargs copy.
  assert (Hnew : forall tb : Table StackRow.t,
             (forall r, In r (rows tb) -> 1 <= StackRow.id r < next_id tb) ->
             forall x, In x (rows tb) ->
                       StackRow.id x
                       < StackRow.id (StackRow.mk (next_id tb) op stored
                                                  (now env))).
  { intros tb Hk x Hx. cbn. apply Hk. exact Hx. }
  repeat split.
  - unfold UndoStack_pop, UndoStack_push, Stack_pop, Stack_push, atomic,
      bind at 1, read.
    cbn [unexpected_kwarg existsb String.eqb Ascii.eqb Bool.eqb orb assoc
         kwargs snd fst undo_stack set_undo_stack insert_row rows as_str].
    fold stored.
    rewrite (Stack_top_newest _ _ (Hnew _ Hu)). reflexivity.
  - unfold UndoStack_pop, UndoStack_push, Stack_pop, Stack_push, atomic,
      bind at 1, read.
    cbn [unexpected_kwarg existsb String.eqb Ascii.eqb Bool.eqb orb assoc
         kwargs snd fst undo_stack set_undo_stack insert_row rows as_str].
    fold stored.
    rewrite (Stack_top_newest _ _ (Hnew _ Hu)).
    cbn [bind write ret snd undo_stack set_undo_stack filter_rows rows].
    unfold bind, write, ret. cbn [snd undo_stack set_undo_stack filter_rows
                                  rows insert_row].
    apply (filter_out_newest _ _ (Hnew _ Hu)).
  - unfold RedoStack_pop, RedoStack_push, Stack_pop, Stack_push, atomic,
      bind at 1, read.
    cbn [unexpected_kwarg existsb String.eqb Ascii.eqb Bool.eqb orb assoc
         kwargs snd fst redo_stack set_redo_stack insert_row rows as_str].
    fold stored.
    rewrite (Stack_top_newest _ _ (Hnew _ Hr)). reflexivity.
  - unfold RedoStack_pop, RedoStack_push, Stack_pop, Stack_push, atomic,
      bind at 1, read.
    cbn [unexpected_kwarg existsb String.eqb Ascii.eqb Bool.eqb orb assoc
         kwargs snd fst redo_stack set_redo_stack insert_row rows as_str].
    fold stored.
    rewrite (Stack_top_newest _ _ (Hnew _ Hr)).
    unfold bind, write, ret. cbn [snd redo_stack set_redo_stack filter_rows
                                  rows insert_row].
    apply (filter_out_newest _ _ (Hnew _ Hr)).
  - intros He. unfold UndoStack_pop, Stack_pop, atomic, bind, read.
    rewrite He. reflexivity.
  - intros He. unfold RedoStack_pop, Stack_pop, atomic, bind, read.
    rewrite He. reflexivity.
Qed.

Lemma stack_push_then_pop_witness :
  fst (UndoStack_pop
         (snd (UndoStack_push (test_env sqlite3)
                 [("op_name", PStr "allocation");
                  ("metadata", PJson (JDict [("order_id", JInt 1)]))]
                 (fefo_db 120000))))
  = Ok (Some (StackRow.mkInst None "allocation"
                              (JDict [("order_id", JInt 1)]) 0)).
Proof.
  refine (proj1 (@stack_push_then_pop (test_env sqlite3) "allocation"
                   (JDict [("order_id", JInt 1)]) (fefo_db 120000) _ _)).
  - split; [cbn; lia|intros r []].
  - split; [cbn; lia|intros r []].
Defined.

(* ===================================================================== *)
(** * The order in which a line consumes its candidates *)
(* ===================================================================== *)

Lemma forward_stops_at_zero order_item user l made db :
  allocate_forward order_item user l 0 made db = (Ok (made, 0), db).
Proof. destruct l; reflexivity. Qed.

Lemma forward_in_order order_item user bs :
  forall qty made db,
    NoDup (map Batch.id (rows (batches db))) ->
    NoDup (map Batch.id bs) ->
    (forall b, In b bs ->
               In b (rows (batches db))
               /\ 0 < Batch.available_qty b
               /\ Batch.status b = Batch.STATUS_AVAILABLE) ->
    0 <= qty ->
    exists loop db1,
      allocate_forward order_item user (map Batch.id bs) qty made db
      = (Ok loop, db1)
      /\ map Batch.id (rows (batches db1)) = map Batch.id (rows (batches db))
      /\ (forall a, In a (rows (batches db)) ->
                    ~ In (Batch.id a) (map Batch.id bs) ->
                    In a (rows (batches db1)))
      /\ (qty = 0 -> rows (batches db1) = rows (batches db))
      /\ (forall pre x post x',
             bs = pre ++ x :: post ->
             In x' (rows (batches db1)) ->
             Batch.id x' = Batch.id x ->
             Batch.available_qty x' < Batch.available_qty x ->
             forall a a',
               In a pre -> In a' (rows (batches db1)) ->
               Batch.id a' = Batch.id a ->
               Batch.available_qty a' = 0).
Proof.
  induction bs as [|b bs IH]; intros qty made db Hnd Hbs Hall Hq.
  - exists (made, qty), db. cbn. repeat split; auto.
    intros pre x post x' H. destruct pre; discriminate.
  - destruct (Hall b (or_introl eq_refl)) as (Hin & Hav & Hs).
    cbn [map allocate_forward].
    destruct (0 <? qty) eqn:Hpos.
    + apply Z.ltb_lt in Hpos.
      destruct (@candidate_allocates order_item user qty db b Hnd Hin Hav Hs)
        as (db_mid & E & Hrows).
      set (m := Z.min (Batch.available_qty b) qty) in *.
      unfold bind. rewrite E.
      inversion Hbs as [|? ? Hnotin Hbs']. subst.
      assert (Hmid_ids : map Batch.id (rows (batches db_mid))
                         = map Batch.id (rows (batches db))).
      { rewrite Hrows, map_map. apply map_ext. intros a.
        destruct (Batch.id a =? Batch.id b); reflexivity. }
      assert (Hmid_nd : NoDup (map Batch.id (rows (batches db_mid))))
        by (rewrite Hmid_ids; exact Hnd).
      assert (Hmid_other : forall a, In a (rows (batches db)) ->
                                     Batch.id a <> Batch.id b ->
                                     In a (rows (batches db_mid))).
      { intros a Ha Hne. rewrite Hrows. apply in_map_iff. exists a.
        split; [|exact Ha].
        replace (Batch.id a =? Batch.id b) with false; [reflexivity|].
        symmetry. apply Z.eqb_neq. exact Hne. }
      assert (Hrest_ne : forall a, In a bs -> Batch.id a <> Batch.id b).
      { intros a Ha Eid. apply Hnotin. rewrite <- Eid. apply in_map.
        exact Ha. }
      destruct (IH (qty - m) (made ++ [(Batch.lot_no b, m)]) db_mid Hmid_nd
                   Hbs')
        as (loop & db1 & E2 & Hids & Hunt & Hzero & Hord).
      { intros a Ha. destruct (Hall a (or_intror Ha)) as (Hain & Haav & Has).
        split; [|split; assumption].
        apply Hmid_other; [exact Hain|apply Hrest_ne; exact Ha]. }
      { unfold m. lia. }
      exists loop, db1. split; [exact E2|].
      split; [rewrite Hids; exact Hmid_ids|].
      split.
      { intros a Ha Hnot. apply Hunt.
        - apply Hmid_other; [exact Ha|].
          intros Eid. apply Hnot. left. symmetry. exact Eid.
        - intros Hi. apply Hnot. right. exact Hi. }
      split; [intros Hz; lia|].
      intros pre x post x' Hsplit Hx' Hidx Hlt a a' Ha Ha' Hida.
      destruct pre as [|p pre]; [contradiction|].
      cbn in Hsplit. inversion Hsplit as [[Hp Hbs_eq]]. subst p.
      destruct Ha as [Hab|Ha].
      * subst a.
        set (b_mid := Batch.with_available_qty (Batch.available_qty b - m) b).
        assert (Hbm : In b_mid (rows (batches db_mid))).
        { rewrite Hrows. apply in_map_iff. exists b.
          rewrite Z.eqb_refl. split; [reflexivity|exact Hin]. }
        assert (Hb1 : In b_mid (rows (batches db1)))
          by (apply Hunt; [exact Hbm|exact Hnotin]).
        assert (a' = b_mid).
        { apply (unique_key_row Batch.id (rows (batches db1)));
            [rewrite Hids; exact Hmid_nd|exact Ha'|exact Hb1|exact Hida]. }
        subst a'. cbn.
        destruct (Z.le_gt_cases (Batch.available_qty b) qty) as [Hle|Hgt];
          [unfold m; lia|].
        exfalso.
        assert (Hx : In x bs) by (rewrite Hbs_eq; apply in_elt).
        destruct (Hall x (or_intror Hx)) as (Hxin & _ & _).
        assert (Hxm : In x (rows (batches db_mid)))
          by (apply Hmid_other; [exact Hxin|apply Hrest_ne; exact Hx]).
        rewrite Hzero in Hx' by (unfold m; lia).
        assert (x' = x)
          by (apply (unique_key_row Batch.id (rows (batches db_mid)));
              assumption).
        subst x'. lia.
      * apply (Hord pre x post x' Hbs_eq Hx' Hidx Hlt a a' Ha Ha' Hida).
    + apply Z.ltb_ge in Hpos. assert (qty = 0) by lia. subst qty.
      exists (made, 0), db. unfold ret. repeat split; auto.
      intros pre x post x' Hsplit Hx' Hidx Hlt.
      exfalso.
      assert (Hx : In x (b :: bs)) by (rewrite Hsplit; apply in_elt).
      destruct (Hall x Hx) as (Hxin & _ & _).
      assert (x' = x)
        by (apply (unique_key_row Batch.id (rows (batches db)));
            assumption).
      subst x'. lia.
Qed.

Lemma expiry_pk_leb_trans e a b c :
  expiry_pk_leb e a b = true -> expiry_pk_leb e b c = true ->
  expiry_pk_leb e a c = true.
Proof.
  unfold expiry_pk_leb, expiry_compare.
  destruct (Batch.expiry_date a) as [x|], (Batch.expiry_date b) as [y|],
           (Batch.expiry_date c) as [z|];
    destruct (nulls_first e); cbn;
    repeat match goal with
           | |- context [?u ?= ?v] => destruct (Z.compare_spec u v)
           end;
    intros Hab Hbc; try discriminate; try reflexivity; try lia;
    try (apply Z.leb_le in Hab; apply Z.leb_le in Hbc; apply Z.leb_le; lia).
Qed.

Lemma expiry_pk_leb_antisym e a b :
  expiry_pk_leb e a b = true -> expiry_pk_leb e b a = true ->
  Batch.id a = Batch.id b.
Proof.
  unfold expiry_pk_leb, expiry_compare.
  destruct (Batch.expiry_date a) as [x|], (Batch.expiry_date b) as [y|];
    destruct (nulls_first e); cbn;
    repeat match goal with
           | |- context [?u ?= ?v] => destruct (Z.compare_spec u v)
           end;
    intros Hab Hba; try discriminate; try lia;
    try (apply Z.leb_le in Hab; apply Z.leb_le in Hba; lia).
Qed.

Lemma sorted_position {A} (R : A -> A -> Prop) (bs : list A) (b1 b2 : A) :
  StronglySorted R bs ->
  In b1 bs -> In b2 bs -> ~ R b2 b1 -> b1 <> b2 ->
  exists pre post, bs = pre ++ b2 :: post /\ In b1 pre.
Proof.
  intros Hs. induction Hs as [|a l Hs IH Hall]; [contradiction|].
  intros H1 H2 Hnot Hne.
  destruct H2 as [H2|H2].
  - subst a. destruct H1 as [H1|H1]; [congruence|].
    exfalso. apply Hnot. rewrite Forall_forall in Hall. apply Hall. exact H1.
  - destruct H1 as [H1|H1].
    + subst a. destruct (in_split _ _ H2) as (l1 & l2 & ->).
      exists (b1 :: l1), l2. split; [reflexivity|left; reflexivity].
    + destruct (IH H1 H2 Hnot Hne) as (pre & post & -> & Hin).
      exists (a :: pre), post. split; [reflexivity|right; exact Hin].
Qed.

(** X18.  A line consumes its candidates strictly in the order of the
    candidate query ([expiry_date], then key, with the engine's placement
    of NULL): with unique batch keys, whenever [_allocate_item_with_stack]
    has taken anything from an eligible batch, every eligible batch of the
    item that comes before it in that order has been emptied. *)
Theorem earlier_batches_are_emptied_first
        env order_item user db line db' b1 b2 b1' b2' :
  NoDup (map Batch.id (rows (batches db))) ->
  _allocate_item_with_stack env order_item user db = (Ok line, db') ->
  In b1 (rows (batches db)) ->
  In b2 (rows (batches db)) ->
  is_eligible env (OrderItem.item_obj order_item) b1 = true ->
  is_eligible env (OrderItem.item_obj order_item) b2 = true ->
  expiry_pk_leb (engine env) b1 b2 = true ->
  Batch.id b1 <> Batch.id b2 ->
  In b1' (rows (batches db')) -> Batch.id b1' = Batch.id b1 ->
  In b2' (rows (batches db')) -> Batch.id b2' = Batch.id b2 ->
  Batch.available_qty b2' < Batch.available_qty b2 ->
  Batch.available_qty b1' = 0.
Proof.
  intros Hnd Hrun Hin1 Hin2 He1 He2 Hleb Hne Hin1' Hid1 Hin2' Hid2 Hlt.
  revert Hrun. rewrite allocate_item_as_forward.
  unfold allocate_item_forward.
  destruct (_ <=? 0) eqn:Hneed.
  { intros H. inversion H. subst db'. exfalso.
    assert (b2' = b2)
      by (apply (unique_key_row Batch.id (rows (batches db))); assumption).
    subst b2'. lia. }
  apply Z.leb_gt in Hneed.
  unfold bind at 1, eligible_batches, read. unfold bind at 1.
  set (item := OrderItem.item_obj order_item) in *.
  set (bs := sort_by (expiry_pk_leb (engine env))
                     (filter (is_eligible env item) (rows (batches db)))).
  assert (Hperm : Permutation
                    (filter (is_eligible env item) (rows (batches db))) bs)
    by apply sort_by_perm.
  match goal with
  | |- context [allocate_forward ?oi ?u _ ?q ?m db] =>
      destruct (@forward_in_order oi u bs q m db Hnd)
        as (loop & db1 & E & Hids & _ & _ & Hord)
  end.
  { eapply Permutation_NoDup; [apply Permutation_map; exact Hperm|].
    apply filter_keeps_keys_unique. exact Hnd. }
  { intros b Hb. apply (Permutation_in _ (Permutation_sym Hperm)) in Hb.
    apply filter_In in Hb. destruct Hb as [Hin Hel].
    unfold is_eligible in Hel.
    apply andb_prop in Hel. destruct Hel as [Hel _].
    apply andb_prop in Hel. destruct Hel as [Hel Hav].
    apply andb_prop in Hel. destruct Hel as [_ Hs].
    split; [exact Hin|]. split; [apply Z.ltb_lt; exact Hav|].
    apply String.eqb_eq. exact Hs. }
  { lia. }
  rewrite E. unfold bind at 1.
  match goal with
  | |- context [OrderItem_update_allocated_plus ?pk ?q db1] =>
      destruct (OrderItem_update_frame pk q db1) as [tb Hfr];
      destruct (OrderItem_update_allocated_plus pk q db1) as [[[]|e] db2];
      [|discriminate]
  end.
  cbn [snd] in Hfr. subst db2.
  unfold bind, OrderItem_get, objects_get, ret.
  destruct (find_pk _ _ _); [|discriminate].
  intros H. inversion H. subst db'. clear H.
  cbn [batches set_order_items] in Hin1', Hin2'.
  assert (Hb1 : In b1 bs).
  { apply (Permutation_in _ Hperm). apply filter_In. split; assumption. }
  assert (Hb2 : In b2 bs).
  { apply (Permutation_in _ Hperm). apply filter_In. split; assumption. }
  destruct (@sorted_position _
              (fun a b => expiry_pk_leb (engine env) a b = true) bs b1 b2)
    as (pre & post & Hsplit & Hpre); try assumption.
  - apply Sorted_StronglySorted.
    + intros a b c. apply expiry_pk_leb_trans.
    + apply sort_by_sorted, expiry_pk_leb_total.
  - intros Hback. apply Hne. eapply expiry_pk_leb_antisym; eassumption.
  - intros Heq. apply Hne. rewrite Heq. reflexivity.
  - apply (Hord pre b2 post b2' Hsplit Hin2' Hid2 Hlt b1 b1' Hpre Hin1' Hid1).
Qed.

Lemma earlier_batches_are_emptied_first_witness :
  Batch.available_qty
    (Batch.mk 1 1 "LOT-A" 50000 0 (Some 5) Batch.STATUS_AVAILABLE) = 0.
Proof.
  refine (@earlier_batches_are_emptied_first (test_env postgresql)
            (OrderItem.mkInst (OrderItem.mk 1 1 1 120000 0)
               (Item.mk 1 "TEST-001") (Order.mk 1 "ORD-001" Order.STATUS_NEW))
            (Some 7) (fefo_db 120000)
            (mkLine 1 "TEST-001" "fully_allocated" 120000 120000 (Some 0)
                    [("LOT-A", 50000); ("LOT-B", 70000)])
            (snd (_allocate_item_with_stack (test_env postgresql)
                    (OrderItem.mkInst (OrderItem.mk 1 1 1 120000 0)
                       (Item.mk 1 "TEST-001")
                       (Order.mk 1 "ORD-001" Order.STATUS_NEW))
                    (Some 7) (fefo_db 120000)))
            (Batch.mk 1 1 "LOT-A" 50000 50000 (Some 5) Batch.STATUS_AVAILABLE)
            (Batch.mk 2 1 "LOT-B" 100000 100000 (Some 30)
                      Batch.STATUS_AVAILABLE)
            (Batch.mk 1 1 "LOT-A" 50000 0 (Some 5) Batch.STATUS_AVAILABLE)
            (Batch.mk 2 1 "LOT-B" 100000 30000 (Some 30)
                      Batch.STATUS_AVAILABLE)
            _ _ _ _ _ _ _ _ _ _ _ _ _).
  - cbn. repeat constructor; cbn; intuition discriminate.
  - vm_compute. reflexivity.
  - cbn. auto.
  - cbn. auto.
  - reflexivity.
  - reflexivity.
  - reflexivity.
  - cbn. lia.
  - vm_compute. auto.
  - reflexivity.
  - vm_compute. auto.
  - reflexivity.
  - cbn. lia.
Defined.

(* ===================================================================== *)
(** * The deallocation view *)
(* ===================================================================== *)

Lemma fails_deallocate_block env user order :
  fails (acc <- deallocate_body env order user ;;
         notify [ ("title", PStr ("Order " ++ Order.order_no order
                                  ++ " deallocated"));
                  ("message",
                   PStr ("Released " ++ str_json env (JDec (fst acc))
                         ++ " items from " ++ str_nat (snd acc)
                         ++ " allocations back to inventory."));
                  ("level", PStr Notification.LEVEL_INFO);
                  ("user", pyval_of_user user) ] ;;;
         ret (mkFlash "success"
                ("Successfully deallocated order " ++ Order.order_no order
                 ++ ". " ++ "Released " ++ str_json env (JDec (fst acc))
                 ++ " items from " ++ str_nat (snd acc)
                 ++ " allocations back to inventory."))).
Proof. apply fails_bind_r; intros acc. fails_walk. Qed.

(** X19.  [DeallocateOrderView.post] never deallocates: for an order that
    does not exist it answers 404, and for every existing order the
    transaction block is rolled back ([notify] is called with a [title]
    keyword it does not accept) and the view flashes an error message
    "Deallocation failed: ...".  In every case the database is left exactly
    as it was: no stock is released, no Allocation deleted, no status
    reset. *)
Theorem deallocation_view_never_commits env user order_id db :
  snd (DeallocateOrderView_post env user order_id db) = db
  /\ (find_pk Order.id (Some order_id) (rows (orders db)) = None ->
      fst (DeallocateOrderView_post env user order_id db)
      = Raise (mkExn Http404 "No Order matches the given query."))
  /\ (forall order,
         find_pk Order.id (Some order_id) (rows (orders db)) = Some order ->
         exists reason,
           fst (DeallocateOrderView_post env user order_id db)
           = Ok (mkFlash "error" ("Deallocation failed: " ++ reason))).
Proof.
  split; [apply unchanged_deallocate|].
  unfold DeallocateOrderView_post, bind at 1, try_except at 1, Order_get,
    objects_get.
  split.
  - unfold bind at 1, try_except at 1. intros ->. reflexivity.
  - intros order Ho. unfold bind at 1, try_except at 1. rewrite Ho.
    unfold try_except.
    destruct (fails_atomic (fails_deallocate_block env user order) db)
      as (e & db1 & H).
    rewrite H. exists (exn_msg e). reflexivity.
Qed.

Lemma deallocation_view_never_commits_witness :
  exists reason,
    fst (DeallocateOrderView_post (test_env postgresql) (Some 7) 1
                                  (allocated_db postgresql))
    = Ok (mkFlash "error" ("Deallocation failed: " ++ reason)).
Proof.
  apply (proj2 (proj2 (@deallocation_view_never_commits
                         (test_env postgresql) (Some 7) 1
                         (allocated_db postgresql)))
               (Order.mk 1 "ORD-001" Order.STATUS_ALLOCATED)).
  vm_compute. reflexivity.
Defined.

Lemma release_effect order order_item user acc allocation db r db' :
  deallocate_allocation order order_item user acc allocation db = (Ok r, db') ->
  exists batch log,
    find_pk Batch.id (Some (Allocation.batch allocation)) (rows (batches db))
    = Some batch
    /\ r = (fst acc + Allocation.qty_allocated allocation,
            (snd acc + 1)%nat)
    /\ rows (batches db')
       = map (fun b => if Batch.id b =? Batch.id batch
                       then Batch.with_available_qty
                              (Batch.available_qty batch
                               + Allocation.qty_allocated allocation) batch
                       else b)
             (rows (batches db))
    /\ rows (allocations db')
       = filter (fun a => negb (Allocation.id a =? Allocation.id allocation))
                (rows (allocations db))
    /\ rows (transaction_logs db') = rows (transaction_logs db) ++ [log]
    /\ TransactionLog.type log = TransactionLog.TYPE_DEALLOCATE
    /\ TransactionLog.qty log = Allocation.qty_allocated allocation
    /\ TransactionLog.batch log = Some (Batch.id batch).
Proof.
  unfold deallocate_allocation, bind at 1, Batch_get, objects_get.
  destruct (find_pk Batch.id (Some (Allocation.batch allocation))
                    (rows (batches db))) as [batch|] eqn:Hf; [|discriminate].
  pose proof (find_pk_id _ _ _ Hf) as Hid.
  set (batch' := Batch.with_available_qty _ batch).
  unfold bind at 1.
  destruct (Batch_save batch' db) as [[[]|e] db1] eqn:Hs; [|discriminate].
  apply (@batch_save_stored batch' batch) in Hs;
    [|cbn [batch' Batch.with_available_qty Batch.id]; rewrite Hid; exact Hf].
  unfold bind at 1.
  pose proof (objects_get_state "Item" items Item.id
                (Some (OrderItem.item order_item)) db1) as Hitem.
  fold Item_get in Hitem.
  destruct (Item_get (Some (OrderItem.item order_item)) db1)
    as [[item|e] db2]; [|discriminate].
  cbn [snd] in Hitem. subst db2.
  unfold bind, TransactionLog_objects_create, TransactionLog_save,
    TransactionLog_super_save, Allocation_delete, write, ret.
  cbn [unexpected_kwarg TransactionLog.init_kwargs existsb String.eqb
       Ascii.eqb Bool.eqb orb assoc as_fk as_decimal as_str as_json
       pk_truthy TransactionLog.pk TransactionLog.i_qty].
  intros H. inversion H. subst r db'. clear H.
  eexists batch, _. split; [reflexivity|]. split; [reflexivity|].
  rewrite Hs.
  cbn [batches allocations transaction_logs set_allocations
       set_transaction_logs set_batches insert_row map_rows filter_rows rows
       pk_is].
  repeat split.
Qed.

(** X20.  The release step inside the deallocation view is itself sound:
    whenever it completes for a stored allocation (unique batch and
    allocation keys), the allocation's quantity has been added back to its
    batch, that Allocation row is gone, exactly one DEALLOCATE log row of
    that quantity has been appended, the counters have advanced by the
    quantity and by one, and a balanced ledger stays balanced.  The view
    loses these writes only through the rollback of its block. *)
Theorem release_step_is_sound order order_item user acc allocation db r db' :
  NoDup (map Batch.id (rows (batches db))) ->
  NoDup (map Allocation.id (rows (allocations db))) ->
  In allocation (rows (allocations db)) ->
  ledger_balanced db ->
  deallocate_allocation order order_item user acc allocation db = (Ok r, db') ->
  ledger_balanced db'
  /\ r = (fst acc + Allocation.qty_allocated allocation, (snd acc + 1)%nat)
  /\ ~ In allocation (rows (allocations db'))
  /\ (exists batch,
         In batch (rows (batches db))
         /\ Batch.id batch = Allocation.batch allocation
         /\ In (Batch.with_available_qty
                  (Batch.available_qty batch
                   + Allocation.qty_allocated allocation) batch)
               (rows (batches db')))
  /\ (exists log,
         rows (transaction_logs db') = rows (transaction_logs db) ++ [log]
         /\ TransactionLog.type log = TransactionLog.TYPE_DEALLOCATE
         /\ TransactionLog.qty log = Allocation.qty_allocated allocation).
Proof.
  intros Hnb Hna Hin Hbal Hrun.
  split; [eapply release_keeps_balance; eassumption|].
  apply release_effect in Hrun.
  destruct Hrun as (batch & log & Hf & Hr & Hb & Ha & Hl & Ht & Hq & _).
  split; [exact Hr|]. split; [|split].
  - rewrite Ha. intros Hi. apply filter_In in Hi. destruct Hi as [_ Hi].
    rewrite Z.eqb_refl in Hi. discriminate.
  - exists batch. split; [eapply find_pk_In; exact Hf|].
    split; [eapply find_pk_id; exact Hf|].
    rewrite Hb. apply in_map_iff. exists batch.
    rewrite Z.eqb_refl. split; [reflexivity|eapply find_pk_In; exact Hf].
  - exists log. auto.
Qed.

Lemma release_step_is_sound_witness :
  let released :=
    deallocate_allocation (Order.mk 1 "ORD-001" Order.STATUS_ALLOCATED)
      (OrderItem.mk 1 1 1 120000 120000) (Some 7) (0, 0%nat)
      (Allocation.mk 1 1 1 50000) (allocated_db postgresql) in
  ledger_balanced (snd released)
  /\ (50000, 1%nat) = (0 + 50000, (0 + 1)%nat).
Proof.
  cbv zeta.
  destruct (@release_step_is_sound
              (Order.mk 1 "ORD-001" Order.STATUS_ALLOCATED)
              (OrderItem.mk 1 1 1 120000 120000) (Some 7) (0, 0%nat)
              (Allocation.mk 1 1 1 50000) (allocated_db postgresql)
              (50000, 1%nat)
              (snd (deallocate_allocation
                      (Order.mk 1 "ORD-001" Order.STATUS_ALLOCATED)
                      (OrderItem.mk 1 1 1 120000 120000) (Some 7) (0, 0%nat)
                      (Allocation.mk 1 1 1 50000) (allocated_db postgresql))))
    as (Hbal & Hr & _).
  - vm_compute. repeat constructor; cbn; intuition discriminate.
  - vm_compute. repeat constructor; cbn; intuition discriminate.
  - vm_compute. auto.
  - intros b Hb. vm_compute in Hb.
    destruct Hb as [<-|[<-|[<-|[]]]]; reflexivity.
  - vm_compute. reflexivity.
  - split; [exact Hbal|exact Hr].
Defined.

(* ===================================================================== *)
(** * OrderItem.allocate_from_batch *)
(* ===================================================================== *)

(** X21.  [OrderItem.allocate_from_batch] is all or nothing.  A batch of
    another item is refused with [ValueError] before anything is read;
    whenever the method raises, the database is as it was; and when it
    returns, the quantity is positive, exactly one Allocation row (the one
    returned, for this line, this batch and this quantity) has been
    appended, the stored [available_qty] of the batch has gone down by the
    quantity and the stored [qty_allocated] of the line has gone up by it,
    with no other row of these tables changed. *)
Theorem allocate_from_batch_all_or_nothing self batch qty db :
  (Batch.item batch <> OrderItem.item self ->
   OrderItem_allocate_from_batch self batch qty db
   = (Raise (mkExn ValueError "Batch item mismatch"), db))
  /\ (forall e db',
         OrderItem_allocate_from_batch self batch qty db = (Raise e, db') ->
         db' = db)
  /\ (forall created db',
         OrderItem_allocate_from_batch self batch qty db = (Ok created, db') ->
         0 < qty
         /\ Batch.item batch = OrderItem.item self
         /\ created = Allocation.mk (next_id (allocations db))
                                    (OrderItem.id self) (Batch.id batch) qty
         /\ rows (allocations db') = rows (allocations db) ++ [created]
         /\ rows (batches db')
            = map (fun b => if Batch.id b =? Batch.id batch
                            then Batch.with_available_qty
                                   (Batch.available_qty b - qty) b
                            else b)
                  (rows (batches db))
         /\ rows (order_items db')
            = map (fun oi => if OrderItem.id oi =? OrderItem.id self
                             then OrderItem.with_qty_allocated
                                    (OrderItem.qty_allocated oi + qty) oi
                             else oi)
                  (rows (order_items db))).
Proof.
  unfold OrderItem_allocate_from_batch.
  split; [|split].
  - intros Hne. apply Z.eqb_neq in Hne. rewrite Hne. reflexivity.
  - intros e db'. destruct (negb _); [intros H; inversion H; reflexivity|].
    unfold atomic. destruct (bind _ _ db) as [[a|e0] db0];
      intros H; inversion H; reflexivity.
  - intros created db'.
    destruct (Batch.item batch =? OrderItem.item self) eqn:Hitem;
      [|discriminate].
    apply Z.eqb_eq in Hitem. cbn [negb].
    unfold atomic.
    destruct (bind _ _ db) as [[a|e0] db0] eqn:Hbody; [|discriminate].
    intros H. inversion H. subst a db0. clear H. revert Hbody.
    unfold bind at 1.
    destruct (Batch_reserve batch qty db) as [[n|e] db1] eqn:Hres;
      [|discriminate].
    assert (Hq : 0 < qty).
    { destruct (qty <=? 0) eqn:Hq; [|apply Z.leb_gt; exact Hq].
      unfold Batch_reserve in Hres. rewrite Hq in Hres. discriminate. }
    destruct (reserve_outcome batch qty db)
      as [(e & Hr)|(n' & db1' & Hr & Hu)]; rewrite Hr in Hres;
      [discriminate|].
    inversion Hres. subst n' db1'. clear Hres.
    apply update_available_ok in Hu. destruct Hu as [Hdb1 _].
    unfold bind at 1, Allocation_create.
    unfold bind at 1, OrderItem_update_allocated_plus.
    destruct (forallb _ _); [|discriminate].
    unfold bind, OrderItem_get, objects_get, ret.
    destruct (find_pk _ _ _); [|discriminate].
    intros H. inversion H. subst created db' db1. clear H.
    cbn [allocations batches order_items set_order_items set_allocations
         set_batches insert_row map_rows rows next_id].
    repeat split; assumption.
Qed.

Lemma allocate_from_batch_all_or_nothing_witness :
  OrderItem_allocate_from_batch (OrderItem.mk 1 1 1 120000 0)
    (Batch.mk 9 2 "LOT-X" 1000 1000 None Batch.STATUS_AVAILABLE) 500
    (fefo_db 120000)
  = (Raise (mkExn ValueError "Batch item mismatch"), fefo_db 120000).
Proof.
  apply (proj1 (@allocate_from_batch_all_or_nothing
                  (OrderItem.mk 1 1 1 120000 0)
                  (Batch.mk 9 2 "LOT-X" 1000 1000 None
                            Batch.STATUS_AVAILABLE)
                  500 (fefo_db 120000))).
  cbn. lia.
Defined.

(* ===================================================================== *)
(** * The daily expiry scan *)
(* ===================================================================== *)

Lemma mark_expired_id keys b : Batch.id (mark_expired keys b) = Batch.id b.
Proof. unfold mark_expired. destruct (existsb _ _); reflexivity. Qed.

Lemma mark_expired_step keys k r :
  (if Batch.id (mark_expired keys r) =? k
   then Batch_with_status Batch.STATUS_EXPIRED (mark_expired keys r)
   else mark_expired keys r)
  = mark_expired (keys ++ [k]) r.
Proof.
  rewrite mark_expired_id. unfold mark_expired.
  rewrite existsb_app. cbn [existsb]. rewrite orb_false_r.
  destruct (existsb (Z.eqb (Batch.id r)) keys), (Batch.id r =? k);
    reflexivity.
Qed.

Lemma scan_loop (rows0 : list Batch.t) (l : list Batch.t) :
  forall keys (count : nat) db,
    rows (batches db) = map (mark_expired keys) rows0 ->
    (forall b, In b l -> In (Batch.id b) (map Batch.id rows0)) ->
    fold_m (fun (count : nat) batch =>
              Batch_save_status
                (Batch_with_status Batch.STATUS_EXPIRED batch) ;;;
              ret (count + 1)%nat)
           l count db
    = (Ok (count + length l)%nat,
       set_batches
         (fun _ => mkTable (map (mark_expired (keys ++ map Batch.id l)) rows0)
                           (next_id (batches db)))
         db).
Proof.
  induction l as [|b l IH]; intros keys count db Hrows Hin.
  - cbn. rewrite app_nil_r, Nat.add_0_r, <- Hrows.
    destruct db as [? [? ?] ? ? ? ? ? ? ? ? ?]. reflexivity.
  - cbn [fold_m]. unfold bind at 1. unfold bind at 1, Batch_save_status.
    cbn [Batch_with_status Batch.id Batch.status].
    destruct (find_pk_present Batch.id (Batch.id b) (rows (batches db)))
      as [r Hf].
    { rewrite Hrows, map_map.
      erewrite map_ext; [apply Hin; left; reflexivity|].
      intros a. apply mark_expired_id. }
    rewrite Hf. unfold ret.
    rewrite (IH (keys ++ [Batch.id b])).
    + cbn [map length]. rewrite <- app_assoc. cbn [app].
      replace (count + 1 + length l)%nat with (count + S (length l))%nat
        by lia.
      reflexivity.
    + cbn [batches set_batches map_rows rows]. rewrite Hrows, map_map.
      apply map_ext. intros a. apply mark_expired_step.
    + intros a Ha. apply Hin. right. exact Ha.
Qed.

Lemma mark_expired_all env (rows0 l : list Batch.t) :
  NoDup (map Batch.id rows0) ->
  Permutation (filter (is_expired env) rows0) l ->
  map (mark_expired (map Batch.id l)) rows0 = map (scan_mark env) rows0.
Proof.
  intros Hnd Hperm. apply map_ext_in. intros r Hr.
  unfold mark_expired, scan_mark.
  replace (existsb (Z.eqb (Batch.id r)) (map Batch.id l))
    with (is_expired env r); [reflexivity|].
  destruct (is_expired env r) eqn:E; symmetry.
  - apply existsb_exists. exists (Batch.id r). split; [|apply Z.eqb_refl].
    apply in_map. apply (Permutation_in _ Hperm). apply filter_In.
    split; assumption.
  - destruct (existsb _ _) eqn:Ex; [|reflexivity].
    apply existsb_exists in Ex. destruct Ex as (k & Hk & Hkr).
    apply Z.eqb_eq in Hkr. apply in_map_iff in Hk.
    destruct Hk as (b & Hb & Hbl).
    apply (Permutation_in _ (Permutation_sym Hperm)) in Hbl.
    apply filter_In in Hbl. destruct Hbl as [Hbin Hbe].
    assert (b = r)
      by (apply (unique_key_row Batch.id rows0); try assumption; congruence).
    subst b. congruence.
Qed.

Lemma filter_after_marking {A} (p : A -> bool) (f : A -> A) (l : list A) :
  (forall x, p (f x) = p x) ->
  (forall x, p x = true -> f x = x) ->
  filter p (map f l) = filter p l.
Proof.
  intros Hp Hf. induction l as [|x l IH]; [reflexivity|].
  cbn. rewrite Hp. destruct (p x) eqn:E; [|exact IH].
  rewrite (Hf x E), IH. reflexivity.
Qed.

Lemma scan_mark_near env b :
  is_near_expiry env (scan_mark env b) = is_near_expiry env b
  /\ (is_near_expiry env b = true -> scan_mark env b = b).
Proof.
  unfold scan_mark. destruct (is_expired env b) eqn:E; [|split; reflexivity].
  unfold is_expired in E. unfold is_near_expiry.
  cbn [Batch_with_status Batch.expiry_date Batch.status Batch.available_qty].
  destruct (Batch.expiry_date b) as [d|]; [|discriminate].
  apply andb_prop in E. destruct E as [E _].
  apply andb_prop in E. destruct E as [Hd _]. apply Z.ltb_lt in Hd.
  replace (today env <=? d) with false by (symmetry; apply Z.leb_gt; lia).
  cbn. split; [reflexivity|discriminate].
Qed.

Lemma scan_mark_eligible env item b :
  is_eligible env item (scan_mark env b) = is_eligible env item b
  /\ (is_eligible env item b = true -> scan_mark env b = b).
Proof.
  unfold scan_mark. destruct (is_expired env b) eqn:E; [|split; reflexivity].
  unfold is_expired in E. unfold is_eligible.
  cbn [Batch_with_status Batch.expiry_date Batch.status Batch.available_qty
       Batch.item].
  destruct (Batch.expiry_date b) as [d|]; [|discriminate].
  apply andb_prop in E. destruct E as [E _].
  apply andb_prop in E. destruct E as [Hd _]. apply Z.ltb_lt in Hd.
  replace (today env <? d) with false by (symmetry; apply Z.ltb_ge; lia).
  rewrite !andb_false_r. split; [reflexivity|discriminate].
Qed.

Lemma scan_mark_not_expired env b : is_expired env (scan_mark env b) = false.
Proof.
  unfold scan_mark. destruct (is_expired env b) eqn:E; [|exact E].
  unfold is_expired. cbn. rewrite andb_false_r. reflexivity.
Qed.

Lemma notify_managers (managers : list Z) (message level : string) :
  forall db,
    exists created,
      for_each managers
        (fun manager =>
           Notification_create (Some manager) message level ;;; ret tt) db
      = (Ok tt,
         set_notifications
           (fun _ => mkTable (rows (notifications db) ++ created)
                             (next_id (notifications db)
                              + Z.of_nat (length managers)))
           db)
      /\ map Notification.user created = map Some managers
      /\ Forall (fun n => Notification.message n = message
                          /\ Notification.level n = level) created.
Proof.
  induction managers as [|m managers IH]; intros db.
  - exists []. cbn. rewrite app_nil_r, Z.add_0_r.
    destruct db as [? ? ? ? ? ? ? ? [? ?] ? ?].
    repeat split. constructor.
  - cbn [for_each].
    set (db1 := set_notifications
                  (insert_row
                     (fun k => Notification.mk k (Some m) message level
                                               false)) db).
    erewrite (@bind_ok _ _ _ _ db tt db1) by reflexivity.
    destruct (IH db1) as (created & E & Hu & Hl).
    rewrite E. subst db1.
    eexists (_ :: created).
    cbn [notifications set_notifications insert_row rows next_id length map].
    rewrite <- app_assoc. cbn [app].
    replace (next_id (notifications db) + 1 + Z.of_nat (length managers))
      with (next_id (notifications db)
            + Z.of_nat (S (length managers))) by lia.
    split; [reflexivity|].
    split; [cbn; f_equal; exact Hu|].
    constructor; [split; reflexivity|exact Hl].
Qed.

Lemma mark_expired_none (l : list Batch.t) : map (mark_expired []) l = l.
Proof. induction l as [|b l IH]; cbn; [|rewrite IH]; reflexivity. Qed.

(** What a whole scan leaves behind. *)
Lemma expiry_scan_effect env query_order managers db :
  (forall l, Permutation l (query_order l)) ->
  NoDup (map Batch.id (rows (batches db))) ->
  exists errors warnings,
    scheduled_expiry_scan env query_order managers db
    = (Ok (mkScan
             (length (filter (is_expired env) (rows (batches db))))
             (length (filter (is_near_expiry env) (rows (batches db))))),
       set_notifications
         (fun _ => mkTable (rows (notifications db) ++ errors ++ warnings)
                           (next_id (notifications db)
                            + Z.of_nat (length errors)
                            + Z.of_nat (length warnings)))
         (set_batches
            (fun _ => mkTable (map (scan_mark env) (rows (batches db)))
                              (next_id (batches db)))
            db))
    /\ map Notification.user errors
       = (match filter (is_expired env) (rows (batches db)) with
          | [] => []
          | _ :: _ => map Some managers
          end)
    /\ map Notification.user warnings
       = (match filter (is_near_expiry env) (rows (batches db)) with
          | [] => []
          | _ :: _ => map Some managers
          end)
    /\ Forall (fun n => Notification.level n = Notification.LEVEL_ERROR)
              errors
    /\ Forall (fun n => Notification.level n = Notification.LEVEL_WARNING)
              warnings.
Proof.
  intros Horder Hnd.
  set (rows0 := rows (batches db)).
  set (l := query_order (filter (is_expired env) rows0)).
  assert (Hperm : Permutation (filter (is_expired env) rows0) l)
    by apply Horder.
  unfold scheduled_expiry_scan. unfold bind at 1, read. fold rows0. fold l.
  unfold bind at 1.
  rewrite (@scan_loop rows0 l [] 0%nat db).
  2:{ fold rows0. symmetry. apply mark_expired_none. }
  2:{ intros b Hb. apply (Permutation_in _ (Permutation_sym Hperm)) in Hb.
      apply filter_In in Hb. apply in_map. apply Hb. }
  cbn [app Nat.add]. rewrite (@mark_expired_all env rows0 l Hnd Hperm).
  rewrite <- (Permutation_length Hperm).
  set (db1 := set_batches
                (fun _ => mkTable (map (scan_mark env) rows0)
                                  (next_id (batches db))) db).
  assert (Hnear : forall tb,
             filter (is_near_expiry env)
                    (rows (batches (set_notifications (fun _ => tb) db1)))
             = filter (is_near_expiry env) rows0).
  { intros tb. cbn [batches set_notifications set_batches db1 rows].
    apply filter_after_marking; intros x; apply scan_mark_near. }
  assert (Hempty : forall tb0 : Table Notification.t,
             mkTable (rows tb0 ++ []) (next_id tb0 + Z.of_nat 0) = tb0).
  { intros [r n]. cbn. rewrite app_nil_r, Z.add_0_r. reflexivity. }
  assert (Hstage : forall (message level : string) (on : bool) dbx,
             exists created,
               (if on then
                  for_each managers
                    (fun manager =>
                       Notification_create (Some manager) message level ;;;
                       ret tt)
                else ret tt) dbx
               = (Ok tt,
                  set_notifications
                    (fun _ => mkTable (rows (notifications dbx) ++ created)
                                      (next_id (notifications dbx)
                                       + Z.of_nat (length created)))
                    dbx)
               /\ map Notification.user created
                  = (if on then map Some managers else [])
               /\ Forall (fun n => Notification.level n = level) created).
  { intros message level on dbx. destruct on.
    - destruct (notify_managers managers message level dbx)
        as (created & E & Hu & Hl).
      exists created. rewrite E.
      assert (length created = length managers)
        by (rewrite <- (length_map Notification.user), Hu, length_map;
            reflexivity).
      split; [rewrite H; reflexivity|]. split; [exact Hu|].
      eapply Forall_impl; [|exact Hl]. intros n [_ Hn]. exact Hn.
    - exists []. rewrite Hempty.
      destruct dbx as [? ? ? ? ? ? ? ? [? ?] ? ?].
      repeat split. constructor. }
  destruct (Hstage
              ("Expiry Scan: "
               ++ str_nat (length (filter (is_expired env) rows0))
               ++ " batch(es) have expired and been marked EXPIRED.")%string
              Notification.LEVEL_ERROR
              (0 <? length (filter (is_expired env) rows0))%nat db1)
    as (errors & Eerr & Huerr & Hlerr).
  unfold bind at 1. rewrite Eerr.
  unfold bind at 1. rewrite Hnear.
  set (db2 := set_notifications _ db1).
  set (near := filter (is_near_expiry env) rows0).
  destruct (Hstage
              ("Expiry Warning: " ++ str_nat (length near)
               ++ " batch(es) will expire within 7 days.")%string
              Notification.LEVEL_WARNING
              (match near with [] => false | _ :: _ => true end) db2)
    as (warnings & Ewarn & Huwarn & Hlwarn).
  exists errors, warnings.
  assert (Hcase :
            (match near with
             | [] => ret tt
             | _ :: _ =>
                 counted <- (fun db0 : DB =>
                               (Ok (filter (is_near_expiry env)
                                           (rows (batches db0))), db0)) ;;
                 for_each managers
                   (fun manager =>
                      Notification_create (Some manager)
                        ("Expiry Warning: " ++ str_nat (length counted)
                         ++ " batch(es) will expire within 7 days.")%string
                        Notification.LEVEL_WARNING ;;;
                      ret tt)
             end) db2
            = (Ok tt,
               set_notifications
                 (fun _ => mkTable (rows (notifications db2) ++ warnings)
                                   (next_id (notifications db2)
                                    + Z.of_nat (length warnings)))
                 db2)).
  { rewrite <- Ewarn. destruct near eqn:En; [reflexivity|].
    unfold bind at 1. unfold db2. rewrite Hnear. fold near. rewrite En.
    reflexivity. }
  unfold bind at 1. rewrite Hcase.
  unfold bind at 1. unfold bind at 1. unfold ret.
  cbn [batches set_notifications].
  replace (filter (is_near_expiry env) (rows (batches db2))) with near
    by (unfold db2; rewrite Hnear; reflexivity).
  split.
  { f_equal. unfold db2, db1.
    cbn [notifications set_notifications set_batches rows next_id].
    rewrite <- app_assoc. reflexivity. }
  split.
  { rewrite Huerr. destruct (filter (is_expired env) rows0); reflexivity. }
  split.
  { rewrite Huwarn. destruct near; reflexivity. }
  split; assumption.
Qed.

(** X22.  With unique batch keys, and in whatever order the database
    returns the rows, the daily expiry scan returns normally and marks
    exactly the batches that are AVAILABLE, hold stock and have an expiry
    date before today: their status becomes EXPIRED and nothing else of
    any batch changes (a batch expiring today, or without expiry date, is
    left alone).  The counts returned are the number of batches marked and
    the number of AVAILABLE batches with stock expiring within the next 7
    days; items, orders, lines, allocations and the transaction log are
    untouched; and the notifications appended are one ERROR per manager
    when something was marked, followed by one WARNING per manager when
    something is near expiry. *)
Theorem expiry_scan_marks_exactly env query_order managers db :
  (forall l, Permutation l (query_order l)) ->
  NoDup (map Batch.id (rows (batches db))) ->
  exists report db' errors warnings,
    scheduled_expiry_scan env query_order managers db = (Ok report, db')
    /\ rows (batches db') = map (scan_mark env) (rows (batches db))
    /\ expired_count report
       = length (filter (is_expired env) (rows (batches db)))
    /\ near_expiry_count report
       = length (filter (is_near_expiry env) (rows (batches db)))
    /\ items db' = items db
    /\ orders db' = orders db
    /\ order_items db' = order_items db
    /\ allocations db' = allocations db
    /\ transaction_logs db' = transaction_logs db
    /\ rows (notifications db')
       = rows (notifications db) ++ errors ++ warnings
    /\ map Notification.user errors
       = (if (0 <? expired_count report)%nat then map Some managers else [])
    /\ map Notification.user warnings
       = (if (0 <? near_expiry_count report)%nat
          then map Some managers else [])
    /\ Forall (fun n => Notification.level n = Notification.LEVEL_ERROR)
              errors
    /\ Forall (fun n => Notification.level n = Notification.LEVEL_WARNING)
              warnings.
Proof.
  intros Horder Hnd.
  destruct (@expiry_scan_effect env query_order managers db Horder Hnd)
    as (errors & warnings & E & Hue & Huw & Hle & Hlw).
  eexists _, _, errors, warnings. split; [exact E|].
  cbn [batches items orders order_items allocations transaction_logs
       notifications set_notifications set_batches rows expired_count
       near_expiry_count].
  repeat split; try assumption.
  - rewrite Hue. destruct (filter (is_expired env) _); reflexivity.
  - rewrite Huw. destruct (filter (is_near_expiry env) _); reflexivity.
Qed.

Lemma expiry_scan_marks_exactly_witness :
  exists report db',
    scheduled_expiry_scan (mkEnv sqlite3 10 0 (fun _ => "") (fun _ => ""))
                          (@rev Batch.t) [7] (fefo_db 120000)
    = (Ok report, db')
    /\ map Batch.status (rows (batches db'))
       = [Batch.STATUS_EXPIRED; Batch.STATUS_AVAILABLE;
          Batch.STATUS_AVAILABLE].
Proof.
  destruct (@expiry_scan_marks_exactly
              (mkEnv sqlite3 10 0 (fun _ => "") (fun _ => ""))
              (@rev Batch.t) [7] (fefo_db 120000))
    as (report & db' & errors & warnings & E & Hrows & _).
  - intros l. apply Permutation_rev.
  - cbn. repeat constructor; cbn; intuition discriminate.
  - exists report, db'. split; [exact E|]. rewrite Hrows. reflexivity.
Defined.

Lemma filter_none {A} (p : A -> bool) (l : list A) :
  (forall x, In x l -> p x = false) -> filter p l = [].
Proof.
  induction l as [|x l IH]; intros H; [reflexivity|].
  cbn. rewrite (H x (or_introl eq_refl)). apply IH.
  intros y Hy. apply H. right. exact Hy.
Qed.

(** X23.  The expiry scan and the allocation engine agree: every batch
    that the scan marks EXPIRED was already refused by the candidate query
    of [allocate_order], so a scan changes neither the candidates of any
    item nor the stock they offer.  A second scan on the same day finds
    nothing left to mark and leaves the batches as the first one left
    them. *)
Theorem expiry_scan_keeps_allocatable_stock env query_order managers db :
  (forall l, Permutation l (query_order l)) ->
  NoDup (map Batch.id (rows (batches db))) ->
  let db' := snd (scheduled_expiry_scan env query_order managers db) in
  let again := scheduled_expiry_scan env query_order managers db' in
  (forall item,
      fst (eligible_batches env item db') = fst (eligible_batches env item db))
  /\ (forall item, eligible_stock env item db' = eligible_stock env item db)
  /\ (exists report, fst again = Ok report
                     /\ expired_count report = 0%nat)
  /\ rows (batches (snd again)) = rows (batches db').
Proof.
  intros Horder Hnd db' again.
  destruct (@expiry_scan_effect env query_order managers db Horder Hnd)
    as (errors & warnings & E & _).
  assert (Hrows : rows (batches db')
                  = map (scan_mark env) (rows (batches db)))
    by (unfold db'; rewrite E; reflexivity).
  assert (Helig : forall item,
             filter (is_eligible env item) (rows (batches db'))
             = filter (is_eligible env item) (rows (batches db))).
  { intros item. rewrite Hrows.
    apply filter_after_marking; intros x; apply scan_mark_eligible. }
  assert (Hnd' : NoDup (map Batch.id (rows (batches db')))).
  { rewrite Hrows, map_map. erewrite map_ext; [exact Hnd|].
    intros b. unfold scan_mark. destruct (is_expired env b); reflexivity. }
  assert (Hnone : filter (is_expired env) (rows (batches db')) = []).
  { apply filter_none. intros x Hx. rewrite Hrows in Hx.
    apply in_map_iff in Hx. destruct Hx as (b & <- & _).
    apply scan_mark_not_expired. }
  destruct (@expiry_scan_effect env query_order managers db' Horder Hnd')
    as (errors2 & warnings2 & E2 & _).
  repeat split.
  - intros item. unfold eligible_batches, read. cbn [fst].
    rewrite Helig. reflexivity.
  - intros item. unfold eligible_stock. rewrite Helig. reflexivity.
  - eexists. unfold again. rewrite E2. split; [reflexivity|].
    cbn [expired_count]. rewrite Hnone. reflexivity.
  - unfold again. rewrite E2.
    cbn [snd batches set_notifications set_batches rows].
    rewrite <- (map_id (rows (batches db'))) at 2.
    apply map_ext_in. intros b Hb. unfold scan_mark.
    replace (is_expired env b) with false; [reflexivity|].
    symmetry. rewrite Hrows in Hb. apply in_map_iff in Hb.
    destruct Hb as (b0 & <- & _). apply scan_mark_not_expired.
Qed.

Lemma expiry_scan_keeps_allocatable_stock_witness :
  eligible_stock (mkEnv sqlite3 10 0 (fun _ => "") (fun _ => ""))
    (Item.mk 1 "TEST-001")
    (snd (scheduled_expiry_scan
            (mkEnv sqlite3 10 0 (fun _ => "") (fun _ => ""))
            (fun l => l) [7] (fefo_db 120000)))
  = eligible_stock (mkEnv sqlite3 10 0 (fun _ => "") (fun _ => ""))
      (Item.mk 1 "TEST-001") (fefo_db 120000).
Proof.
  refine (proj1 (proj2 (@expiry_scan_keeps_allocatable_stock
                          (mkEnv sqlite3 10 0 (fun _ => "") (fun _ => ""))
                          (fun l => l) [7] (fefo_db 120000) _ _))
                (Item.mk 1 "TEST-001")).
  - intros l. apply Permutation_refl.
  - cbn. repeat constructor; cbn; intuition discriminate.
Defined.

(* ===================================================================== *)
(** * The line side of the ledger *)
(* ===================================================================== *)

Lemma line_sum_app (l new : list Allocation.t) k pk :
  Forall (fun a => Allocation.order_item a = pk) new ->
  fold_right
    (fun a acc => if Allocation.order_item a =? k
                  then Allocation.qty_allocated a + acc else acc)
    0 (l ++ new)
  = fold_right
      (fun a acc => if Allocation.order_item a =? k
                    then Allocation.qty_allocated a + acc else acc)
      0 l
    + (if pk =? k
       then fold_right Z.add 0 (map Allocation.qty_allocated new) else 0).
Proof.
  intros Hnew. induction l as [|x l IH]; cbn [app fold_right].
  - induction Hnew as [|a new Ha Hnew IHn]; cbn.
    + destruct (pk =? k); reflexivity.
    + rewrite IHn, Ha. destruct (pk =? k); lia.
  - rewrite IH. destruct (Allocation.order_item x =? k); lia.
Qed.

(** The Allocation rows that the candidate loop appends belong to the
    line and add up to what the loop took. *)
Lemma forward_allocations order_item user l :
  forall qty made db made' left_over db1,
    allocate_forward order_item user l qty made db
    = (Ok (made', left_over), db1) ->
    exists new,
      rows (allocations db1) = rows (allocations db) ++ new
      /\ Forall (fun a => Allocation.order_item a
                          = OrderItem.id (OrderItem.row order_item)) new
      /\ fold_right Z.add 0 (map Allocation.qty_allocated new)
         = qty - left_over
      /\ order_items db1 = order_items db.
Proof.
  induction l as [|batch_id l IH]; intros qty made db made' left_over db1.
  - cbn. intros H. inversion H. subst. exists [].
    rewrite app_nil_r. cbn. repeat split; [constructor|lia].
  - cbn [allocate_forward].
    destruct (0 <? qty).
    2:{ intros H. inversion H. subst. exists [].
        rewrite app_nil_r. cbn. repeat split; [constructor|lia]. }
    unfold bind.
    destruct (allocate_from_candidate_cases order_item user (Some batch_id)
                qty db)
      as [[Hdb Hnone]|(batch & _ & _ & _ & _ & E)].
    + destruct (allocate_from_candidate order_item user (Some batch_id)
                  qty db) as [[[made1|]|e] db0];
        cbn [fst snd] in Hdb, Hnone; subst.
      * exfalso. apply (Hnone made1). reflexivity.
      * apply IH.
      * discriminate.
    + rewrite E. intros H. apply IH in H.
      destruct H as (new & Hrows & Hall & Hsum & Hoi).
      cbn [allocations order_items set_transaction_logs set_allocations
           set_batches insert_row rows] in Hrows, Hoi.
      eexists (_ :: new). rewrite Hrows, <- app_assoc. cbn [app].
      split; [reflexivity|].
      split; [constructor; [reflexivity|exact Hall]|].
      split; [cbn; lia|exact Hoi].
Qed.

Lemma line_keeps_lines_balanced env order_item user db line db' :
  lines_balanced db ->
  _allocate_item_with_stack env order_item user db = (Ok line, db') ->
  lines_balanced db'.
Proof.
  intros Hbal. rewrite allocate_item_as_forward.
  unfold allocate_item_forward.
  destruct (_ <=? 0); [intros H; inversion H; subst; exact Hbal|].
  unfold bind at 1, eligible_batches, read. unfold bind at 1.
  destruct (allocate_forward _ _ _ _ _ _) as [[[made left_over]|e] db1] eqn:E;
    [|discriminate].
  apply forward_allocations in E.
  destruct E as (new & Hrows & Hall & Hsum & Hoi).
  cbn [fst snd]. unfold bind at 1, OrderItem_update_allocated_plus.
  destruct (forallb _ _); [|discriminate].
  unfold bind, OrderItem_get, objects_get, ret.
  destruct (find_pk _ _ _); [|discriminate].
  intros H. inversion H. subst line db'. clear H.
  intros oi' Hin. unfold allocated_to_line.
  cbn [order_items allocations set_order_items map_rows rows] in Hin |- *.
  rewrite Hrows,
    (line_sum_app (rows (allocations db)) (OrderItem.id oi') Hall), Hsum.
  apply in_map_iff in Hin. destruct Hin as (oi & <- & Hin).
  rewrite Hoi in Hin. specialize (Hbal oi Hin).
  unfold allocated_to_line in Hbal.
  rewrite (Z.eqb_sym (OrderItem.id (OrderItem.row order_item))).
  destruct (OrderItem.id oi =? OrderItem.id (OrderItem.row order_item)) eqn:Ek.
  - cbn [OrderItem.with_qty_allocated OrderItem.id OrderItem.qty_allocated].
    rewrite Ek, <- Hbal. reflexivity.
  - rewrite Ek, <- Hbal, Z.add_0_r. reflexivity.
Qed.

Lemma process_keeps_lines_balanced env user lines :
  forall tally db tally' db',
    lines_balanced db ->
    process_forward env user lines tally db = (Ok tally', db') ->
    lines_balanced db'.
Proof.
  induction lines as [|oi rest IH]; intros tally db tally' db' Hbal.
  - cbn. intros H. inversion H. subst. exact Hbal.
  - cbn [process_forward]. unfold bind.
    destruct (_allocate_item_with_stack env oi user db)
      as [[line|e] db1] eqn:E; [|discriminate].
    apply IH.
    exact (@line_keeps_lines_balanced env oi user db line db1 Hbal E).
Qed.

(** X24.  [allocate_order] keeps the line side of the ledger: if the
    [qty_allocated] of every order line equals the sum of its Allocation
    rows before the call, it does so after the call, whether the call
    returns or raises.  Each line's [qty_allocated] grows by exactly the
    quantities of the Allocation rows created for it. *)
Theorem allocate_order_keeps_lines_balanced env order_id user db :
  lines_balanced db ->
  lines_balanced (snd (allocate_order env order_id user db)).
Proof.
  intros Hbal.
  destruct (allocate_order env order_id user db) as [[report|e] db'] eqn:E;
    cbn [snd];
    [|apply allocate_order_raise_unchanged in E; subst; exact Hbal].
  revert E.
  unfold allocate_order, bind at 1, try_except, Order_get, objects_get.
  destruct (find_pk Order.id (Some order_id) (rows (orders db)))
    as [order|]; [|discriminate].
  destruct (_ =? _)%string; [discriminate|].
  unfold bind at 1, order_items_of, read.
  set (lines := flat_map _ _).
  destruct lines as [|oi ois] eqn:Hlines; [discriminate|].
  rewrite <- Hlines.
  destruct (task_queue_fifo (oi :: ois)) as (task_q & Hq & Hproc).
  unfold bind at 1, lift. rewrite <- Hlines in Hq, Hproc. rewrite Hq.
  unfold bind at 1, atomic. unfold bind at 1. rewrite Hproc.
  destruct (process_forward env user lines (mkTally [] 0 0 0) db)
    as [[tally|e] db1] eqn:Ep; [|discriminate].
  apply (@process_keeps_lines_balanced env user lines _ db tally db1 Hbal)
    in Ep.
  destruct (Nat.eqb _ _).
  - unfold bind at 1.
    match goal with
    | |- context [Order_save_status env ?o db1] =>
        destruct (Order_save_status_frame env o db1) as [tb Hfr];
        destruct (Order_save_status env o db1) as [[o'|e] db2];
        cbn [snd] in Hfr; subst db2; [|discriminate]
    end.
    unfold ret. cbn. intros H. inversion H. subst. exact Ep.
  - destruct (Nat.eqb _ _).
    + unfold bind, Notification_create, raise. discriminate.
    + unfold bind, Notification_create, ret. cbn.
      intros H. inversion H. subst. exact Ep.
Qed.

Lemma allocate_order_keeps_lines_balanced_witness :
  lines_balanced (fefo_db 300000)
  /\ lines_balanced (snd (allocate_order (test_env sqlite3) 1 (Some 7)
                                         (fefo_db 300000))).
Proof.
  assert (H : lines_balanced (fefo_db 300000)).
  { intros oi Hin. cbn in Hin. destruct Hin as [<-|[]]. reflexivity. }
  split; [exact H|].
  exact (@allocate_order_keeps_lines_balanced (test_env sqlite3) 1 (Some 7)
           (fefo_db 300000) H).
Defined.

(* ===================================================================== *)
(** * Item.total_quantity against the candidate query *)
(* ===================================================================== *)

Lemma is_eligible_split env item b :
  is_eligible env item b
  = ((Batch.item b =? Item.id item)
     && match Batch.expiry_date b with
        | Some d => today env <? d
        | None => true
        end)
    && ((Batch.status b =? Batch.STATUS_AVAILABLE)%string
        && (0 <? Batch.available_qty b)).
Proof.
  unfold is_eligible.
  destruct (Batch.item b =? Item.id item);
    destruct (Batch.status b =? Batch.STATUS_AVAILABLE)%string;
    destruct (0 <? Batch.available_qty b);
    destruct (Batch.expiry_date b) as [d|];
    try destruct (today env <? d); reflexivity.
Qed.

(** X25.  [Item.total_quantity()] never understates what the allocation
    engine can use: with no negative [available_qty] stored, the stock
    offered by the candidate query of the item is at most
    [total_quantity()], and the two are equal when every batch of the item
    is AVAILABLE.  The difference is the stock of unexpired batches that
    are on hold, reserved or marked expired, which [total_quantity()]
    counts and [allocate_order] never takes. *)
Theorem total_quantity_bounds_eligible_stock env item db :
  available_nonneg db ->
  exists total,
    Item_total_quantity env item db = (Ok total, db)
    /\ eligible_stock env item db <= total
    /\ ((forall b, In b (rows (batches db)) ->
                   Batch.item b = Item.id item ->
                   Batch.status b = Batch.STATUS_AVAILABLE) ->
        eligible_stock env item db = total).
Proof.
  intros Hnn. eexists. split; [reflexivity|].
  unfold eligible_stock. unfold available_nonneg in Hnn.
  set (counted := fun b : Batch.t =>
                    (Batch.item b =? Item.id item)
                    && match Batch.expiry_date b with
                       | Some d => today env <? d
                       | None => true
                       end).
  induction (rows (batches db)) as [|b l IH]; [cbn; split; [lia|reflexivity]|].
  assert (Hb : 0 <= Batch.available_qty b) by (apply Hnn; left; reflexivity).
  destruct IH as [IHle IHeq]; [intros x Hx; apply Hnn; right; exact Hx|].
  cbn [filter]. rewrite is_eligible_split. fold (counted b).
  destruct (counted b) eqn:Hc; cbn [andb].
  2:{ split; [exact IHle|]. intros H. apply IHeq.
      intros x Hx. apply H. right. exact Hx. }
  destruct (Batch.status b =? Batch.STATUS_AVAILABLE)%string eqn:Hs;
    cbn [andb].
  - destruct (0 <? Batch.available_qty b) eqn:Hq; cbn [map fold_right].
    + split; [lia|]. intros H. f_equal. apply IHeq.
      intros x Hx. apply H. right. exact Hx.
    + apply Z.ltb_ge in Hq. split; [lia|]. intros H.
      replace (Batch.available_qty b) with 0 by lia. cbn. apply IHeq.
      intros x Hx. apply H. right. exact Hx.
  - cbn [map fold_right]. split; [lia|]. intros H. exfalso.
    apply String.eqb_neq in Hs. apply Hs. apply H; [left; reflexivity|].
    apply Z.eqb_eq. unfold counted in Hc.
    exact (proj1 (andb_prop _ _ Hc)).
Qed.

Lemma total_quantity_bounds_eligible_stock_witness :
  exists total,
    Item_total_quantity (test_env sqlite3) (Item.mk 1 "TEST-001")
                        (expiring_today_db 120000)
    = (Ok total, expiring_today_db 120000)
    /\ eligible_stock (test_env sqlite3) (Item.mk 1 "TEST-001")
                      (expiring_today_db 120000) <= total.
Proof.
  destruct (@total_quantity_bounds_eligible_stock (test_env sqlite3)
              (Item.mk 1 "TEST-001") (expiring_today_db 120000))
    as (total & E & Hle & _).
  - intros b Hb. cbn in Hb.
    destruct Hb as [<-|[<-|[<-|[<-|[]]]]]; cbn; lia.
  - exists total. split; assumption.
Defined.

(* ===================================================================== *)
(** * Order.is_fully_allocated after allocate_order *)
(* ===================================================================== *)

Lemma Forall2_map_In {A B} (R : A -> B -> Prop) (f : A -> B) (l : list A) :
  (forall a, In a l -> R a (f a)) -> Forall2 R l (map f l).
Proof.
  induction l as [|x l IH]; cbn; intros H; constructor.
  - apply H. left. reflexivity.
  - apply IH. intros a Ha. apply H. right. exact Ha.
Qed.

Lemma Forall2_chain {A} (R1 R2 R3 : A -> A -> Prop) :
  forall l1 l2 l3,
    (forall a b c, In a l1 -> R1 a b -> R2 b c -> R3 a c) ->
    Forall2 R1 l1 l2 -> Forall2 R2 l2 l3 -> Forall2 R3 l1 l3.
Proof.
  intros l1 l2 l3 Hc H12. revert l3 Hc.
  induction H12 as [|a b l1 l2 Hab H12 IH]; intros l3 Hc H23;
    inversion H23; subst; constructor.
  - eapply Hc; [left; reflexivity|exact Hab|assumption].
  - apply IH; [|assumption].
    intros ? ? ? Hx. apply Hc. right. exact Hx.
Qed.

Lemma settled_by_keys ids l l' :
  Forall2 (settled_by ids) l l' -> map OrderItem.id l' = map OrderItem.id l.
Proof.
  induction 1 as [|r r' l l' Hr _ IH]; [reflexivity|].
  cbn. rewrite IH. f_equal.
  destruct Hr as [[_ ->]|(_ & E & _)]; [reflexivity|exact E].
Qed.

Lemma settled_by_keeps ids l l' r :
  Forall2 (settled_by ids) l l' ->
  In r l -> ~ In (OrderItem.id r) ids -> In r l'.
Proof.
  induction 1 as [|x x' l l' Hx _ IH]; [contradiction|].
  intros [->|Hin] Hnot.
  - destruct Hx as [[_ ->]|[Hx _]]; [left; reflexivity|contradiction].
  - right. apply IH; assumption.
Qed.

Lemma settled_by_source ids l l' r' :
  Forall2 (settled_by ids) l l' -> In r' l' ->
  exists r, In r l /\ settled_by ids r r'.
Proof.
  induction 1 as [|x x' l l' Hx _ IH]; [contradiction|].
  intros [<-|Hin].
  - exists x. split; [left; reflexivity|exact Hx].
  - destruct (IH Hin) as (r & Hr & Hs).
    exists r. split; [right; exact Hr|exact Hs].
Qed.

Lemma settled_by_target ids l l' r :
  Forall2 (settled_by ids) l l' -> In r l ->
  exists r', In r' l' /\ settled_by ids r r'.
Proof.
  induction 1 as [|x x' l l' Hx _ IH]; [contradiction|].
  intros [<-|Hin].
  - exists x'. split; [left; reflexivity|exact Hx].
  - destruct (IH Hin) as (r' & Hr' & Hs).
    exists r'. split; [right; exact Hr'|exact Hs].
Qed.

(** A line reported as fully allocated has its stored request covered. *)
Lemma line_settles env order_item user db line db1 :
  _allocate_item_with_stack env order_item user db = (Ok line, db1) ->
  line_status line = "fully_allocated" ->
  In (OrderItem.row order_item) (rows (order_items db)) ->
  NoDup (map OrderItem.id (rows (order_items db))) ->
  Forall2 (settled_by [OrderItem.id (OrderItem.row order_item)])
          (rows (order_items db)) (rows (order_items db1)).
Proof.
  intros E Hst Hin Hnd. revert E. rewrite allocate_item_as_forward.
  unfold allocate_item_forward.
  destruct (_ <=? 0) eqn:Hn.
  - intros H. inversion H. subst line db1. clear H.
    rewrite <- (map_id (rows (order_items db))) at 2.
    apply Forall2_map_In. intros r Hr.
    destruct (OrderItem.id r =? OrderItem.id (OrderItem.row order_item))
      eqn:Ek.
    + right. apply Z.eqb_eq in Ek.
      assert (r = OrderItem.row order_item)
        by (eapply unique_key_row; eassumption).
      subst r. apply Z.leb_le in Hn.
      repeat split; [left; reflexivity|lia].
    + left. split; [|reflexivity]. apply Z.eqb_neq in Ek.
      intros [E|[]]. apply Ek. symmetry. exact E.
  - unfold bind at 1, eligible_batches, read. unfold bind at 1.
    destruct (allocate_forward _ _ _ _ _ _)
      as [[[made left_over]|e] db0] eqn:E; [|discriminate].
    apply forward_allocations in E.
    destruct E as (new & _ & _ & _ & Hoi).
    cbn [fst snd]. unfold bind at 1, OrderItem_update_allocated_plus.
    destruct (forallb _ _); [|discriminate].
    unfold bind, OrderItem_get, objects_get, ret.
    destruct (find_pk _ _ _); [|discriminate].
    intros H. inversion H. subst line db1. clear H.
    cbn [line_status] in Hst.
    destruct (left_over <=? 0) eqn:Hl;
      [|destruct (0 <? _); discriminate].
    apply Z.leb_le in Hl.
    cbn [order_items set_order_items map_rows rows]. rewrite Hoi.
    apply Forall2_map_In. intros r Hr.
    destruct (OrderItem.id r =? OrderItem.id (OrderItem.row order_item))
      eqn:Ek.
    + right. apply Z.eqb_eq in Ek.
      assert (r = OrderItem.row order_item)
        by (eapply unique_key_row; eassumption).
      subst r.
      cbn [OrderItem.with_qty_allocated OrderItem.id OrderItem.order
           OrderItem.qty_requested OrderItem.qty_allocated].
      repeat split; [left; reflexivity|lia].
    + left. split; [|reflexivity]. apply Z.eqb_neq in Ek.
      intros [E|[]]. apply Ek. symmetry. exact E.
Qed.

Lemma process_settles env user lines :
  forall tally db tally' db',
    process_forward env user lines tally db = (Ok tally', db') ->
    items_fully_allocated tally'
    = (items_fully_allocated tally + length lines)%nat ->
    NoDup (map OrderItem.id (rows (order_items db))) ->
    NoDup (map (fun oi => OrderItem.id (OrderItem.row oi)) lines) ->
    (forall oi, In oi lines ->
                In (OrderItem.row oi) (rows (order_items db))) ->
    Forall2 (settled_by (map (fun oi => OrderItem.id (OrderItem.row oi))
                             lines))
            (rows (order_items db)) (rows (order_items db')).
Proof.
  induction lines as [|oi rest IH];
    intros tally db tally' db' E Hfull Hnd Hlines Hin.
  - cbn in E. inversion E. subst. apply Forall2_same.
    intros r. left. split; [intros []|reflexivity].
  - cbn [process_forward] in E. unfold bind in E.
    destruct (_allocate_item_with_stack env oi user db)
      as [[line|e] db1] eqn:El; [|discriminate].
    destruct (process_forward_tally _ _ _ _ _ E)
      as (results & _ & _ & Hf & _ & _ & Hcount).
    assert (Hst : line_status line = "fully_allocated").
    { destruct (String.eqb_spec (line_status line) "fully_allocated")
        as [Hs|Hs]; [exact Hs|exfalso].
      apply String.eqb_neq in Hs. revert Hf. unfold tally_add.
      rewrite Hs. cbn [length] in Hfull.
      destruct (line_status line =? "partially_allocated")%string;
        cbn [items_fully_allocated]; lia. }
    assert (Hf1 : items_fully_allocated (tally_add tally line)
                  = (items_fully_allocated tally + 1)%nat).
    { unfold tally_add. rewrite Hst. reflexivity. }
    cbn [map] in Hlines. inversion Hlines as [|? ? Hnot Hrest]. subst.
    pose proof (@line_settles env oi user db line db1 El Hst
                  (Hin oi (or_introl eq_refl)) Hnd) as H1.
    assert (H2 : Forall2
                   (settled_by (map (fun oi => OrderItem.id (OrderItem.row oi))
                                    rest))
                   (rows (order_items db1)) (rows (order_items db'))).
    { apply (IH _ _ _ _ E).
      - rewrite Hf1. cbn [length] in Hfull. lia.
      - rewrite (settled_by_keys H1). exact Hnd.
      - exact Hrest.
      - intros x Hx. eapply settled_by_keeps; [exact H1| |].
        + apply Hin. right. exact Hx.
        + intros [Ek|[]]. apply Hnot. rewrite Ek.
          apply (in_map (fun oi => OrderItem.id (OrderItem.row oi))).
          exact Hx. }
    eapply Forall2_chain; [|exact H1|exact H2].
    intros a b c _ Hab Hbc. cbn [map].
    destruct Hab as [[Ha ->]|(Ha & Hid & Hord & Hsat)].
    + destruct Hbc as [[Hb ->]|(Hb & Hrest')].
      * left. split; [|reflexivity].
        intros [Ek|Hk]; [apply Ha; left; exact Ek|contradiction].
      * right. split; [right; exact Hb|exact Hrest'].
    + destruct Ha as [Ha|[]].
      destruct Hbc as [[_ ->]|(Hb & _)].
      * right. repeat split; [left; exact Ha|assumption..].
      * exfalso. apply Hnot. rewrite Ha, <- Hid. exact Hb.
Qed.

(** The joined lines of an order come from distinct stored rows, and each
    stored line of the order whose item exists is among them. *)
Lemma order_lines_distinct order its (l : list OrderItem.t) :
  let lines :=
    flat_map (fun oi =>
                if OrderItem.order oi =? Order.id order then
                  match find_pk Item.id (Some (OrderItem.item oi)) its with
                  | Some it => [OrderItem.mkInst oi it order]
                  | None => []
                  end
                else []) l in
  NoDup (map OrderItem.id l) ->
  NoDup (map (fun oi => OrderItem.id (OrderItem.row oi)) lines)
  /\ (forall inst, In inst lines -> In (OrderItem.row inst) l)
  /\ (forall r, In r l -> OrderItem.order r = Order.id order ->
                find_pk Item.id (Some (OrderItem.item r)) its <> None ->
                In (OrderItem.id r)
                   (map (fun oi => OrderItem.id (OrderItem.row oi)) lines)).
Proof.
  cbn zeta. induction l as [|r l IH]; intros Hnd.
  - cbn. repeat split; [constructor|contradiction..].
  - inversion Hnd as [|? ? Hnot Hnd']. subst.
    destruct (IH Hnd') as (IH1 & IH2 & IH3). clear IH.
    cbn [flat_map].
    destruct (OrderItem.order r =? Order.id order) eqn:Eo;
      [destruct (find_pk Item.id (Some (OrderItem.item r)) its) eqn:Ei|];
      cbn [app map].
    + split; [|split].
      * constructor; [|exact IH1]. cbn [OrderItem.row].
        intros Hk. apply Hnot. apply in_map_iff in Hk.
        destruct Hk as (inst & <- & Hinst).
        apply in_map. apply IH2. exact Hinst.
      * intros inst [<-|Hinst]; [left; reflexivity|right; auto].
      * intros x [<-|Hx] Hord Hit; [left; reflexivity|right; auto].
    + split; [exact IH1|split].
      * intros inst Hinst. right. auto.
      * intros x [<-|Hx] Hord Hit; [contradiction|auto].
    + split; [exact IH1|split].
      * intros inst Hinst. right. auto.
      * intros x [<-|Hx] Hord Hit; [|auto].
        apply Z.eqb_neq in Eo. contradiction.
Qed.

Lemma Order_save_status_result env o db o' db' :
  Order_save_status env o db = (Ok o', db') ->
  Order.status o' = Order.status o.
Proof.
  unfold Order_save_status, Order_auto_order_no.
  destruct (Order.order_no o =? "")%string; unfold bind, read, write, ret;
    cbn [Order.id Order.with_order_no];
    (destruct (find_pk Order.id _ (rows (orders db))); [|discriminate]);
    intros H; inversion H; reflexivity.
Qed.

(** X26.  A report of [allocate_order] in which every line is fully
    allocated agrees with [Order.is_fully_allocated]: when the keys of the
    order lines are unique and every line of the order refers to a stored
    item, the property is [True] on the order after the call.  The status
    ALLOCATED that the call stores in this case is therefore backed by the
    stored lines, also for the lines that needed stock from several
    batches. *)
Theorem fully_allocated_report_is_fully_allocated
        env order_id user db report db' :
  NoDup (map OrderItem.id (rows (order_items db))) ->
  (forall r, In r (rows (order_items db)) ->
             OrderItem.order r = order_id ->
             find_pk Item.id (Some (OrderItem.item r)) (rows (items db))
             <> None) ->
  allocate_order env order_id user db = (Ok report, db') ->
  rep_items_allocated report = length (rep_details report) ->
  rep_status report = Order.STATUS_ALLOCATED
  /\ forall order,
       Order.id order = order_id ->
       Order_is_fully_allocated order db' = (Ok true, db').
Proof.
  intros Hnd Hfk E. revert E.
  unfold allocate_order, bind at 1, try_except, Order_get, objects_get.
  destruct (find_pk Order.id (Some order_id) (rows (orders db)))
    as [order|] eqn:Ho; [|discriminate].
  pose proof (find_pk_id _ _ _ Ho) as Hid. cbn beta in Hid.
  destruct (_ =? _)%string; [discriminate|].
  unfold bind at 1, order_items_of, read.
  set (lines := flat_map _ _).
  destruct (@order_lines_distinct order (rows (items db))
              (rows (order_items db)) Hnd) as (Hl1 & Hl2 & Hl3).
  fold lines in Hl1, Hl2, Hl3.
  destruct lines as [|oi ois] eqn:Hlines; [discriminate|].
  rewrite <- Hlines in *.
  destruct (task_queue_fifo (oi :: ois)) as (task_q & Hq & Hproc).
  unfold bind at 1, lift. rewrite <- Hlines in Hq, Hproc. rewrite Hq.
  unfold bind at 1, atomic. unfold bind at 1. rewrite Hproc.
  destruct (process_forward env user lines (mkTally [] 0 0 0) db)
    as [[tally|e] db1] eqn:Ep; [|discriminate].
  destruct (process_forward_tally _ _ _ _ _ Ep)
    as (results & Hres & Hids & _ & _ & _ & _).
  cbn [allocation_results app] in Hres.
  assert (Hlen : length (allocation_results tally) = length lines).
  { rewrite Hres, <- (length_map line_order_item_id), Hids, length_map.
    reflexivity. }
  destruct (Nat.eqb _ _) eqn:Hall.
  - apply Nat.eqb_eq in Hall.
    pose proof (@process_settles env user lines _ _ _ _ Ep Hall Hnd Hl1 Hl2)
      as Hset.
    unfold bind at 1.
    match goal with
    | |- context [Order_save_status env ?o db1] =>
        destruct (Order_save_status_frame env o db1) as [tb Hfr];
        destruct (Order_save_status env o db1) as [[o'|e] db2] eqn:Es;
        cbn [snd] in Hfr; subst db2; [|discriminate]
    end.
    unfold ret. cbn [fst snd]. intros H. inversion H. subst report db'.
    clear H. cbn [rep_status]. intros _. split.
    + rewrite (Order_save_status_result _ _ _ Es). reflexivity.
    + intros order0 Hid0. unfold Order_is_fully_allocated, read.
      f_equal. f_equal. cbn [order_items set_orders].
      rewrite Hid0.
      assert (Hsat : forall r', In r' (rows (order_items db1)) ->
                                OrderItem.order r' = order_id ->
                                OrderItem.qty_requested r'
                                <= OrderItem.qty_allocated r').
      { intros r' Hr' Hord.
        destruct (@settled_by_source _ _ _ r' Hset Hr') as (r & Hr & Hcase).
        destruct Hcase as [[Hnot ->]|(_ & _ & _ & Hs)]; [|exact Hs].
        exfalso. apply Hnot.
        apply Hl3; [exact Hr|congruence|apply Hfk; assumption]. }
      assert (Hex : exists r', In r' (rows (order_items db1))
                               /\ OrderItem.order r' = order_id).
      { assert (Hi : In oi lines) by (rewrite Hlines; left; reflexivity).
        pose proof (Hl2 oi Hi) as Hin0.
        unfold lines in Hi. apply order_items_of_lines in Hi.
        destruct Hi as (_ & Ho0 & _).
        destruct (@settled_by_target _ _ _ _ Hset Hin0) as (r' & Hr' & Hcase).
        exists r'. split; [exact Hr'|].
        destruct Hcase as [[_ ->]|(_ & _ & Hs & _)]; congruence. }
      destruct (filter _ (rows (order_items db1))) as [|x xs] eqn:Hfil.
      * exfalso. destruct Hex as (r' & Hr' & Hord).
        assert (Hi : In r' (filter (fun oi => OrderItem.order oi =? order_id)
                                   (rows (order_items db1)))).
        { apply filter_In. split; [exact Hr'|]. apply Z.eqb_eq. exact Hord. }
        rewrite Hfil in Hi. contradiction.
      * apply forallb_forall. intros y Hy. rewrite <- Hfil in Hy.
        apply filter_In in Hy. destruct Hy as [Hy Hord].
        apply Z.eqb_eq in Hord. apply Z.leb_le. apply Hsat; assumption.
  - apply Nat.eqb_neq in Hall.
    destruct (Nat.eqb _ _).
    + unfold bind, Notification_create, raise. discriminate.
    + unfold bind, Notification_create, ret. cbn [fst snd].
      intros H. inversion H. subst report db'. clear H.
      cbn [rep_items_allocated rep_details]. intros Hrep.
      exfalso. apply Hall. rewrite Hrep. exact Hlen.
Qed.

Lemma fully_allocated_report_is_fully_allocated_witness :
  fst (Order_is_fully_allocated (Order.mk 1 "ORD-001" Order.STATUS_NEW)
         (snd (allocate_order (test_env sqlite3) 1 (Some 7)
                              (fefo_db 120000))))
  = Ok true.
Proof.
  destruct (allocate_order (test_env sqlite3) 1 (Some 7) (fefo_db 120000))
    as [[report|e] db'] eqn:E; cbn [snd].
  - destruct (@fully_allocated_report_is_fully_allocated
                (test_env sqlite3) 1 (Some 7) (fefo_db 120000) report db')
      as [_ H].
    + cbn. constructor; [intros []|constructor].
    + intros r Hr _. cbn in Hr. destruct Hr as [<-|[]].
      vm_compute. discriminate.
    + exact E.
    + vm_compute in E. inversion E. reflexivity.
    + rewrite (H (Order.mk 1 "ORD-001" Order.STATUS_NEW) eq_refl).
      reflexivity.
  - vm_compute in E. discriminate.
Defined.

(* ===================================================================== *)
(** * The report of a line against the Allocation rows it wrote *)
(* ===================================================================== *)

(** The candidate loop appends one Allocation row for each entry it adds
    to [allocations_made], with the same quantity and in the same order. *)
Lemma forward_rows_listed order_item user l :
  forall qty made db made' left_over db1,
    0 <= qty ->
    allocate_forward order_item user l qty made db
    = (Ok (made', left_over), db1) ->
    exists new,
      rows (allocations db1) = rows (allocations db) ++ new
      /\ map snd made' = map snd made ++ map Allocation.qty_allocated new
      /\ Forall (fun a => Allocation.order_item a
                          = OrderItem.id (OrderItem.row order_item)
                          /\ 0 < Allocation.qty_allocated a) new
      /\ fold_right Z.add 0 (map Allocation.qty_allocated new)
         = qty - left_over
      /\ 0 <= left_over.
Proof.
  induction l as [|batch_id l IH];
    intros qty made db made' left_over db1 Hqty.
  - cbn. intros H. inversion H. subst. exists [].
    rewrite !app_nil_r. cbn. repeat split; [constructor|lia|lia].
  - cbn [allocate_forward].
    destruct (0 <? qty) eqn:Hpos.
    2:{ intros H. inversion H. subst. exists [].
        rewrite !app_nil_r. cbn. repeat split; [constructor|lia|lia]. }
    apply Z.ltb_lt in Hpos. unfold bind.
    destruct (allocate_from_candidate_cases order_item user (Some batch_id)
                qty db)
      as [[Hdb Hnone]|(batch & _ & Hav & _ & _ & E)].
    + destruct (allocate_from_candidate order_item user (Some batch_id)
                  qty db) as [[[made1|]|e] db0];
        cbn [fst snd] in Hdb, Hnone; subst.
      * exfalso. apply (Hnone made1). reflexivity.
      * apply IH. exact Hqty.
      * discriminate.
    + rewrite E. intros H. apply IH in H; [|lia].
      destruct H as (new & Hrows & Hmade & Hall & Hsum & Hleft).
      cbn [allocations set_transaction_logs set_allocations set_batches
           insert_row rows] in Hrows.
      eexists (_ :: new). rewrite Hrows, <- app_assoc. cbn [app].
      split; [reflexivity|].
      split; [rewrite Hmade, map_app, <- app_assoc; reflexivity|].
      split; [constructor; [split; [reflexivity|cbn; lia]|exact Hall]|].
      split; [cbn; lia|exact Hleft].
Qed.

Lemma positive_sum_zero (new : list Allocation.t) :
  Forall (fun a => 0 < Allocation.qty_allocated a) new ->
  0 <= fold_right Z.add 0 (map Allocation.qty_allocated new)
  /\ (fold_right Z.add 0 (map Allocation.qty_allocated new) = 0 -> new = []).
Proof.
  induction 1 as [|a new Ha _ [IH1 IH2]]; cbn; [split; [lia|reflexivity]|].
  split; [lia|]. intros H. exfalso. lia.
Qed.

(** X8.  For a line whose instance still needs stock, a call of
    [_allocate_item_with_stack] that returns reports what it wrote.  The
    Allocation rows appended by the call all belong to the line and have
    positive quantities; the report lists their quantities in the order
    they were created; their sum is at most the quantity needed; the
    quantity reported as remaining is the quantity needed minus that sum;
    and the status is "fully_allocated" exactly when the sum reaches the
    quantity needed, "allocation_failed" exactly when no row was appended,
    and "partially_allocated" in between.  The quantity needed is the one
    computed from the instance passed in, [qty_requested - qty_allocated];
    the stored line is raised by the same sum through an [F()] update, so
    nothing here bounds the stored [qty_allocated] by [qty_requested] when
    the instance is stale.  The report holds the quantities converted
    with [float]; the model keeps the decimal values. *)
Theorem line_report_adds_up env order_item user db line db' :
  let qty_needed :=
    OrderItem.qty_requested (OrderItem.row order_item)
    - OrderItem.qty_allocated (OrderItem.row order_item) in
  0 < qty_needed ->
  _allocate_item_with_stack env order_item user db = (Ok line, db') ->
  exists new,
    let total := fold_right Z.add 0 (map Allocation.qty_allocated new) in
    rows (allocations db') = rows (allocations db) ++ new
    /\ Forall (fun a => Allocation.order_item a
                        = OrderItem.id (OrderItem.row order_item)
                        /\ 0 < Allocation.qty_allocated a) new
    /\ map snd (line_allocations line) = map Allocation.qty_allocated new
    /\ total <= qty_needed
    /\ line_qty_remaining line = Some (qty_needed - total)
    /\ (line_status line = "fully_allocated" <-> total = qty_needed)
    /\ (line_status line = "allocation_failed" <-> new = [])
    /\ (line_status line = "partially_allocated"
        <-> new <> [] /\ total < qty_needed).
Proof.
  intros qty_needed Hneed. rewrite allocate_item_as_forward.
  unfold allocate_item_forward. fold qty_needed.
  replace (qty_needed <=? 0) with false by (symmetry; apply Z.leb_gt; lia).
  unfold bind at 1, eligible_batches, read. unfold bind at 1.
  destruct (allocate_forward _ _ _ _ _ _) as [[[made left_over]|e] db1] eqn:E;
    [|discriminate].
  apply forward_rows_listed in E; [|lia].
  destruct E as (new & Hrows & Hmade & Hall & Hsum & Hleft).
  cbn [map app] in Hmade.
  cbn [fst snd]. unfold bind at 1, OrderItem_update_allocated_plus.
  destruct (forallb _ _); [|discriminate].
  unfold bind, OrderItem_get, objects_get, ret.
  destruct (find_pk _ _ _); [|discriminate].
  intros H. inversion H. subst line db'. clear H.
  cbn [line_qty_remaining line_allocations line_status allocations
       set_order_items].
  exists new. cbv zeta.
  destruct (@positive_sum_zero new) as [Hnn Hzero].
  { eapply Forall_impl; [|exact Hall]. intros a [_ Ha]. exact Ha. }
  split; [exact Hrows|]. split; [exact Hall|]. split; [exact Hmade|].
  split; [lia|]. split; [f_equal; lia|].
  assert (Hnil : new = [] -> fold_right Z.add 0
                               (map Allocation.qty_allocated new) = 0)
    by (intros ->; reflexivity).
  destruct (left_over <=? 0) eqn:Hl;
    [apply Z.leb_le in Hl
    |apply Z.leb_gt in Hl;
     destruct (0 <? qty_needed - left_over) eqn:Ht;
     [apply Z.ltb_lt in Ht|apply Z.ltb_ge in Ht]].
  - split; [split; [intros _; lia|reflexivity]|].
    split; [split; [discriminate|intros Hn; apply Hnil in Hn; lia]|].
    split; [discriminate|intros [_ Hlt]; lia].
  - split; [split; [discriminate|intros Ht'; lia]|].
    split; [split; [discriminate|intros Hn; apply Hnil in Hn; lia]|].
    split; [intros _|reflexivity].
    split; [intros Hn; apply Hnil in Hn; lia|lia].
  - split; [split; [discriminate|intros Ht'; lia]|].
    split; [split; [intros _; apply Hzero; lia|reflexivity]|].
    split; [discriminate|intros [Hn _]; exfalso; apply Hn, Hzero; lia].
Qed.

Lemma line_report_adds_up_witness :
  exists new,
    rows (allocations
            (snd (_allocate_item_with_stack (test_env postgresql)
                    (OrderItem.mkInst (OrderItem.mk 1 1 1 120000 0)
                       (Item.mk 1 "TEST-001")
                       (Order.mk 1 "ORD-001" Order.STATUS_NEW))
                    (Some 7) (fefo_db 120000))))
    = [] ++ new
    /\ map snd [("LOT-A", 50000); ("LOT-B", 70000)]
       = map Allocation.qty_allocated new
    /\ fold_right Z.add 0 (map Allocation.qty_allocated new) <= 120000 - 0.
Proof.
  destruct (@line_report_adds_up (test_env postgresql)
              (OrderItem.mkInst (OrderItem.mk 1 1 1 120000 0)
                 (Item.mk 1 "TEST-001")
                 (Order.mk 1 "ORD-001" Order.STATUS_NEW))
              (Some 7) (fefo_db 120000)
              (mkLine 1 "TEST-001" "fully_allocated" 120000 120000 (Some 0)
                      [("LOT-A", 50000); ("LOT-B", 70000)])
              (snd (_allocate_item_with_stack (test_env postgresql)
                      (OrderItem.mkInst (OrderItem.mk 1 1 1 120000 0)
                         (Item.mk 1 "TEST-001")
                         (Order.mk 1 "ORD-001" Order.STATUS_NEW))
                      (Some 7) (fefo_db 120000))))
    as (new & Hrows & _ & Hlist & Hle & _).
  - cbn. lia.
  - vm_compute. reflexivity.
  - exists new. split; [exact Hrows|]. split; [exact Hlist|exact Hle].
Defined.
